(** * URL shortener (src/app.js, src/public/index.js): the link store, its
      request handlers and the page

    The server keeps one JSON file, [data/links.json], holding an object that
    maps short codes to destination URLs.  Every request re-reads the file
    ([loadLinks]); a successful [POST /shorten] rewrites it ([saveLinks]).

    The development has five layers:
    - [text]: JavaScript strings as sequences of UTF-16 code units;
    - JSON: values, [JSON_parse] and [JSON_stringify], and the part of the
      JavaScript object model the handlers use (own properties in
      enumeration order, the members inherited from [Object.prototype],
      [ToBoolean]);
    - the platform: the file system seen through [readFile] and [writeFile],
      and [async] code as a tree of file operations that can be run alone
      ([exec]) or interleaved with other requests ([run_pool]);
    - the application: [loadLinks], [saveLinks], [serveFile] and [server],
      written after src/app.js;
    - the page: [fetchShortenedUrl] and the [submit] listener, written after
      src/public/index.js as code that changes the page as it goes, with
      [fetch] answered by [server].

    What the model leaves out is marked [Unmodelled] where a program would
    reach it: the conversion of number literals to doubles and back (their
    truth value, their text, their spelling as a property name), property
    access on a record that holds an array, a string, a number or a boolean
    instead of an object, and the conversion of a redirect target that is
    not a string.  Number tokens are still read by [JSON_parse], so that
    what parses and what does not is exact.  Of the page the model keeps
    the markup assigned to [innerHTML] as text, and does not follow a
    request that the server leaves unanswered. *)

From Stdlib Require Import List NArith Arith Bool String Ascii Lia.
From Stdlib.Strings Require Import Byte.
Import ListNotations.

Local Open Scope N_scope.
Local Open Scope list_scope.

(** ** Text *)

(** A JavaScript string is a sequence of UTF-16 code units.  The files are
    read and written with the utf-8 encoding; the model holds them already
    decoded. *)
Definition text := list N.

Definition lit (s : string) : text := map N_of_ascii (list_ascii_of_string s).

Fixpoint text_eqb (a b : text) : bool :=
  match a, b with
  | [], [] => true
  | x :: a', y :: b' => (x =? y) && text_eqb a' b'
  | _, _ => false
  end.

(** Concrete JSON texts are written with apostrophes in place of the double
    quotes, which [jlit] puts back. *)
Definition jlit (s : string) : text :=
  map (fun c => if c =? 39 then 34 else c) (lit s).

Definition is_empty (t : text) : bool :=
  match t with [] => true | _ :: _ => false end.

Fixpoint starts_with (prefix t : text) : option text :=
  match prefix, t with
  | [], _ => Some t
  | p :: prefix', c :: t' => if p =? c then starts_with prefix' t' else None
  | _ :: _, [] => None
  end.

(** ** JSON values *)

#[local] Unset Elimination Schemes.
Inductive value : Type :=
| VNull
| VBool (b : bool)
| VNum (literal : text)
| VStr (s : text)
| VArr (items : list value)
| VObj (members : list (text * value)).
#[local] Set Elimination Schemes.

(** The own properties of an ordinary object, in the order in which
    [JSON.stringify], [Object.entries] and [for-in] enumerate them. *)
Definition props := list (text * value).

(** *** Own properties and their order *)

Definition is_digit (c : N) : bool := (48 <=? c) && (c <=? 57).

Definition decimal (ds : text) : N :=
  fold_left (fun acc d => 10 * acc + (d - 48)) ds 0.

(** A property name is an array index when it is the canonical decimal
    spelling of an integer between 0 and 2^32 - 2.  Such names are
    enumerated first, in increasing numeric order; all the others follow in
    the order of their creation. *)
Definition array_index (k : text) : option N :=
  match k with
  | [] => None
  | c :: r =>
      if forallb is_digit k && negb ((c =? 48) && negb (is_empty r))
      then (let n := decimal k in if n <=? 4294967294 then Some n else None)
      else None
  end.

Fixpoint own_property (o : props) (k : text) : option value :=
  match o with
  | [] => None
  | (k', v) :: o' => if text_eqb k' k then Some v else own_property o' k
  end.

Definition has_own (o : props) (k : text) : bool :=
  match own_property o k with Some _ => true | None => false end.

Fixpoint update_property (o : props) (k : text) (v : value) : props :=
  match o with
  | [] => []
  | (k', v') :: o' =>
      if text_eqb k' k then (k', v) :: o'
      else (k', v') :: update_property o' k v
  end.

Fixpoint insert_index (o : props) (n : N) (k : text) (v : value) : props :=
  match o with
  | [] => [(k, v)]
  | (k', v') :: o' =>
      match array_index k' with
      | Some n' =>
          if n <? n' then (k, v) :: o else (k', v') :: insert_index o' n k v
      | None => (k, v) :: o
      end
  end.

Definition add_property (o : props) (k : text) (v : value) : props :=
  match array_index k with
  | Some n => insert_index o n k v
  | None => o ++ [(k, v)]
  end.

(** CreateDataProperty: an existing own property keeps its place and takes
    the new value, a new one is added. *)
Definition define_property (o : props) (k : text) (v : value) : props :=
  if has_own o k then update_property o k v else add_property o k v.

(** ** JSON.parse *)

Definition is_ws (c : N) : bool :=
  (c =? 32) || (c =? 9) || (c =? 10) || (c =? 13).

Fixpoint skip_ws (t : text) : text :=
  match t with
  | c :: r => if is_ws c then skip_ws r else t
  | [] => []
  end.

Definition hex_val (c : N) : option N :=
  if is_digit c then Some (c - 48)
  else if (97 <=? c) && (c <=? 102) then Some (c - 87)
  else if (65 <=? c) && (c <=? 70) then Some (c - 55)
  else None.

Definition hex4 (a b c d : N) : option N :=
  match hex_val a, hex_val b, hex_val c, hex_val d with
  | Some x, Some y, Some z, Some w => Some (((x * 16 + y) * 16 + z) * 16 + w)
  | _, _, _, _ => None
  end.

(** The character after a backslash, other than [u]: quote, backslash,
    slash, and the letters b, f, n, r, t. *)
Definition unescape (e : N) : option N :=
  if e =? 34 then Some 34
  else if e =? 92 then Some 92
  else if e =? 47 then Some 47
  else if e =? 98 then Some 8
  else if e =? 102 then Some 12
  else if e =? 110 then Some 10
  else if e =? 114 then Some 13
  else if e =? 116 then Some 9
  else None.

Definition cons_fst (c : N) (r : option (text * text)) : option (text * text) :=
  match r with
  | Some (s, rest) => Some (c :: s, rest)
  | None => None
  end.

(** The characters of a string literal, read from just after its opening
    quote up to and including its closing quote. *)
Fixpoint parse_chars (t : text) : option (text * text) :=
  match t with
  | [] => None
  | c :: r =>
      if c =? 34 then Some ([], r)
      else if c =? 92 then
        match r with
        | [] => None
        | e :: r' =>
            if e =? 117 then
              match r' with
              | h1 :: h2 :: h3 :: h4 :: r'' =>
                  match hex4 h1 h2 h3 h4 with
                  | Some u => cons_fst u (parse_chars r'')
                  | None => None
                  end
              | _ => None
              end
            else
              match unescape e with
              | Some u => cons_fst u (parse_chars r')
              | None => None
              end
        end
      else if c <? 32 then None
      else cons_fst c (parse_chars r)
  end.

Fixpoint digits (t : text) : text * text :=
  match t with
  | c :: r =>
      if is_digit c then (let '(ds, rest) := digits r in (c :: ds, rest))
      else ([], t)
  | [] => ([], [])
  end.

Definition lex_sign (t : text) : text * text :=
  match t with
  | c :: r => if c =? 45 then ([c], r) else ([], t)
  | [] => ([], [])
  end.

Definition lex_int (t : text) : option (text * text) :=
  match t with
  | c :: r =>
      if c =? 48 then Some ([c], r)
      else if is_digit c then (let '(ds, rest) := digits r in Some (c :: ds, rest))
      else None
  | [] => None
  end.

Definition lex_frac (t : text) : option (text * text) :=
  match t with
  | c :: r =>
      if c =? 46 then
        match digits r with
        | ([], _) => None
        | (ds, rest) => Some (c :: ds, rest)
        end
      else Some ([], t)
  | [] => Some ([], [])
  end.

Definition lex_exp (t : text) : option (text * text) :=
  match t with
  | c :: r =>
      if (c =? 101) || (c =? 69) then
        let '(sg, r1) :=
          match r with
          | s :: r' => if (s =? 43) || (s =? 45) then ([s], r') else ([], r)
          | [] => ([], [])
          end in
        match digits r1 with
        | ([], _) => None
        | (ds, rest) => Some (c :: sg ++ ds, rest)
        end
      else Some ([], t)
  | [] => Some ([], [])
  end.

(** A number token.  The model keeps the literal and does not convert it to
    a double. *)
Definition lex_number (t : text) : option (text * text) :=
  let '(sg, t1) := lex_sign t in
  match lex_int t1 with
  | Some (i, t2) =>
      match lex_frac t2 with
      | Some (f, t3) =>
          match lex_exp t3 with
          | Some (e, t4) => Some (sg ++ i ++ f ++ e, t4)
          | None => None
          end
      | None => None
      end
  | None => None
  end.

Definition parse_scalar (t : text) : option (value * text) :=
  match starts_with (lit "true") t with
  | Some r => Some (VBool true, r)
  | None =>
  match starts_with (lit "false") t with
  | Some r => Some (VBool false, r)
  | None =>
  match starts_with (lit "null") t with
  | Some r => Some (VNull, r)
  | None =>
  match lex_number t with
  | Some (l, r) => Some (VNum l, r)
  | None => None
  end end end end.

(** The recursive-descent parser.  [fuel] bounds the number of nested calls;
    every call consumes at least one character before it recurses, so the
    length of the input is enough.  [parse_value] expects its input with the
    leading white space removed; [parse_members] and [parse_elements] are
    entered at the first character of a member or element. *)
Fixpoint parse_value (fuel : nat) (t : text) : option (value * text) :=
  match fuel with
  | O => None
  | S fuel' =>
      match t with
      | [] => None
      | c :: r =>
          if c =? 123 then
            match skip_ws r with
            | [] => None
            | d :: r' =>
                if d =? 125 then Some (VObj [], r')
                else parse_members fuel' [] (d :: r')
            end
          else if c =? 91 then
            match skip_ws r with
            | [] => None
            | d :: r' =>
                if d =? 93 then Some (VArr [], r')
                else parse_elements fuel' [] (d :: r')
            end
          else if c =? 34 then
            match parse_chars r with
            | Some (s, r') => Some (VStr s, r')
            | None => None
            end
          else parse_scalar t
      end
  end

with parse_members (fuel : nat) (acc : props) (t : text) : option (value * text) :=
  match fuel with
  | O => None
  | S fuel' =>
      match t with
      | [] => None
      | q :: r =>
          if q =? 34 then
            match parse_chars r with
            | None => None
            | Some (k, r1) =>
                match skip_ws r1 with
                | [] => None
                | colon :: r2 =>
                    if colon =? 58 then
                      match parse_value fuel' (skip_ws r2) with
                      | None => None
                      | Some (v, r3) =>
                          let acc' := define_property acc k v in
                          match skip_ws r3 with
                          | [] => None
                          | e :: r4 =>
                              if e =? 44 then parse_members fuel' acc' (skip_ws r4)
                              else if e =? 125 then Some (VObj acc', r4)
                              else None
                          end
                      end
                    else None
                end
            end
          else None
      end
  end

with parse_elements (fuel : nat) (acc : list value) (t : text) : option (value * text) :=
  match fuel with
  | O => None
  | S fuel' =>
      match parse_value fuel' t with
      | None => None
      | Some (v, r1) =>
          match skip_ws r1 with
          | [] => None
          | e :: r2 =>
              if e =? 44 then parse_elements fuel' (acc ++ [v]) (skip_ws r2)
              else if e =? 93 then Some (VArr (acc ++ [v]), r2)
              else None
          end
      end
  end.

(** [JSON.parse(text)]: [None] stands for the [SyntaxError] it throws. *)
Definition JSON_parse (t : text) : option value :=
  match parse_value (S (List.length t)) (skip_ws t) with
  | Some (v, rest) => if is_empty (skip_ws rest) then Some v else None
  | None => None
  end.

(** ** JSON.stringify *)

Definition hex_digit (n : N) : N := if n <? 10 then 48 + n else 87 + n.

(** Backslash, [u] and four lower-case hexadecimal digits. *)
Definition unicode_escape (c : N) : text :=
  [92; 117; hex_digit (c / 4096 mod 16); hex_digit (c / 256 mod 16);
   hex_digit (c / 16 mod 16); hex_digit (c mod 16)].

Definition is_high (c : N) : bool := (55296 <=? c) && (c <=? 56319).
Definition is_low (c : N) : bool := (56320 <=? c) && (c <=? 57343).

(** One code unit that is not the first half of a surrogate pair. *)
Definition quote_unit (c : N) : text :=
  if c =? 8 then [92; 98]
  else if c =? 9 then [92; 116]
  else if c =? 10 then [92; 110]
  else if c =? 12 then [92; 102]
  else if c =? 13 then [92; 114]
  else if c =? 34 then [92; 34]
  else if c =? 92 then [92; 92]
  else if (c <? 32) || is_high c || is_low c then unicode_escape c
  else [c].

(** QuoteJSONString walks the code points of the string: a surrogate pair
    is copied, a lone surrogate is escaped. *)
Fixpoint quote_units (s : text) : text :=
  match s with
  | [] => []
  | c :: r =>
      if is_high c then
        match r with
        | d :: r' =>
            if is_low d then c :: d :: quote_units r'
            else unicode_escape c ++ quote_units r
        | [] => unicode_escape c
        end
      else quote_unit c ++ quote_units r
  end.

Definition quote (s : text) : text := 34 :: quote_units s ++ [34].

Fixpoint join (sep : text) (parts : list text) : text :=
  match parts with
  | [] => []
  | p :: rest =>
      match rest with
      | [] => p
      | _ :: _ => p ++ sep ++ join sep rest
      end
  end.

Definition newline_indent (n : nat) : text := 10 :: repeat 32 n.

(** The brackets around the serialised members or elements; [gap] is the
    number of spaces of one indentation step and [indent] the indentation
    of the enclosing line. *)
Definition wrap (opening closing : N) (gap indent : nat) (parts : list text) : text :=
  match parts with
  | [] => [opening; closing]
  | _ :: _ =>
      match gap with
      | O => opening :: join [44] parts ++ [closing]
      | S _ =>
          opening :: newline_indent (indent + gap)
            ++ join (44 :: newline_indent (indent + gap)) parts
            ++ newline_indent indent ++ [closing]
      end
  end.

Definition member_text (gap : nat) (k : text) (v : text) : text :=
  quote k ++ 58 :: match gap with O => v | S _ => 32 :: v end.

Fixpoint all_some {A : Type} (l : list (option A)) : option (list A) :=
  match l with
  | [] => Some []
  | Some a :: l' => option_map (cons a) (all_some l')
  | None :: _ => None
  end.

(** SerializeJSONProperty.  Numbers are outside the model ([None]): their
    text is the shortest decimal that reads back as the same double. *)
Fixpoint serialize (gap indent : nat) (v : value) : option text :=
  match v with
  | VNull => Some (lit "null")
  | VBool true => Some (lit "true")
  | VBool false => Some (lit "false")
  | VNum _ => None
  | VStr s => Some (quote s)
  | VArr items =>
      option_map (wrap 91 93 gap indent)
        (all_some (map (serialize gap (indent + gap)) items))
  | VObj members =>
      option_map (wrap 123 125 gap indent)
        (all_some
           (map (fun p => option_map (member_text gap (fst p))
                            (serialize gap (indent + gap) (snd p)))
              members))
  end.

(** [JSON.stringify(v, null, space)]; a [space] above 10 counts as 10. *)
Definition JSON_stringify (v : value) (space : nat) : option text :=
  serialize (Nat.min space 10) 0 v.

(** ** The JavaScript values the handlers hold *)

(** What a property read can yield: nothing, a value that came out of
    [JSON.parse], or a member inherited from [Object.prototype] (a built-in
    function, or the prototype object itself for [__proto__]). *)
Inductive jsval : Type :=
| Undefined
| Json (v : value)
| Inherited (name : text).

(** The own properties of [Object.prototype]: every object made by
    [JSON.parse] or by an object literal inherits them. *)
Definition object_prototype_names : list text :=
  map lit
    ["constructor"; "__defineGetter__"; "__defineSetter__"; "hasOwnProperty";
     "__lookupGetter__"; "__lookupSetter__"; "isPrototypeOf";
     "propertyIsEnumerable"; "toString"; "valueOf"; "__proto__";
     "toLocaleString"]%string.

Definition is_inherited (k : text) : bool :=
  existsb (text_eqb k) object_prototype_names.

(** [o[k]] on an ordinary object: the own property if there is one, the
    inherited member otherwise. *)
Definition get_property (o : props) (k : text) : jsval :=
  match own_property o k with
  | Some v => Json v
  | None => if is_inherited k then Inherited k else Undefined
  end.

(** ToBoolean.  A number is falsy when its double is zero; the model does
    not interpret number literals ([None]). *)
Definition ToBoolean (x : jsval) : option bool :=
  match x with
  | Undefined => Some false
  | Inherited _ => Some true
  | Json VNull => Some false
  | Json (VBool b) => Some b
  | Json (VNum _) => None
  | Json (VStr s) => Some (negb (is_empty s))
  | Json (VArr _) => Some true
  | Json (VObj _) => Some true
  end.

(** ** The platform: errors, files, asynchronous code *)

Inductive error : Type :=
| SystemError (code : string)
| SyntaxError
| TypeError
| ERR_INVALID_CHAR.

(** [error.code] *)
Definition error_code (e : error) : option string :=
  match e with
  | SystemError c => Some c
  | ERR_INVALID_CHAR => Some "ERR_INVALID_CHAR"%string
  | SyntaxError | TypeError => None
  end.

Definition has_code (e : error) (c : string) : bool :=
  match error_code e with
  | Some c' => String.eqb c' c
  | None => false
  end.

(** The paths the server touches: [data/links.json] and the files of
    [public/], both under the directory of app.js. *)
Inductive path : Type :=
| DATA_FILE
| PUBLIC (name : string).

(** What reading a path finds: no such file, a failure with some other
    system error code, or the decoded content. *)
Inductive node : Type :=
| Missing
| Faulty (code : string)
| File (data : text).

Inductive log : Type :=
| LogRequest (method : string) (url : text)
| LogRedirecting (shortCode : text) (targetUrl : jsval)
| ErrorReadingFile (filePath : path) (e : error)
| ErrorProcessingPost (e : error)
| ErrorDuringRedirection (e : error).

(** The state outside the handlers.  [write_fault] is the system error, if
    any, that opening [data/links.json] for writing raises (a missing
    [data] directory, a read-only file).  [console] holds the lines printed
    so far, oldest first. *)
Record world : Type := mkWorld {
  links_json : node;
  public : string -> node;
  write_fault : option string;
  console : list log
}.

Definition set_links_json (w : world) (n : node) : world :=
  mkWorld n (public w) (write_fault w) (console w).

Definition print (w : world) (l : log) : world :=
  mkWorld (links_json w) (public w) (write_fault w) (console w ++ [l]).

Definition lookup (w : world) (p : path) : node :=
  match p with
  | DATA_FILE => links_json w
  | PUBLIC name => public w name
  end.

Definition read (w : world) (p : path) : error + text :=
  match lookup w p with
  | Missing => inl (SystemError "ENOENT")
  | Faulty c => inl (SystemError c)
  | File data => inr data
  end.

(** Opening with flag [w] creates the file or cuts it to length zero.  The
    server writes nowhere but to [data/links.json]; the model keeps
    [public/] read-only. *)
Definition open_trunc (w : world) (p : path) : option error * world :=
  match p with
  | DATA_FILE =>
      match write_fault w with
      | Some c => (Some (SystemError c), w)
      | None => (None, set_links_json w (File []))
      end
  | PUBLIC _ => (Some (SystemError "EACCES"), w)
  end.

(** The record is kept as the text its bytes decode to, the bytes being
    the UTF-8 encoding of the text: one to three bytes for a code unit,
    four for a surrogate pair (an unpaired surrogate is written as the
    replacement character). *)
Definition utf8_size (c : N) : N :=
  if c <? 128 then 1 else if c <? 2048 then 2 else 3.

Fixpoint utf8_length (t : text) : N :=
  match t with
  | [] => 0
  | c :: r =>
      if is_high c then
        match r with
        | d :: r' => if is_low d then 4 + utf8_length r' else 3 + utf8_length r
        | [] => 3
        end
      else utf8_size c + utf8_length r
  end.

(** What is left of a text past its first [n] bytes.  Where the cut falls
    inside a character, each byte left of that character reads as one
    replacement character.  (A later write over such a record counts each
    of them as a character of three bytes: the model is exact as long as
    no further write is cut at them.) *)
Definition cut_character (size n : N) (rest : text) : text :=
  repeat 65533 (N.to_nat (size - n)) ++ rest.

Fixpoint drop_bytes (n : N) (t : text) : text :=
  match t with
  | [] => []
  | c :: r =>
      if n =? 0 then t
      else if is_high c then
        match r with
        | d :: r' =>
            if is_low d then
              if 4 <=? n then drop_bytes (n - 4) r' else cut_character 4 n r'
            else if 3 <=? n then drop_bytes (n - 3) r else cut_character 3 n r
        | [] => if 3 <=? n then [] else cut_character 3 n []
        end
      else if utf8_size c <=? n then drop_bytes (n - utf8_size c) r
      else cut_character (utf8_size c) n r
  end.

(** The bytes of [data] written at the start of a file that holds
    [current]: what [current] has beyond them stays. *)
Definition overwrite (data current : text) : text :=
  data ++ drop_bytes (utf8_length data) current.

Definition content (n : node) : text :=
  match n with
  | File data => data
  | Missing | Faulty _ => []
  end.

(** The write of [writeFile]: the whole data, at the start of the file,
    which the request has cut to length zero when it opened it.  If
    another request has written the file since, what that text has beyond
    the length of the data stays in the file. *)
Definition write_all (w : world) (p : path) (data : text) : world :=
  match p with
  | DATA_FILE => set_links_json w (File (overwrite data (content (links_json w))))
  | PUBLIC _ => w
  end.

(** An [async] function is a tree: it returns, throws, or performs one
    operation on the world and goes on with the result.  Between two
    operations of one request the operations of other requests can run.
    [Unmodelled] marks the behaviours of JavaScript the model leaves out
    (number conversions, property access on arrays and primitives). *)
Inductive prog (A : Type) : Type :=
| Ret (a : A)
| Throw (e : error)
| Unmodelled
| Print (l : log) (k : prog A)
| ReadFile (p : path) (k : error + text -> prog A)
| OpenTrunc (p : path) (k : option error -> prog A)
| WriteAll (p : path) (data : text) (k : prog A).

Arguments Ret {A} a.
Arguments Throw {A} e.
Arguments Unmodelled {A}.
Arguments Print {A} l k.
Arguments ReadFile {A} p k.
Arguments OpenTrunc {A} p k.
Arguments WriteAll {A} p data k.

Fixpoint bind {A B : Type} (p : prog A) (f : A -> prog B) : prog B :=
  match p with
  | Ret a => f a
  | Throw e => Throw e
  | Unmodelled => Unmodelled
  | Print l k => Print l (bind k f)
  | ReadFile q k => ReadFile q (fun r => bind (k r) f)
  | OpenTrunc q k => OpenTrunc q (fun r => bind (k r) f)
  | WriteAll q data k => WriteAll q data (bind k f)
  end.

(** [try] block [p] with the [catch] block [handler] *)
Fixpoint try_catch {A : Type} (p : prog A) (handler : error -> prog A) : prog A :=
  match p with
  | Ret a => Ret a
  | Throw e => handler e
  | Unmodelled => Unmodelled
  | Print l k => Print l (try_catch k handler)
  | ReadFile q k => ReadFile q (fun r => try_catch (k r) handler)
  | OpenTrunc q k => OpenTrunc q (fun r => try_catch (k r) handler)
  | WriteAll q data k => WriteAll q data (try_catch k handler)
  end.

Declare Scope prog_scope.
Delimit Scope prog_scope with prog.
Bind Scope prog_scope with prog.

Notation "x <- p ;; q" := (bind p (fun x => q))
  (at level 61, p at next level, right associativity) : prog_scope.
Notation "' pat <- p ;; q" := (bind p (fun x => match x with pat => q end))
  (at level 61, pat pattern, p at next level, right associativity) : prog_scope.
Notation "p ;; q" := (bind p (fun _ => q))
  (at level 61, right associativity) : prog_scope.
Notation "'try' p 'catch' h" := (try_catch p h)
  (at level 62, p at level 61, h at level 9) : prog_scope.

Local Open Scope prog_scope.

Definition known {A : Type} (x : option A) : prog A :=
  match x with
  | Some a => Ret a
  | None => Unmodelled
  end.

(** [await readFile(p, encoding)] *)
Definition readFile (p : path) : prog text :=
  ReadFile p (fun r => match r with inl e => Throw e | inr data => Ret data end).

(** [await writeFile(p, data)] opens the file with flag [w], which empties
    it, and then writes the data: two operations, so that other requests
    can run in between.  The data is written by one write. *)
Definition writeFile (p : path) (data : text) : prog unit :=
  OpenTrunc p (fun r =>
    match r with
    | Some e => Throw e
    | None => WriteAll p data (Ret tt)
    end).

(** [JSON.parse(t)] as a step of a program *)
Definition parse (t : text) : prog value :=
  match JSON_parse t with
  | Some v => Ret v
  | None => Throw SyntaxError
  end.

Definition stringify (v : value) (space : nat) : prog text :=
  known (JSON_stringify v space).

(** *** Running a program *)

Inductive outcome (A : Type) : Type :=
| Returned (a : A)
| Thrown (e : error)
| Unknown.

Arguments Returned {A} a.
Arguments Thrown {A} e.
Arguments Unknown {A}.

(** The program run to its end with no other request in between. *)
Fixpoint exec {A : Type} (p : prog A) (w : world) : outcome A * world :=
  match p with
  | Ret a => (Returned a, w)
  | Throw e => (Thrown e, w)
  | Unmodelled => (Unknown, w)
  | Print l k => exec k (print w l)
  | ReadFile q k => exec (k (read w q)) w
  | OpenTrunc q k => exec (k (fst (open_trunc w q))) (snd (open_trunc w q))
  | WriteAll q data k => exec k (write_all w q data)
  end.

(** One operation of the program. *)
Definition step {A : Type} (p : prog A) (w : world) : prog A * world :=
  match p with
  | Ret _ | Throw _ | Unmodelled => (p, w)
  | Print l k => (k, print w l)
  | ReadFile q k => (k (read w q), w)
  | OpenTrunc q k => (k (fst (open_trunc w q)), snd (open_trunc w q))
  | WriteAll q data k => (k, write_all w q data)
  end.

(** Several requests in flight: [step_at i] lets request [i] perform its
    next operation, a schedule is the list of the requests that move. *)
Fixpoint step_at {A : Type} (i : nat) (pool : list (prog A)) (w : world)
  : list (prog A) * world :=
  match pool with
  | [] => ([], w)
  | p :: ps =>
      match i with
      | O => (fst (step p w) :: ps, snd (step p w))
      | S j => (p :: fst (step_at j ps w), snd (step_at j ps w))
      end
  end.

Fixpoint run_pool {A : Type} (schedule : list nat) (pool : list (prog A)) (w : world)
  : list (prog A) * world :=
  match schedule with
  | [] => (pool, w)
  | i :: rest => run_pool rest (fst (step_at i pool w)) (snd (step_at i pool w))
  end.

Definition finished {A : Type} (p : prog A) : option (outcome A) :=
  match p with
  | Ret a => Some (Returned a)
  | Throw e => Some (Thrown e)
  | Unmodelled => Some Unknown
  | _ => None
  end.

(** ** The application (src/app.js) *)

Definition PORT : N := 3002.

Record response : Type := mkResponse {
  status : N;
  headers : list (string * text);
  body : text
}.

Record request : Type := mkRequest {
  method : string;
  url : text;
  payload : text
}.

(** [res.writeHead(code, ...)] with the JSON content type, then
    [res.end(JSON.stringify(v))] *)
Definition json_response (code : N) (v : value) : prog response :=
  text <- stringify v 0 ;;
  Ret (mkResponse code [("Content-Type"%string, lit "application/json")] text).

(** [serveFile], app.js lines 25-35.  [res] is the response it writes. *)
Definition serveFile (filePath : path) (contentType : string) : prog response :=
  try
    (data <- readFile filePath ;;
     Ret (mkResponse 200 [("Content-Type"%string, lit contentType)] data))
  catch (fun error =>
    Print (ErrorReadingFile filePath error)
      (Ret (mkResponse 500 [("Content-Type"%string, lit "text/plain")]
              (lit "500 Internal Server Error")))).

(** [loadLinks], app.js lines 42-61. *)
Definition loadLinks : prog value :=
  try
    (data <- readFile DATA_FILE ;;
     if is_empty data then Ret (VObj [])
     else parse data)
  catch (fun error =>
    if has_code error "ENOENT" then
      (empty <- stringify (VObj []) 0 ;;
       writeFile DATA_FILE empty ;;
       Ret (VObj []))
    else Throw error).

(** [saveLinks], app.js lines 67-70. *)
Definition saveLinks (links : value) : prog unit :=
  text <- stringify links 2 ;;
  writeFile DATA_FILE text.

(** [crypto.randomBytes(n)]: the bytes come from the generator, given here
    as the sequence [rng] it is about to deliver. *)
Definition randomBytes (rng : nat -> byte) (n : nat) : list byte :=
  map rng (seq 0 n).

(** [buffer.toString("hex")] *)
Definition toString_hex (buffer : list byte) : text :=
  flat_map (fun b => [hex_digit (Byte.to_N b / 16); hex_digit (Byte.to_N b mod 16)])
    buffer.

(** The destructuring of the parsed body into [url] and [shortCode]:
    [null] throws; a boolean, a number, a string or an array has neither
    member. *)
Definition destructure (parsed : value) : prog (jsval * jsval) :=
  match parsed with
  | VNull => Throw TypeError
  | VObj o => Ret (get_property o (lit "url"), get_property o (lit "shortCode"))
  | VBool _ | VNum _ | VStr _ | VArr _ => Ret (Undefined, Undefined)
  end.

(** ToPropertyKey, for the values a request can carry as its short code.
    An object is converted by the [toString] it has: the one inherited
    from [Object.prototype] gives [[object Object]]; an own member
    [toString], which in a parsed object is never a function, leaves
    [valueOf], own or inherited, which gives no primitive either, and the
    conversion throws a [TypeError]. *)
Definition ToPropertyKey (x : jsval) : prog text :=
  match x with
  | Undefined => Ret (lit "undefined")
  | Json VNull => Ret (lit "null")
  | Json (VBool true) => Ret (lit "true")
  | Json (VBool false) => Ret (lit "false")
  | Json (VStr s) => Ret s
  | Json (VObj o) =>
      if has_own o (lit "toString") then Throw TypeError
      else Ret (lit "[object Object]")
  | Json (VNum _) | Json (VArr _) | Inherited _ => Unmodelled
  end.

(** [links[key]] *)
Definition js_get (links : value) (key : text) : prog jsval :=
  match links with
  | VNull => Throw TypeError
  | VObj o => Ret (get_property o key)
  | VBool _ | VNum _ | VStr _ | VArr _ => Unmodelled
  end.

(** [links[key] = x].  An own property is updated; otherwise the name
    [__proto__] reaches the setter inherited from [Object.prototype], which
    ignores strings and booleans and creates no property; any other name
    becomes a new own property. *)
Definition js_set (links : value) (key : text) (x : jsval) : prog value :=
  match links, x with
  | VNull, _ => Throw TypeError
  | VObj o, Json v =>
      if has_own o key then Ret (VObj (update_property o key v))
      else if text_eqb key (lit "__proto__") then
        match v with
        | VStr _ | VBool _ => Ret (VObj o)
        | VNull | VNum _ | VArr _ | VObj _ => Unmodelled
        end
      else Ret (VObj (add_property o key v))
  | _, _ => Unmodelled
  end.

Definition value_of (x : jsval) : prog value :=
  match x with
  | Json v => Ret v
  | Undefined | Inherited _ => Unmodelled
  end.

(** The [end] listener of [POST /shorten], app.js lines 82-114, with the
    whole request body. *)
Definition shorten (rng : nat -> byte) (body : text) : prog response :=
  try
    (links <- loadLinks ;;
     parsed <- parse body ;;
     '(url, shortCode) <- destructure parsed ;;
     has_url <- known (ToBoolean url) ;;
     if negb has_url then
       json_response 400
         (VObj [(lit "success", VBool false);
                (lit "message", VStr (lit "URL is required."))])
     else
       custom <- known (ToBoolean shortCode) ;;
       let finalShortCode :=
         if custom then shortCode
         else Json (VStr (toString_hex (randomBytes rng 4))) in
       key <- ToPropertyKey finalShortCode ;;
       existing <- js_get links key ;;
       taken <- known (ToBoolean existing) ;;
       if taken then
         json_response 400
           (VObj [(lit "success", VBool false);
                  (lit "message",
                   VStr (lit "Short code already exists. Please choose another."))])
       else
         links' <- js_set links key url ;;
         saveLinks links' ;;
         code <- value_of finalShortCode ;;
         json_response 201
           (VObj [(lit "success", VBool true); (lit "shortCode", code)]))
  catch (fun error =>
    Print (ErrorProcessingPost error)
      (json_response 500
         (VObj [(lit "success", VBool false);
                (lit "message", VStr (lit "Server error."))]))).

(** A header value may hold a tab and the characters 0x20-0x7e and
    0x80-0xff; [res.writeHead] throws on any other.  A value that is not a
    string is first converted to one, which the model leaves out. *)
Definition valid_header_char (c : N) : bool :=
  (c =? 9) || ((32 <=? c) && (c <=? 126)) || ((128 <=? c) && (c <=? 255)).

Definition header_value (x : jsval) : prog text :=
  match x with
  | Json (VStr s) =>
      if forallb valid_header_char s then Ret s else Throw ERR_INVALID_CHAR
  | _ => Unmodelled
  end.

(** The [default] case of the [GET] switch, app.js lines 131-146: [Some]
    response when the handler answered, [None] when control leaves the
    switch. *)
Definition redirect (url : text) : prog (option response) :=
  try
    (links <- loadLinks ;;
     let shortCode := tl url in
     targetUrl <- js_get links shortCode ;;
     found <- known (ToBoolean targetUrl) ;;
     if found then
       Print (LogRedirecting shortCode targetUrl)
         (location <- header_value targetUrl ;;
          Ret (Some (mkResponse 301 [("Location"%string, location)] [])))
     else Ret None)
  catch (fun error =>
    Print (ErrorDuringRedirection error) (Ret None)).

Definition not_found : response :=
  mkResponse 404 [("Content-Type"%string, lit "text/plain")] (lit "404 Not Found").

(** The request listener given to [createServer], app.js lines 75-153.
    What is left unanswered by the two [if] blocks gets the 404 at the
    end. *)
Definition server (rng : nat -> byte) (req : request) : prog response :=
  Print (LogRequest (method req) (url req))
    (if String.eqb (method req) "POST" && text_eqb (url req) (lit "/shorten")
     then shorten rng (payload req)
     else
       answered <-
         (if String.eqb (method req) "GET" then
            if text_eqb (url req) (lit "/") then
              r <- serveFile (PUBLIC "index.html") "text/html" ;; Ret (Some r)
            else if text_eqb (url req) (lit "/style.css") then
              r <- serveFile (PUBLIC "style.css") "text/css" ;; Ret (Some r)
            else if text_eqb (url req) (lit "/index.js") then
              r <- serveFile (PUBLIC "index.js") "text/javascript" ;; Ret (Some r)
            else if text_eqb (url req) (lit "/links") then
              links <- loadLinks ;;
              text <- stringify links 0 ;;
              Ret (Some (mkResponse 200
                           [("Content-Type"%string, lit "application/json")] text))
            else redirect (url req)
          else Ret None) ;;
       match answered with
       | Some r => Ret r
       | None => Ret not_found
       end).

(** ** Vocabulary of the statements *)

Definition keys (o : props) : list text := map fst o.

Definition mem (k : text) (ks : list text) : bool := existsb (text_eqb k) ks.

Definition is_name (k : text) : bool :=
  match array_index k with None => true | Some _ => false end.

(** The array indices come first, in increasing order; [bound] is the index
    seen last. *)
Fixpoint index_order (bound : N) (ks : list text) : bool :=
  match ks with
  | [] => true
  | k :: ks' =>
      match array_index k with
      | Some n => (bound <=? n) && index_order n ks'
      | None => forallb is_name ks'
      end
  end.

Fixpoint distinct (ks : list text) : bool :=
  match ks with
  | [] => true
  | k :: ks' => negb (mem k ks') && distinct ks'
  end.

(** The property lists that objects have: no name twice, and the names in
    enumeration order. *)
Definition canonical (o : props) : bool :=
  index_order 0 (keys o) && distinct (keys o).

(** A link table as the specification has it: every destination is a
    string. *)
Definition string_valued (o : props) : bool :=
  forallb (fun p => match snd p with VStr _ => true | _ => false end) o.

(** The text [saveLinks] writes for a link table: one line per link,
    indented by two spaces. *)
Definition member_line (p : text * value) : text :=
  member_text 2 (fst p) (match snd p with VStr s => quote s | _ => [] end).

Definition table_text (o : props) : text :=
  wrap 123 125 2 0 (map member_line o).

(** The record once [loadLinks] has found that there is none. *)
Definition create_record (w : world) : outcome value * world :=
  match write_fault w with
  | Some c => (Thrown (SystemError c), w)
  | None => (Returned (VObj []), set_links_json w (File (lit "{}")))
  end.

(** What [loadLinks] does, read off the state of the record. *)
Definition load (w : world) : outcome value * world :=
  match links_json w with
  | Missing => create_record w
  | Faulty c =>
      if String.eqb c "ENOENT" then create_record w
      else (Thrown (SystemError c), w)
  | File [] => (Returned (VObj []), w)
  | File data =>
      match JSON_parse data with
      | Some v => (Returned v, w)
      | None => (Thrown SyntaxError, w)
      end
  end.

(** The link table a request finds, when the record loads as one. *)
Definition table (w : world) : option props :=
  match fst (exec loadLinks w) with
  | Returned (VObj o) => Some o
  | _ => None
  end.

(** The answers of [POST /shorten]. *)
Definition json_headers : list (string * text) :=
  [("Content-Type"%string, lit "application/json")].

Definition created (code : text) : response :=
  mkResponse 201 json_headers
    (jlit "{'success':true,'shortCode':" ++ quote code ++ lit "}").

Definition url_required : response :=
  mkResponse 400 json_headers (jlit "{'success':false,'message':'URL is required.'}").

Definition code_exists : response :=
  mkResponse 400 json_headers
    (jlit "{'success':false,'message':'Short code already exists. Please choose another.'}").

Definition server_error : response :=
  mkResponse 500 json_headers (jlit "{'success':false,'message':'Server error.'}").

Definition moved (destination : text) : response :=
  mkResponse 301 [("Location"%string, destination)] [].

(** [x] counts as true in a condition. *)
Definition truthy (x : jsval) : bool :=
  match ToBoolean x with Some true => true | _ => false end.

(** The code [shorten] settles on for a request body whose [shortCode] is a
    string or is missing: the string if it is not empty, eight hexadecimal
    digits from the generator otherwise. *)
Definition settles (rng : nat -> byte) (b : props) (code : text) : Prop :=
  (own_property b (lit "shortCode") = Some (VStr code) /\ code <> [])
  \/ ((own_property b (lit "shortCode") = None
       \/ own_property b (lit "shortCode") = Some (VStr []))
      /\ code = toString_hex (randomBytes rng 4)).

Definition POST_shorten (body : text) : request :=
  mkRequest "POST" (lit "/shorten") body.

Definition GET (url : text) : request := mkRequest "GET" url [].

(** The line [server] prints when the request comes in. *)
Definition request_line (req : request) : log := LogRequest (method req) (url req).

(** [body] is a create request for destination [u] with the requested code
    [c], or with none: it parses to an object whose [url] is the string [u]
    and whose [shortCode] is the string [c], or is not there. *)
Definition create_request (body u : text) (c : option text) : Prop :=
  exists b,
    JSON_parse body = Some (VObj b)
    /\ own_property b (lit "url") = Some (VStr u)
    /\ own_property b (lit "shortCode") = option_map VStr c.

(** The store is healthy and holds the link table [o]: the record loads as
    [o], its destinations are strings, and it can be rewritten. *)
Definition holds (w : world) (o : props) : Prop :=
  table w = Some o /\ string_valued o = true /\ write_fault w = None.

(** The paths [server] answers itself, before it looks for a short code. *)
Definition reserved_path (url : text) : bool :=
  text_eqb url (lit "/") || text_eqb url (lit "/style.css")
  || text_eqb url (lit "/index.js") || text_eqb url (lit "/links").

(** Example states: a store with the given record and nothing else. *)
Definition store (record : node) : world :=
  mkWorld record (fun _ => Missing) None [].

Definition example_rng (n : nat) : byte :=
  match n with
  | O => x00
  | 1%nat => xab
  | 2%nat => x0f
  | _ => xff
  end.

Definition is_hex_digit (c : N) : bool :=
  is_digit c || ((97 <=? c) && (c <=? 102)).

(** Requests served one after another, each to its end before the next
    begins.  Every request is handed the same bytes [rng]: the function
    is for requests that name their codes, which never draw from the
    generator ([serve_in_turn] gives each request its own). *)
Fixpoint serve_all (rng : nat -> byte) (reqs : list request) (w : world)
  : list (outcome response) * world :=
  match reqs with
  | [] => ([], w)
  | req :: rest =>
      (fst (exec (server rng req) w)
         :: fst (serve_all rng rest (snd (exec (server rng req) w))),
       snd (serve_all rng rest (snd (exec (server rng req) w))))
  end.

(** The number of requests of a pool that have ended with status 201. *)
Definition successes (pool : list (prog response)) : nat :=
  List.length
    (filter (fun p => match p with Ret r => status r =? 201 | _ => false end) pool).

Definition conflicts (pool : list (prog response)) : nat :=
  List.length
    (filter (fun p => match p with Ret r => status r =? 400 | _ => false end) pool).

Definition all_answered (pool : list (prog response)) : bool :=
  forallb (fun p => match p with Ret _ => true | _ => false end) pool.

(** The claim of the specification about concurrent creates: however the
    operations of K create requests for one free code interleave, once all
    are answered exactly one has succeeded and the others have been refused. *)
Definition creates_serialized : Prop :=
  forall (rng : nat -> byte) (w : world) (o : props) (code : text)
         (bodies : list text) (schedule : list nat),
    holds w o ->
    truthy (get_property o code) = false -> code <> [] ->
    Forall (fun body => exists u, create_request body u (Some code) /\ u <> []) bodies ->
    bodies <> [] ->
    let pool :=
      fst (run_pool schedule (map (fun body => server rng (POST_shorten body)) bodies) w) in
    all_answered pool = true ->
    successes pool = 1%nat /\ conflicts pool = (List.length bodies - 1)%nat.

(** The claim of the specification about errors, for the Resolve intent: a
    failure of the store is not answered as if the code were unknown. *)
Definition store_failures_surfaced : Prop :=
  forall (rng : nat -> byte) (w w1 : world) (e : error) (addr : text),
    exec loadLinks w = (Thrown e, w1) ->
    reserved_path addr = false ->
    fst (exec (server rng (GET addr)) w) <> Returned not_found.

(** How many entries a table has for [code]. *)
Definition entries (o : props) (code : text) : nat :=
  List.length (filter (text_eqb code) (keys o)).









(** A parse that has succeeded with some fuel has consumed at least one
    character, and succeeds with the same result whenever the fuel is at
    least the number of characters consumed. *)
Definition fuel_independent (p : nat -> text -> option (value * text)) (n : nat) : Prop :=
  forall t v rest,
    p n t = Some (v, rest) ->
    (List.length rest < List.length t)%nat
    /\ forall m, (List.length t - List.length rest <= m)%nat -> p m t = Some (v, rest).

(** ** The page (src/public/index.js) *)

(** The children of [#shortened-urls]: an item whose [innerHTML] was
    assigned, kept as the markup that was assigned, or an item holding one
    link. *)
Inductive element : Type :=
| Li_innerHTML (markup : text)
| Li_link (href textContent target : text).

(** The async functions of the page that are called without [await]. *)
Inductive task : Type :=
| FetchShortenedUrl.

(** The page and what is behind it: the text and the classes of
    [#message-area], the children of [#shortened-urls], how often the form
    has been reset, what was printed with [console.error], the calls
    without [await] that have not run yet, whether a [fetch] reaches the
    server, and the state of the server. *)
Record browser : Type := mkBrowser {
  message_text : text;
  message_classes : list text;
  shortened_urls : list element;
  form_resets : nat;
  fetch_errors : list error;
  pending : list task;
  online : bool;
  site : world
}.

Definition set_message_text (t : text) (s : browser) : browser :=
  mkBrowser t (message_classes s) (shortened_urls s) (form_resets s)
    (fetch_errors s) (pending s) (online s) (site s).

Definition set_message_classes (cs : list text) (s : browser) : browser :=
  mkBrowser (message_text s) cs (shortened_urls s) (form_resets s)
    (fetch_errors s) (pending s) (online s) (site s).

Definition set_shortened_urls (items : list element) (s : browser) : browser :=
  mkBrowser (message_text s) (message_classes s) items (form_resets s)
    (fetch_errors s) (pending s) (online s) (site s).

Definition set_form_resets (n : nat) (s : browser) : browser :=
  mkBrowser (message_text s) (message_classes s) (shortened_urls s) n
    (fetch_errors s) (pending s) (online s) (site s).

Definition set_fetch_errors (es : list error) (s : browser) : browser :=
  mkBrowser (message_text s) (message_classes s) (shortened_urls s) (form_resets s)
    es (pending s) (online s) (site s).

Definition set_pending (ts : list task) (s : browser) : browser :=
  mkBrowser (message_text s) (message_classes s) (shortened_urls s) (form_resets s)
    (fetch_errors s) ts (online s) (site s).

Definition set_site (w : world) (s : browser) : browser :=
  mkBrowser (message_text s) (message_classes s) (shortened_urls s) (form_resets s)
    (fetch_errors s) (pending s) (online s) w.

(** The code of the page changes the page as it goes, and returns or
    throws. *)
Definition script (A : Type) : Type := browser -> outcome A * browser.

Definition unit_script {A : Type} (a : A) : script A := fun s => (Returned a, s).

Definition bind_script {A B : Type} (p : script A) (f : A -> script B) : script B :=
  fun s =>
    match p s with
    | (Returned a, s') => f a s'
    | (Thrown e, s') => (Thrown e, s')
    | (Unknown, s') => (Unknown, s')
    end.

Definition try_script {A : Type} (p : script A) (handler : error -> script A)
  : script A :=
  fun s =>
    match p s with
    | (Thrown e, s') => handler e s'
    | r => r
    end.

Declare Scope script_scope.
Delimit Scope script_scope with script.

Notation "x <- p ;; q" := (bind_script p (fun x => q))
  (at level 61, p at next level, right associativity) : script_scope.
Notation "p ;; q" := (bind_script p (fun _ => q))
  (at level 61, right associativity) : script_scope.
Notation "'try' p 'catch' h" := (try_script p h)
  (at level 62, p at level 61, h at level 9) : script_scope.

Local Open Scope script_scope.

(** An expression that touches neither the page nor the network. *)
Definition evaluate {A : Type} (p : prog A) : script A :=
  fun s =>
    match p with
    | Ret a => (Returned a, s)
    | Throw e => (Thrown e, s)
    | _ => (Unknown, s)
    end.

Definition dom (change : browser -> browser) : script unit :=
  fun s => (Returned tt, change s).

(** [element.classList.add(c)] *)
Definition classList_add (c : text) (s : browser) : browser :=
  if mem c (message_classes s) then s
  else set_message_classes (message_classes s ++ [c]) s.

Definition appendChild (li : element) (s : browser) : browser :=
  set_shortened_urls (shortened_urls s ++ [li]) s.

Definition prepend (li : element) (s : browser) : browser :=
  set_shortened_urls (li :: shortened_urls s) s.

(** [event.target.reset()] *)
Definition reset (s : browser) : browser := set_form_resets (S (form_resets s)) s.

(** [console.error("Fetch error:", error)] *)
Definition console_error (e : error) (s : browser) : browser :=
  set_fetch_errors (fetch_errors s ++ [e]) s.

(** The call of an async function without [await]: the function starts,
    and what it does to the page it does once the code that called it has
    run to its end. *)
Definition spawn (t : task) : script unit :=
  dom (fun s => set_pending (pending s ++ [t]) s).

(** [await fetch(...)], the page being served by [server].  The promise is
    rejected with a [TypeError] when the server cannot be reached, and is
    fulfilled with the response whatever its status.  A request whose
    listener throws gets no response; what the page does then is left
    out.  The request body arrives as it was sent. *)
Definition fetch (rng : nat -> byte) (req : request) : script response :=
  fun s =>
    if online s then
      match exec (server rng req) (site s) with
      | (Returned r, w') => (Returned r, set_site w' s)
      | (Thrown _, w') | (Unknown, w') => (Unknown, set_site w' s)
      end
    else (Thrown TypeError, s).

(** [response.ok] *)
Definition ok (r : response) : bool := (200 <=? status r) && (status r <=? 299).

(** [await response.json()] *)
Definition json (r : response) : script value := evaluate (parse (body r)).

(** The text a value takes in a template literal. *)
Definition ToString (x : jsval) : script text := evaluate (ToPropertyKey x).

(** [Object.entries(links)]: the own properties in enumeration order. *)
Definition Object_entries (links : value) : script props :=
  match links with
  | VObj o => unit_script o
  | VNull => evaluate (Throw TypeError)
  | VBool _ | VNum _ | VStr _ | VArr _ => evaluate Unmodelled
  end.

(** The template of [fetchShortenedUrl], index.js lines 13-16.  The markup
    is written with apostrophes in place of the double quotes. *)
Definition link_markup (origin shortCode url : text) : text :=
  [10] ++ repeat 32 12%nat ++ jlit "<a href='/" ++ shortCode
    ++ jlit "' target='_blank' >" ++ origin ++ lit "/" ++ shortCode ++ lit "</a>"
    ++ [10] ++ repeat 32 12%nat ++ lit "- " ++ url
    ++ [10] ++ repeat 32 8%nat.

(** The loop of [fetchShortenedUrl], index.js lines 11-18. *)
Fixpoint append_links (origin : text) (entries : props) : script unit :=
  match entries with
  | [] => unit_script tt
  | (shortCode, url) :: rest =>
      shown <- ToString (Json url) ;;
      dom (appendChild (Li_innerHTML (link_markup origin shortCode shown))) ;;
      append_links origin rest
  end.

(** [fetchShortenedUrl], index.js lines 6-20.  [origin] is
    [window.location.origin]. *)
Definition fetchShortenedUrl (rng : nat -> byte) (origin : text) : script unit :=
  response <- fetch rng (GET (lit "/links")) ;;
  links <- json response ;;
  dom (set_shortened_urls []) ;;
  entries <- Object_entries links ;;
  append_links origin entries.

(** What [formData.get] gives for a field: its text, or [null] when the
    form has no such field. *)
Definition field (x : option text) : value :=
  match x with
  | Some s => VStr s
  | None => VNull
  end.

(** The object literal [{ url, shortCode }] of the request. *)
Definition form_body (url shortCode : option text) : value :=
  VObj [(lit "url", field url); (lit "shortCode", field shortCode)].

(** The [submit] listener of the form, index.js lines 22-76, with the two
    fields of the form. *)
Definition on_submit (rng : nat -> byte) (origin : text)
    (url shortCode : option text) : script unit :=
  dom (set_message_text []) ;;
  dom (set_message_classes []) ;;
  (try
    (sent <- evaluate (stringify (form_body url shortCode) 0) ;;
     response <- fetch rng (mkRequest "POST" (lit "/shorten") sent) ;;
     result <- json response ;;
     success <-
       (if ok response then
          flag <- evaluate (js_get result (lit "success")) ;;
          evaluate (known (ToBoolean flag))
        else unit_script false) ;;
     if success then
       spawn FetchShortenedUrl ;;
       dom (set_message_text (lit "URL successfully shortened!")) ;;
       dom (classList_add (lit "success")) ;;
       code <- evaluate (js_get result (lit "shortCode")) ;;
       shown <- ToString code ;;
       let newShortUrl := origin ++ lit "/" ++ shown in
       dom (prepend (Li_link newShortUrl newShortUrl (lit "_blank"))) ;;
       dom reset
     else
       message <- evaluate (js_get result (lit "message")) ;;
       given <- evaluate (known (ToBoolean message)) ;;
       shown <- ToString (if given then message
                          else Json (VStr (lit "An unknown error occurred."))) ;;
       dom (set_message_text (lit "Error: " ++ shown)) ;;
       dom (classList_add (lit "error")))
  catch (fun error =>
    dom (console_error error) ;;
    dom (set_message_text (lit "Error: Could not connect to the server.")) ;;
    dom (classList_add (lit "error")))).

Definition run_task (rng : nat -> byte) (origin : text) (t : task) : script unit :=
  match t with
  | FetchShortenedUrl => fetchShortenedUrl rng origin
  end.

(** The calls without [await] run to their end one after another; what
    one of them throws is an unhandled rejection, which leaves the page as
    it is at that point. *)
Fixpoint settle (rng : nat -> byte) (origin : text) (tasks : list task) (s : browser)
  : option browser :=
  match tasks with
  | [] => Some s
  | t :: rest =>
      match run_task rng origin t s with
      | (Returned _, s') | (Thrown _, s') => settle rng origin rest s'
      | (Unknown, _) => None
      end
  end.

(** The form is submitted, and everything the submission has started has
    come to its end: [None] where the model does not follow the page. *)
Definition submit (rng : nat -> byte) (origin : text)
    (url shortCode : option text) (s : browser) : option browser :=
  match on_submit rng origin url shortCode s with
  | (Returned _, s') | (Thrown _, s') =>
      settle rng origin (pending s') (set_pending [] s')
  | (Unknown, _) => None
  end.

Local Close Scope script_scope.

(** The item [fetchShortenedUrl] makes of an entry of the table. *)
Definition entry_item (origin : text) (entry : text * value) : element :=
  Li_innerHTML
    (link_markup origin (fst entry)
       (match snd entry with VStr s => s | _ => [] end)).

(** The messages of the server, as the page shows them. *)
Definition refusals : list (response * text) :=
  [(url_required, lit "URL is required.");
   (code_exists, lit "Short code already exists. Please choose another.");
   (server_error, lit "Server error.")].

(** ** Vocabulary of the further properties *)

(** A value as [JSON.parse] builds it: every object in it, at any depth, has
    its properties in enumeration order, each name once. *)
Fixpoint well_formed (v : value) : bool :=
  match v with
  | VArr items => forallb well_formed items
  | VObj members =>
      canonical members && forallb (fun p => well_formed (snd p)) members
  | VNull | VBool _ | VNum _ | VStr _ => true
  end.

(** The white space [JSON.stringify] puts before a member or element, and
    before the closing bracket. *)
Definition pad (gap k : nat) : text :=
  match gap with
  | O => []
  | S _ => newline_indent k
  end.


(** [v] is read back by the parser, with enough fuel, from whatever text
    [serialize] writes for it. *)
Definition reads_back (v : value) : Prop :=
  forall gap indent t,
    serialize gap indent v = Some t ->
    forall rest fuel,
      (List.length t <= fuel)%nat ->
      parse_value fuel (t ++ rest) = Some (v, rest).

(** The files [server] sends as they are: the path of the request, the
    name under [public/], the content type. *)
Definition static_routes : list (text * (string * string)) :=
  [(lit "/", ("index.html", "text/html"));
   (lit "/style.css", ("style.css", "text/css"));
   (lit "/index.js", ("index.js", "text/javascript"))]%string.

(** The answer of [serveFile] when the file cannot be read. *)
Definition internal_error : response :=
  mkResponse 500 [("Content-Type"%string, lit "text/plain")]
    (lit "500 Internal Server Error").

(** The code [shorten] uses for a request that carries the short code [c],
    or none. *)
Definition final_code (rng : nat -> byte) (c : option text) : text :=
  match c with
  | Some (x :: r) => x :: r
  | Some [] | None => toString_hex (randomBytes rng 4)
  end.

(** The JSON values that are neither [null] nor an object: destructuring
    them finds no [url] and no [shortCode]. *)
Definition without_members (v : value) : bool :=
  match v with
  | VBool _ | VNum _ | VStr _ | VArr _ => true
  | VNull | VObj _ => false
  end.

(** [p] leaves a record that is there as it is, whatever it holds. *)
Definition leaves_record {A : Type} (p : prog A) : Prop :=
  forall w data,
    links_json w = File data -> links_json (snd (exec p w)) = File data.

(** The paths answered with a file of [public/]. *)
Definition static_path (url : text) : bool :=
  existsb (fun route => text_eqb url (fst route)) static_routes.

(** [writes_only Q R p]: whatever the files hold when [p] reads them and
    whatever the opening of a file gives, every text [p] writes satisfies
    [Q] and every value it returns satisfies [R]. *)
Inductive writes_only {A : Type} (Q : text -> Prop) (R : A -> Prop) : prog A -> Prop :=
| writes_Ret (a : A) : R a -> writes_only Q R (Ret a)
| writes_Throw (e : error) : writes_only Q R (Throw e)
| writes_Unmodelled : writes_only Q R Unmodelled
| writes_Print (l : log) (k : prog A) :
    writes_only Q R k -> writes_only Q R (Print l k)
| writes_ReadFile (q : path) (k : error + text -> prog A) :
    (forall r, writes_only Q R (k r)) -> writes_only Q R (ReadFile q k)
| writes_OpenTrunc (q : path) (k : option error -> prog A) :
    (forall r, writes_only Q R (k r)) -> writes_only Q R (OpenTrunc q k)
| writes_WriteAll (q : path) (data : text) (k : prog A) :
    Q data -> writes_only Q R k -> writes_only Q R (WriteAll q data k).

(** A record [loadLinks] makes a table of: none yet, one of length zero, or
    the JSON text of an object. *)
Definition sound_record (n : node) : bool :=
  match n with
  | Missing => true
  | Faulty c => String.eqb c "ENOENT"
  | File [] => true
  | File data =>
      match JSON_parse data with
      | Some (VObj _) => true
      | _ => false
      end
  end.

Definition sound_text (data : text) : Prop := sound_record (File data) = true.

Definition anything {A : Type} (a : A) : Prop := True.

Definition jsval_well_formed (x : jsval) : bool :=
  match x with
  | Json v => well_formed v
  | Undefined | Inherited _ => true
  end.

(** A create request that has read the record and found its code free:
    what is left of [shorten] is the write of the new table [t] and the
    answer, inside the [try] of the handler. *)
Definition writing (t code : text) : prog response :=
  try (writeFile DATA_FILE t ;; Ret (created code))
  catch (fun error => Print (ErrorProcessingPost error) (Ret server_error)).

(** Two requests in flight: each prints its line and reads the record;
    then the first opens the record and writes it; then the second opens
    the record and writes it. *)
Definition both_read_first : list nat := [0; 0; 1; 1; 0; 0; 1; 1]%nat.

(** A create request with the code it asks for and its destination. *)
Record creation : Type := mkCreation {
  creation_body : text;
  creation_code : text;
  creation_url : text
}.

(** The table after the links of the creations have been set, in order. *)
Definition add_links (o : props) (cs : list creation) : props :=
  fold_left (fun o' c => define_property o' (creation_code c) (VStr (creation_url c))) cs o.

(** [c] is a create request that the table [o] accepts. *)
Definition acceptable (o : props) (c : creation) : Prop :=
  create_request (creation_body c) (creation_url c) (Some (creation_code c))
  /\ creation_url c <> [] /\ creation_code c <> []
  /\ truthy (get_property o (creation_code c)) = false.

(** What [POST /shorten] answers: JSON under its content type, an object
    whose [success] tells whether the status is 201; with status 201 the
    object carries the [shortCode], with status 400 or 500 a [message]
    that is not empty. *)
Definition shorten_answer (r : response) : Prop :=
  headers r = json_headers
  /\ exists b,
       JSON_parse (body r) = Some (VObj b)
       /\ ((status r = 201
            /\ own_property b (lit "success") = Some (VBool true)
            /\ has_own b (lit "shortCode") = true)
           \/ ((status r = 400 \/ status r = 500)
               /\ own_property b (lit "success") = Some (VBool false)
               /\ exists m, own_property b (lit "message") = Some (VStr m) /\ m <> [])).

(** The table holds the link from [code] to [u]. *)
Definition stored (code u : text) (w : world) : Prop :=
  exists o, table w = Some o /\ own_property o code = Some (VStr u).

(** Two requests in flight: each prints its line and reads the record,
    then each opens the record, then each writes, the second after the
    first. *)
Definition both_open_before_write : list nat := [0; 0; 1; 1; 0; 1; 0; 1]%nat.

(** The record fails to load, or loads as a table whose destinations are
    strings. *)
Definition table_or_failure (w : world) : Prop :=
  match fst (exec loadLinks w) with
  | Returned (VObj o) => string_valued o = true
  | Thrown _ => True
  | Returned _ | Unknown => False
  end.

(** No number anywhere in the value. *)
Fixpoint number_free (v : value) : bool :=
  match v with
  | VNum _ => false
  | VArr items => forallb number_free items
  | VObj members => forallb (fun p => number_free (snd p)) members
  | VNull | VBool _ | VStr _ => true
  end.

Definition jsval_number_free (x : jsval) : bool :=
  match x with
  | Json v => number_free v
  | Undefined | Inherited _ => true
  end.

(** The bodies of [POST /shorten] the model follows to the answer: those
    that do not parse, and those that parse to a value without numbers
    whose [shortCode], if it is an object, is not an array. *)
Definition followed_body (body : text) : bool :=
  match JSON_parse body with
  | None => true
  | Some parsed =>
      number_free parsed
      && match parsed with
         | VObj b =>
             match own_property b (lit "shortCode") with
             | Some (VArr _) => false
             | _ => true
             end
         | _ => true
         end
  end.

(** The records with which the model follows [POST /shorten] to the
    answer: those that fail to load, and those that load as [null] or as
    an object without numbers. *)
Definition followed_record (w : world) : bool :=
  match fst (exec loadLinks w) with
  | Returned VNull => true
  | Returned (VObj o) => number_free (VObj o)
  | Thrown _ => true
  | Returned _ | Unknown => false
  end.

(** Requests served one after another, each to its end before the next
    begins, each with the bytes the generator delivers to it. *)
Fixpoint serve_in_turn (requests : list ((nat -> byte) * request)) (w : world)
  : list (outcome response) * world :=
  match requests with
  | [] => ([], w)
  | x :: rest =>
      (fst (exec (server (fst x) (snd x)) w)
         :: fst (serve_in_turn rest (snd (exec (server (fst x) (snd x)) w))),
       snd (serve_in_turn rest (snd (exec (server (fst x) (snd x)) w))))
  end.

(** * Properties *)

(** ** Text *)

Lemma text_eqb_refl (a : text) : text_eqb a a = true.
Proof.
  induction a as [|x a IH]; simpl; [reflexivity|].
  now rewrite N.eqb_refl, IH.
Qed.

Lemma text_eqb_eq (a b : text) : text_eqb a b = true <-> a = b.
Proof.
  split.
  - revert b; induction a as [|x a IH]; intros [|y b]; simpl; try discriminate; auto.
    intros H. apply andb_true_iff in H as [Hx Hr].
    apply N.eqb_eq in Hx. f_equal; auto.
  - intros ->. apply text_eqb_refl.
Qed.

Lemma text_eqb_neq (a b : text) : text_eqb a b = false <-> a <> b.
Proof.
  rewrite <- text_eqb_eq. destruct (text_eqb a b); split; congruence.
Qed.

Lemma text_eqb_sym (a b : text) : text_eqb a b = text_eqb b a.
Proof.
  destruct (text_eqb a b) eqn:E.
  - apply text_eqb_eq in E. subst. symmetry. apply text_eqb_refl.
  - symmetry. apply text_eqb_neq. apply text_eqb_neq in E. congruence.
Qed.

(** ** Strings survive [quote] followed by [parse_chars] *)

Lemma hex_val_digit (d : N) : d < 16 -> hex_val (hex_digit d) = Some d.
Proof.
  intros H. unfold hex_digit, hex_val, is_digit.
  destruct (N.ltb_spec d 10).
  - replace (48 <=? 48 + d) with true by (symmetry; apply N.leb_le; lia).
    replace (48 + d <=? 57) with true by (symmetry; apply N.leb_le; lia).
    cbn [andb]. f_equal. lia.
  - replace (87 + d <=? 57) with false by (symmetry; apply N.leb_gt; lia).
    rewrite andb_false_r.
    replace (97 <=? 87 + d) with true by (symmetry; apply N.leb_le; lia).
    replace (87 + d <=? 102) with true by (symmetry; apply N.leb_le; lia).
    cbn [andb]. f_equal. lia.
Qed.

Lemma hex4_escape (c : N) :
  c < 65536 ->
  hex4 (hex_digit (c / 4096 mod 16)) (hex_digit (c / 256 mod 16))
       (hex_digit (c / 16 mod 16)) (hex_digit (c mod 16)) = Some c.
Proof.
  intros H. unfold hex4.
  rewrite !hex_val_digit by (apply N.mod_lt; discriminate).
  f_equal.
  assert (E1 := N.div_mod c 16 ltac:(discriminate)).
  assert (E2 := N.div_mod (c / 16) 16 ltac:(discriminate)).
  assert (E3 := N.div_mod (c / 256) 16 ltac:(discriminate)).
  rewrite N.Div0.div_div in E2.
  rewrite N.Div0.div_div in E3.
  change (16 * 16) with 256 in E2. change (256 * 16) with 4096 in E3.
  assert (H4 : c / 4096 < 16) by (apply N.Div0.div_lt_upper_bound; lia).
  rewrite (N.mod_small (c / 4096)) by assumption.
  lia.
Qed.

Lemma parse_chars_escape (c : N) (rest : text) :
  c < 65536 ->
  parse_chars (unicode_escape c ++ rest) = cons_fst c (parse_chars rest).
Proof.
  intros H. unfold unicode_escape. cbn [app parse_chars].
  change (92 =? 34) with false. change (92 =? 92) with true.
  change (117 =? 117) with true. cbv iota.
  now rewrite hex4_escape.
Qed.

Lemma parse_chars_raw (c : N) (rest : text) :
  32 <= c -> c <> 34 -> c <> 92 ->
  parse_chars (c :: rest) = cons_fst c (parse_chars rest).
Proof.
  intros H1 H2 H3. cbn [parse_chars].
  apply N.eqb_neq in H2, H3. rewrite H2, H3.
  replace (c <? 32) with false by (symmetry; apply N.ltb_ge; assumption).
  reflexivity.
Qed.

Lemma surrogate_bound (c : N) : is_high c || is_low c = true -> 55296 <= c < 65536.
Proof.
  unfold is_high, is_low. intros H.
  apply orb_true_iff in H as [H|H]; apply andb_true_iff in H as [H1 H2];
    apply N.leb_le in H1, H2; lia.
Qed.

Lemma parse_chars_unit (c : N) (rest : text) :
  parse_chars (quote_unit c ++ rest) = cons_fst c (parse_chars rest).
Proof.
  unfold quote_unit.
  destruct (N.eqb_spec c 8) as [->|N8]; [reflexivity|].
  destruct (N.eqb_spec c 9) as [->|N9]; [reflexivity|].
  destruct (N.eqb_spec c 10) as [->|N10]; [reflexivity|].
  destruct (N.eqb_spec c 12) as [->|N12]; [reflexivity|].
  destruct (N.eqb_spec c 13) as [->|N13]; [reflexivity|].
  destruct (N.eqb_spec c 34) as [->|N34]; [reflexivity|].
  destruct (N.eqb_spec c 92) as [->|N92]; [reflexivity|].
  destruct (N.ltb_spec c 32) as [L|L]; cbn [orb].
  - apply parse_chars_escape. lia.
  - destruct (is_high c || is_low c) eqn:S.
    + apply parse_chars_escape. apply surrogate_bound in S. lia.
    + apply parse_chars_raw; assumption.
Qed.

Lemma parse_chars_quote_units_bounded (n : nat) :
  forall (s rest : text), (List.length s <= n)%nat ->
    parse_chars (quote_units s ++ 34 :: rest) = Some (s, rest).
Proof.
  induction n as [|n IH]; intros s rest Hlen.
  - destruct s; [reflexivity | simpl in Hlen; lia].
  - destruct s as [|c r]; [reflexivity|].
    simpl in Hlen. cbn [quote_units].
    destruct (is_high c) eqn:Hc.
    + assert (Bc : 55296 <= c < 65536) by (apply surrogate_bound; now rewrite Hc).
      destruct r as [|d r'].
      * rewrite parse_chars_escape by lia. reflexivity.
      * destruct (is_low d) eqn:Hd.
        -- assert (Bd : 55296 <= d < 65536)
             by (apply surrogate_bound; rewrite Hd; apply orb_true_r).
           cbn [app]. rewrite parse_chars_raw by lia.
           rewrite parse_chars_raw by lia.
           rewrite IH by (simpl in Hlen; lia). reflexivity.
        -- rewrite <- app_assoc, parse_chars_escape by lia.
           rewrite IH by lia. reflexivity.
    + rewrite <- app_assoc, parse_chars_unit.
      rewrite IH by lia. reflexivity.
Qed.

Lemma parse_chars_quote_units (s rest : text) :
  parse_chars (quote_units s ++ 34 :: rest) = Some (s, rest).
Proof. now apply (parse_chars_quote_units_bounded (List.length s)). Qed.

(** ** Property lists *)

Lemma keys_cons (k : text) (v : value) (o : props) : keys ((k, v) :: o) = k :: keys o.
Proof. reflexivity. Qed.

Lemma mem_cons (x k : text) (ks : list text) :
  mem x (k :: ks) = text_eqb x k || mem x ks.
Proof. reflexivity. Qed.

Lemma has_own_mem (o : props) (k : text) : has_own o k = mem k (keys o).
Proof.
  unfold has_own. induction o as [|[k' v] o IH]; [reflexivity|].
  rewrite keys_cons, mem_cons. cbn [own_property].
  rewrite (text_eqb_sym k k').
  destruct (text_eqb k' k); [reflexivity | exact IH].
Qed.

Lemma own_property_mem (o : props) (k : text) :
  own_property o k = None <-> mem k (keys o) = false.
Proof.
  rewrite <- has_own_mem. unfold has_own.
  destruct (own_property o k); split; congruence.
Qed.

Lemma keys_update (o : props) (k : text) (v : value) :
  keys (update_property o k v) = keys o.
Proof.
  induction o as [|[k' v'] o IH]; [reflexivity|].
  cbn [update_property]. destruct (text_eqb k' k); cbn [keys map fst].
  - reflexivity.
  - f_equal. exact IH.
Qed.

Lemma keys_app (a b : props) : keys (a ++ b) = keys a ++ keys b.
Proof. apply map_app. Qed.

Lemma mem_app (k : text) (a b : list text) : mem k (a ++ b) = mem k a || mem k b.
Proof. apply existsb_app. Qed.

Lemma index_order_app_l (a b : list text) :
  forall bound, index_order bound (a ++ b) = true -> index_order bound a = true.
Proof.
  induction a as [|k a IH]; intros bound H; [reflexivity|].
  cbn [app index_order] in *.
  destruct (array_index k) as [n|].
  - apply andb_true_iff in H as [H1 H2]. rewrite H1. cbn [andb]. eauto.
  - rewrite forallb_app in H. now apply andb_true_iff in H as [H _].
Qed.

Lemma distinct_app_l (a b : list text) :
  distinct (a ++ b) = true -> distinct a = true.
Proof.
  induction a as [|k a IH]; intros H; [reflexivity|].
  cbn [app distinct] in *. apply andb_true_iff in H as [H1 H2].
  rewrite mem_app, negb_orb in H1. apply andb_true_iff in H1 as [H1 _].
  rewrite H1. cbn [andb]. auto.
Qed.

Lemma distinct_last (a : list text) (k : text) :
  distinct (a ++ [k]) = true -> mem k a = false.
Proof.
  induction a as [|k' a IH]; intros H; [reflexivity|].
  cbn [app distinct] in H. apply andb_true_iff in H as [H1 H2].
  rewrite mem_app, negb_orb in H1. apply andb_true_iff in H1 as [_ H1].
  rewrite mem_cons, orb_false_r in H1. apply negb_true_iff in H1.
  rewrite mem_cons, text_eqb_sym, H1. cbn [orb]. auto.
Qed.

Lemma canonical_app_l (a b : props) : canonical (a ++ b) = true -> canonical a = true.
Proof.
  unfold canonical. rewrite keys_app. intros H.
  apply andb_true_iff in H as [H1 H2].
  apply index_order_app_l in H1. apply distinct_app_l in H2.
  now rewrite H1, H2.
Qed.

Lemma index_order_last (a : list text) (k : text) (n : N) :
  array_index k = Some n ->
  forall bound, index_order bound (a ++ [k]) = true ->
    bound <= n /\ Forall (fun k' => exists n', array_index k' = Some n' /\ n' <= n) a.
Proof.
  intros Hk. induction a as [|k' a IH]; intros bound H; cbn [app index_order] in H.
  - rewrite Hk in H. apply andb_true_iff in H as [H _].
    apply N.leb_le in H. split; [assumption | constructor].
  - destruct (array_index k') as [n'|] eqn:Hk'.
    + apply andb_true_iff in H as [H1 H2]. apply N.leb_le in H1.
      destruct (IH _ H2) as [B F]. split; [lia|].
      constructor; [exists n'; split; [assumption | lia] | assumption].
    + rewrite forallb_app in H. apply andb_true_iff in H as [_ H].
      cbn [forallb] in H. unfold is_name in H. rewrite Hk in H. discriminate.
Qed.

Lemma insert_index_end (acc : props) (n : N) (k : text) (v : value) :
  Forall (fun k' => exists n', array_index k' = Some n' /\ n' <= n) (keys acc) ->
  insert_index acc n k v = acc ++ [(k, v)].
Proof.
  induction acc as [|[k' v'] acc IH]; intros H; [reflexivity|].
  cbn [keys map fst] in H. inversion H as [|? ? [n' [Hk' Hle]] Hrest]; subst.
  cbn [insert_index app]. rewrite Hk'.
  replace (n <? n') with false by (symmetry; apply N.ltb_ge; assumption).
  f_equal. apply IH. exact Hrest.
Qed.

Lemma define_property_end (acc : props) (k : text) (v : value) :
  canonical (acc ++ [(k, v)]) = true ->
  define_property acc k v = acc ++ [(k, v)].
Proof.
  unfold canonical. rewrite keys_app. cbn [keys map fst]. intros H.
  apply andb_true_iff in H as [Hord Hdis].
  unfold define_property. rewrite has_own_mem, (distinct_last _ _ Hdis).
  unfold add_property. destruct (array_index k) as [n|] eqn:Hk; [|reflexivity].
  apply insert_index_end. now apply (index_order_last _ _ _ Hk 0).
Qed.

(** Creating the properties of an object one by one, in its own enumeration
    order, gives the object back. *)
Lemma fold_define_property (o : props) :
  forall acc, canonical (acc ++ o) = true ->
    fold_left (fun a p => define_property a (fst p) (snd p)) o acc = acc ++ o.
Proof.
  induction o as [|[k v] o IH]; intros acc H; cbn [fold_left fst snd].
  - now rewrite app_nil_r.
  - replace (acc ++ (k, v) :: o) with ((acc ++ [(k, v)]) ++ o) in *
      by (now rewrite <- app_assoc).
    rewrite define_property_end by (eapply canonical_app_l; eassumption).
    now apply IH.
Qed.

Lemma mem_insert_index (o : props) (n : N) (k : text) (v : value) (x : text) :
  mem x (keys (insert_index o n k v)) = text_eqb x k || mem x (keys o).
Proof.
  induction o as [|[k' v'] o IH]; [reflexivity|].
  cbn [insert_index]. destruct (array_index k') as [n'|]; [destruct (n <? n')|];
    try reflexivity.
  rewrite !keys_cons, !mem_cons, IH.
  destruct (text_eqb x k), (text_eqb x k'); reflexivity.
Qed.

Lemma distinct_insert_index (o : props) (n : N) (k : text) (v : value) :
  distinct (keys o) = true -> mem k (keys o) = false ->
  distinct (keys (insert_index o n k v)) = true.
Proof.
  induction o as [|[k' v'] o IH]; intros Hd Hm; [reflexivity|].
  rewrite keys_cons in Hd, Hm. rewrite mem_cons in Hm. cbn [distinct] in Hd.
  apply andb_true_iff in Hd as [Hd1 Hd2].
  apply orb_false_iff in Hm as [Hm1 Hm2].
  assert (Hnew : distinct (keys ((k, v) :: (k', v') :: o)) = true).
  { rewrite !keys_cons. cbn [distinct]. rewrite mem_cons, Hm1, Hm2, Hd1, Hd2.
    reflexivity. }
  cbn [insert_index]. destruct (array_index k') as [n'|]; [destruct (n <? n')|];
    try exact Hnew.
  rewrite keys_cons. cbn [distinct]. rewrite mem_insert_index.
  rewrite text_eqb_sym, Hm1. cbn [orb].
  rewrite Hd1. cbn [andb].
  apply IH; assumption.
Qed.

Lemma distinct_snoc (ks : list text) (k : text) :
  distinct ks = true -> mem k ks = false -> distinct (ks ++ [k]) = true.
Proof.
  induction ks as [|k' ks IH]; intros Hd Hm; [reflexivity|].
  rewrite mem_cons in Hm. cbn [distinct app] in *.
  apply andb_true_iff in Hd as [Hd1 Hd2].
  apply orb_false_iff in Hm as [Hm1 Hm2].
  rewrite mem_app, negb_orb, Hd1, mem_cons.
  rewrite text_eqb_sym, Hm1. cbn [orb negb andb mem existsb]. now apply IH.
Qed.

Lemma index_order_insert (o : props) (n : N) (k : text) (v : value) :
  array_index k = Some n ->
  forall bound, bound <= n -> index_order bound (keys o) = true ->
    index_order bound (keys (insert_index o n k v)) = true.
Proof.
  intros Hk. induction o as [|[k' v'] o IH]; intros bound Hb H.
  - cbn. rewrite Hk. apply N.leb_le in Hb. now rewrite Hb.
  - cbn [keys map fst index_order] in H. cbn [insert_index].
    destruct (array_index k') as [n'|] eqn:Hk'.
    + apply andb_true_iff in H as [H1 H2].
      destruct (N.ltb_spec n n') as [L|L].
      * cbn [keys map fst index_order]. rewrite Hk, Hk'.
        apply N.leb_le in Hb. rewrite Hb. cbn [andb].
        replace (n <=? n') with true by (symmetry; apply N.leb_le; lia).
        exact H2.
      * change (keys ((k', v') :: insert_index o n k v))
          with (k' :: keys (insert_index o n k v)).
        cbn [index_order]. rewrite Hk', H1. cbn [andb]. now apply IH.
    + cbn [keys map fst index_order]. rewrite Hk, Hk'.
      apply N.leb_le in Hb. rewrite Hb. exact H.
Qed.

Lemma index_order_snoc_name (ks : list text) (k : text) :
  array_index k = None ->
  forall bound, index_order bound ks = true -> index_order bound (ks ++ [k]) = true.
Proof.
  intros Hk. induction ks as [|k' ks IH]; intros bound H; cbn [app index_order] in *.
  - now rewrite Hk.
  - destruct (array_index k').
    + apply andb_true_iff in H as [H1 H2]. rewrite H1. cbn [andb]. now apply IH.
    + rewrite forallb_app, H. cbn. unfold is_name. now rewrite Hk.
Qed.

Lemma canonical_define_property (o : props) (k : text) (v : value) :
  canonical o = true -> canonical (define_property o k v) = true.
Proof.
  unfold canonical, define_property. intros H.
  apply andb_true_iff in H as [Hord Hdis].
  rewrite has_own_mem. destruct (mem k (keys o)) eqn:Hm.
  - rewrite keys_update. now rewrite Hord, Hdis.
  - unfold add_property. destruct (array_index k) as [n|] eqn:Hk.
    + rewrite (index_order_insert _ _ _ _ Hk) by (assumption || apply N.le_0_l).
      now rewrite distinct_insert_index.
    + rewrite keys_app. cbn [keys map fst].
      rewrite index_order_snoc_name by assumption.
      now rewrite distinct_snoc.
Qed.

Lemma own_update (o : props) (k : text) (v : value) (x : text) :
  own_property (update_property o k v) x =
  if text_eqb k x && has_own o k then Some v else own_property o x.
Proof.
  unfold has_own. induction o as [|[k' v'] o IH]; cbn [update_property own_property].
  - now rewrite andb_false_r.
  - destruct (text_eqb k' k) eqn:E.
    + apply text_eqb_eq in E. subst k'. cbn [own_property].
      rewrite andb_true_r. destruct (text_eqb k x); reflexivity.
    + cbn [own_property]. destruct (text_eqb k' x) eqn:E'.
      * apply text_eqb_eq in E'. subst k'. rewrite text_eqb_sym, E. reflexivity.
      * exact IH.
Qed.

Lemma own_insert_index (o : props) (n : N) (k : text) (v : value) (x : text) :
  has_own o k = false ->
  own_property (insert_index o n k v) x =
  if text_eqb k x then Some v else own_property o x.
Proof.
  unfold has_own. induction o as [|[k' v'] o IH]; intros H; [reflexivity|].
  cbn [own_property] in H. destruct (text_eqb k' k) eqn:E; [discriminate|].
  cbn [insert_index].
  destruct (array_index k') as [n'|]; [destruct (n <? n')|]; try reflexivity.
  cbn [own_property]. rewrite (IH H).
  destruct (text_eqb k' x) eqn:E'; [|reflexivity].
  apply text_eqb_eq in E'. subst k'. now rewrite text_eqb_sym, E.
Qed.

Lemma own_snoc (o : props) (k : text) (v : value) (x : text) :
  has_own o k = false ->
  own_property (o ++ [(k, v)]) x =
  if text_eqb k x then Some v else own_property o x.
Proof.
  unfold has_own. induction o as [|[k' v'] o IH]; intros H; [reflexivity|].
  cbn [own_property] in H. destruct (text_eqb k' k) eqn:E; [discriminate|].
  cbn [app own_property]. rewrite (IH H).
  destruct (text_eqb k' x) eqn:E'; [|reflexivity].
  apply text_eqb_eq in E'. subst k'. now rewrite text_eqb_sym, E.
Qed.

(** After [o[k] = v], [o[k]] is [v] and the other properties are as they
    were. *)
Lemma own_define_property (o : props) (k : text) (v : value) (x : text) :
  own_property (define_property o k v) x =
  if text_eqb k x then Some v else own_property o x.
Proof.
  unfold define_property. destruct (has_own o k) eqn:H.
  - rewrite own_update, H, andb_true_r. reflexivity.
  - unfold add_property. destruct (array_index k).
    + now apply own_insert_index.
    + now apply own_snoc.
Qed.

Lemma string_valued_update (o : props) (k u : text) :
  string_valued o = true -> string_valued (update_property o k (VStr u)) = true.
Proof.
  unfold string_valued. induction o as [|[k' v'] o IH]; [reflexivity|].
  cbn [forallb update_property snd]. intros H. apply andb_true_iff in H as [H1 H2].
  destruct (text_eqb k' k); cbn [forallb snd]; [exact H2|].
  rewrite H1. now apply IH.
Qed.

Lemma string_valued_insert (o : props) (n : N) (k u : text) :
  string_valued o = true -> string_valued (insert_index o n k (VStr u)) = true.
Proof.
  unfold string_valued. induction o as [|[k' v'] o IH]; [reflexivity|].
  intros H. assert (H' := H). cbn [forallb snd] in H.
  apply andb_true_iff in H as [H1 H2]. cbn [insert_index].
  destruct (array_index k') as [n'|]; [destruct (n <? n')|];
    try (cbn [forallb snd]; exact H').
  cbn [forallb snd]. rewrite H1. now apply IH.
Qed.

Lemma string_valued_define (o : props) (k u : text) :
  string_valued o = true -> string_valued (define_property o k (VStr u)) = true.
Proof.
  intros H. unfold define_property. destruct (has_own o k).
  - now apply string_valued_update.
  - unfold add_property. destruct (array_index k).
    + now apply string_valued_insert.
    + unfold string_valued in *. rewrite forallb_app, H. reflexivity.
Qed.

(** ** What [JSON_parse] builds *)

Ltac break_match_in H :=
  match type of H with
  | context [match ?x with _ => _ end] => destruct x eqn:?; try discriminate H
  end.

Lemma parse_elements_array (fuel : nat) :
  forall acc t v rest,
    parse_elements fuel acc t = Some (v, rest) -> exists items, v = VArr items.
Proof.
  induction fuel as [|fuel IH]; intros acc t v rest H; [discriminate|].
  cbn [parse_elements] in H.
  repeat break_match_in H; eauto.
  injection H as <- _. eauto.
Qed.

Lemma parse_members_canonical (fuel : nat) :
  forall acc t v rest,
    canonical acc = true ->
    parse_members fuel acc t = Some (v, rest) ->
    exists o, v = VObj o /\ canonical o = true.
Proof.
  induction fuel as [|fuel IH]; intros acc t v rest Hacc H; [discriminate|].
  cbn [parse_members] in H.
  repeat break_match_in H.
  - eapply IH; [|eassumption]. now apply canonical_define_property.
  - injection H as <- _. eexists; split; [reflexivity|].
    now apply canonical_define_property.
Qed.

Lemma parse_scalar_not_object (t : text) (o : props) (rest : text) :
  parse_scalar t <> Some (VObj o, rest).
Proof.
  unfold parse_scalar. intros H. repeat break_match_in H; discriminate.
Qed.

Lemma parse_value_canonical (fuel : nat) (t : text) (o : props) (rest : text) :
  parse_value fuel t = Some (VObj o, rest) -> canonical o = true.
Proof.
  destruct fuel as [|fuel]; [discriminate|]. intros H.
  cbn [parse_value] in H.
  repeat break_match_in H.
  - now injection H as <- _.
  - apply parse_members_canonical in H as [o' [E C]]; [|reflexivity].
    now injection E as ->.
  - apply parse_elements_array in H as [items E]. discriminate.
  - now apply parse_scalar_not_object in H.
Qed.

(** Every object that comes out of [JSON.parse] has its properties in
    enumeration order, each name once. *)
Lemma JSON_parse_canonical (t : text) (o : props) :
  JSON_parse t = Some (VObj o) -> canonical o = true.
Proof.
  unfold JSON_parse. intros H. repeat break_match_in H.
  injection H as ->. eapply parse_value_canonical; eassumption.
Qed.

(** ** The fuel of the parser is never what stops it *)

Lemma skip_ws_length (t : text) : (List.length (skip_ws t) <= List.length t)%nat.
Proof.
  induction t as [|c t IH]; cbn [skip_ws]; [apply Nat.le_refl|].
  destruct (is_ws c); cbn [List.length]; lia.
Qed.

Lemma parse_chars_length (t : text) :
  forall s rest, parse_chars t = Some (s, rest) ->
    (List.length rest < List.length t)%nat.
Proof.
  induction t as [t IH] using (well_founded_induction
                                 (Wf_nat.well_founded_ltof _ (@List.length N))).
  unfold Wf_nat.ltof in IH. intros s rest H.
  destruct t as [|c r]; [discriminate|]. cbn [parse_chars] in H.
  assert (Hcons : forall u r0, (List.length r0 < List.length (c :: r))%nat ->
            cons_fst u (parse_chars r0) = Some (s, rest) ->
            (List.length rest < List.length (c :: r))%nat).
  { intros u r0 Hlt Hc. unfold cons_fst in Hc.
    destruct (parse_chars r0) as [[s0 rest0]|] eqn:E; [|discriminate].
    injection Hc as _ <-. specialize (IH r0 Hlt _ _ E). lia. }
  repeat break_match_in H; subst; cbn [List.length] in *;
    try (injection H as _ <-; lia);
    try (eapply Hcons; [|eassumption]; cbn [List.length]; lia).
Qed.

Lemma starts_with_length (prefix t rest : text) :
  starts_with prefix t = Some rest ->
  (List.length rest + List.length prefix = List.length t)%nat.
Proof.
  revert t. induction prefix as [|p prefix IH]; intros t H; cbn [starts_with] in H.
  - injection H as ->. cbn. lia.
  - destruct t as [|c t]; [discriminate|]. destruct (p =? c); [|discriminate].
    apply IH in H. cbn [List.length]. lia.
Qed.

Lemma digits_length (t ds rest : text) :
  digits t = (ds, rest) -> (List.length rest <= List.length t)%nat.
Proof.
  revert ds rest. induction t as [|c t IH]; intros ds rest H; cbn [digits] in H.
  - injection H as _ <-. apply Nat.le_refl.
  - destruct (is_digit c).
    + destruct (digits t) as [ds' rest'] eqn:E. injection H as _ <-.
      specialize (IH _ _ eq_refl). cbn [List.length]. lia.
    + injection H as _ <-. apply Nat.le_refl.
Qed.

Ltac break_match_hyp :=
  match goal with
  | H : context [match ?x with _ => _ end] |- _ => destruct x eqn:?; try discriminate
  end.

Ltac invert_results :=
  repeat match goal with
         | E : (_, _) = (_, _) |- _ => injection E; clear E; intros; subst
         | E : Some _ = Some _ |- _ => injection E; clear E; intros; subst
         | E : digits _ = (_, _) |- _ => apply digits_length in E
         end.

Lemma lex_sign_length (t sg rest : text) :
  lex_sign t = (sg, rest) -> (List.length rest <= List.length t)%nat.
Proof.
  unfold lex_sign. intros H. repeat break_match_hyp; invert_results;
    cbn [List.length] in *; lia.
Qed.

Lemma lex_int_length (t i rest : text) :
  lex_int t = Some (i, rest) -> (List.length rest < List.length t)%nat.
Proof.
  unfold lex_int. intros H. repeat break_match_hyp; invert_results;
    cbn [List.length] in *; lia.
Qed.

Lemma lex_frac_length (t f rest : text) :
  lex_frac t = Some (f, rest) -> (List.length rest <= List.length t)%nat.
Proof.
  unfold lex_frac. intros H. repeat break_match_hyp; invert_results;
    cbn [List.length] in *; lia.
Qed.

Lemma lex_exp_length (t e rest : text) :
  lex_exp t = Some (e, rest) -> (List.length rest <= List.length t)%nat.
Proof.
  unfold lex_exp. intros H. repeat break_match_hyp; invert_results;
    cbn [List.length] in *; lia.
Qed.

Lemma lex_number_length (t l rest : text) :
  lex_number t = Some (l, rest) -> (List.length rest < List.length t)%nat.
Proof.
  unfold lex_number. intros H.
  destruct (lex_sign t) as [sg t1] eqn:E1.
  destruct (lex_int t1) as [[i t2]|] eqn:E2; [|discriminate].
  destruct (lex_frac t2) as [[f t3]|] eqn:E3; [|discriminate].
  destruct (lex_exp t3) as [[e t4]|] eqn:E4; [|discriminate].
  injection H as _ <-.
  apply lex_sign_length in E1. apply lex_int_length in E2.
  apply lex_frac_length in E3. apply lex_exp_length in E4. lia.
Qed.

Lemma parse_scalar_length (t : text) (v : value) (rest : text) :
  parse_scalar t = Some (v, rest) -> (List.length rest < List.length t)%nat.
Proof.
  unfold parse_scalar. intros H.
  repeat break_match_in H; injection H as _ <-;
    match goal with
    | E : starts_with _ _ = Some _ |- _ =>
        apply starts_with_length in E; cbn [lit map list_ascii_of_string List.length] in E; lia
    | E : lex_number _ = Some _ |- _ => now apply lex_number_length in E
    end.
Qed.

Ltac with_fuel m Hle :=
  intros m Hle; destruct m as [|m];
  [exfalso; cbn [List.length] in *; lia|];
  cbn [parse_value parse_members parse_elements];
  repeat match goal with
         | E : ?x = _ |- context [?x] => rewrite E
         end.

Lemma parse_fuel (n : nat) :
  fuel_independent parse_value n
  /\ (forall acc, fuel_independent (fun k => parse_members k acc) n)
  /\ (forall acc, fuel_independent (fun k => parse_elements k acc) n).
Proof.
  unfold fuel_independent.
  induction n as [|n (IHv & IHm & IHe)]; [repeat split; discriminate|].
  split; [|split].
  - intros t v rest H. destruct t as [|c r]; [discriminate|].
    cbn [parse_value] in H.
    destruct (c =? 123) eqn:E123; [|destruct (c =? 91) eqn:E91; [|destruct (c =? 34) eqn:E34]].
    + destruct (skip_ws r) as [|d r'] eqn:Ews; [discriminate|].
      assert (L := skip_ws_length r). rewrite Ews in L.
      destruct (d =? 125) eqn:E125.
      * injection H as <- <-. split; [cbn [List.length] in *; lia|].
        with_fuel m Hle. reflexivity.
      * apply IHm in H as [Hlt Hm]. split; [cbn [List.length] in *; lia|].
        with_fuel m Hle. apply Hm. cbn [List.length] in *. lia.
    + destruct (skip_ws r) as [|d r'] eqn:Ews; [discriminate|].
      assert (L := skip_ws_length r). rewrite Ews in L.
      destruct (d =? 93) eqn:E93.
      * injection H as <- <-. split; [cbn [List.length] in *; lia|].
        with_fuel m Hle. reflexivity.
      * apply IHe in H as [Hlt Hm]. split; [cbn [List.length] in *; lia|].
        with_fuel m Hle. apply Hm. cbn [List.length] in *. lia.
    + destruct (parse_chars r) as [[s r']|] eqn:Ec; [|discriminate].
      injection H as <- <-. apply parse_chars_length in Ec as L.
      split; [cbn [List.length]; lia|].
      with_fuel m Hle. reflexivity.
    + apply parse_scalar_length in H as L. split; [exact L|].
      with_fuel m Hle. reflexivity.
  - intros acc t v rest H. destruct t as [|q r]; [discriminate|].
    cbn [parse_members] in H.
    destruct (q =? 34) eqn:E34; [|discriminate].
    destruct (parse_chars r) as [[k r1]|] eqn:Ec; [|discriminate].
    apply parse_chars_length in Ec as L1.
    destruct (skip_ws r1) as [|colon r2] eqn:Ews1; [discriminate|].
    assert (L2 := skip_ws_length r1). rewrite Ews1 in L2.
    destruct (colon =? 58) eqn:E58; [|discriminate].
    destruct (parse_value n (skip_ws r2)) as [[x r3]|] eqn:Ev; [|discriminate].
    assert (L3 := skip_ws_length r2).
    destruct (IHv _ _ _ Ev) as [L4 Hv].
    destruct (skip_ws r3) as [|e r4] eqn:Ews3; [discriminate|].
    assert (L5 := skip_ws_length r3). rewrite Ews3 in L5.
    destruct (e =? 44) eqn:E44; [|destruct (e =? 125) eqn:E125; [|discriminate]].
    + assert (L6 := skip_ws_length r4).
      destruct (IHm _ _ _ _ H) as [L7 Hm].
      split; [cbn [List.length] in *; lia|].
      with_fuel m Hle.
      rewrite (Hv m) by (cbn [List.length] in *; lia).
      rewrite Ews3, E44. apply Hm. cbn [List.length] in *. lia.
    + injection H as <- <-. split; [cbn [List.length] in *; lia|].
      with_fuel m Hle.
      rewrite (Hv m) by (cbn [List.length] in *; lia).
      rewrite Ews3, E44, E125. reflexivity.
  - intros acc t v rest H. cbn [parse_elements] in H.
    destruct (parse_value n t) as [[x r1]|] eqn:Ev; [|discriminate].
    destruct (IHv _ _ _ Ev) as [L1 Hv].
    destruct (skip_ws r1) as [|e r2] eqn:Ews; [discriminate|].
    assert (L2 := skip_ws_length r1). rewrite Ews in L2.
    destruct (e =? 44) eqn:E44; [|destruct (e =? 93) eqn:E93; [|discriminate]].
    + assert (L3 := skip_ws_length r2).
      destruct (IHe _ _ _ _ H) as [L4 He].
      split; [cbn [List.length] in *; lia|].
      with_fuel m Hle.
      rewrite (Hv m) by (cbn [List.length] in *; lia).
      rewrite Ews, E44. apply He. cbn [List.length] in *. lia.
    + injection H as <- <-. split; [cbn [List.length] in *; lia|].
      with_fuel m Hle.
      rewrite (Hv m) by (cbn [List.length] in *; lia).
      rewrite Ews, E44, E93. reflexivity.
Qed.

(** [JSON_parse] gives its input as much fuel as it has characters; more
    fuel would not parse more. *)
Lemma JSON_parse_fuel (n : nat) (t : text) (v : value) (rest : text) :
  parse_value n (skip_ws t) = Some (v, rest) ->
  is_empty (skip_ws rest) = true ->
  JSON_parse t = Some v.
Proof.
  intros H Hrest. destruct (parse_fuel n) as [Hv _].
  destruct (Hv _ _ _ H) as [_ Hm].
  unfold JSON_parse. rewrite Hm; [now rewrite Hrest|].
  assert (L := skip_ws_length t). lia.
Qed.

(** ** A link table survives [saveLinks] followed by [loadLinks] *)

Lemma all_some_map_Some {A B : Type} (f : A -> B) (l : list A) :
  all_some (map (fun x => Some (f x)) l) = Some (map f l).
Proof.
  induction l as [|x l IH]; [reflexivity|].
  cbn [map all_some]. now rewrite IH.
Qed.

Lemma stringify_table (o : props) :
  string_valued o = true -> JSON_stringify (VObj o) 2 = Some (table_text o).
Proof.
  intros H. unfold JSON_stringify, table_text.
  change (Nat.min 2 10) with 2%nat. cbn [serialize].
  replace (map _ o) with (map (fun p => Some (member_line p)) o).
  - now rewrite all_some_map_Some.
  - apply map_ext_in. intros [k v] Hin. unfold string_valued in H.
    rewrite forallb_forall in H. specialize (H _ Hin). cbn [snd fst] in *.
    destruct v; try discriminate. reflexivity.
Qed.

Lemma member_line_parse (fuel : nat) (acc : props) (k s rest : text) :
  parse_members (S (S fuel)) acc (member_line (k, VStr s) ++ rest) =
  match skip_ws rest with
  | [] => None
  | e :: r =>
      if e =? 44
      then parse_members (S fuel) (define_property acc k (VStr s)) (skip_ws r)
      else if e =? 125 then Some (VObj (define_property acc k (VStr s)), r)
      else None
  end.
Proof.
  unfold member_line, member_text, quote. cbn [fst snd].
  repeat (rewrite <- app_assoc; cbn [app]).
  cbn [parse_members]. change (34 =? 34) with true. cbv iota.
  rewrite parse_chars_quote_units.
  change (skip_ws (58 :: 32 :: 34 :: quote_units s ++ 34 :: rest))
    with (58 :: 32 :: 34 :: quote_units s ++ 34 :: rest).
  change (58 =? 58) with true. cbv iota.
  change (skip_ws (32 :: 34 :: quote_units s ++ 34 :: rest))
    with (34 :: quote_units s ++ 34 :: rest).
  cbn [parse_value].
  change (34 =? 123) with false. change (34 =? 91) with false.
  change (34 =? 34) with true. cbv iota.
  rewrite parse_chars_quote_units. reflexivity.
Qed.

Lemma join_cons (sep p q : text) (rest : list text) :
  join sep (p :: q :: rest) = p ++ sep ++ join sep (q :: rest).
Proof. reflexivity. Qed.

Lemma member_lines_start (p : text * value) (o : props) (x : text) :
  skip_ws (join (44 :: newline_indent 2) (map member_line (p :: o)) ++ x)
  = join (44 :: newline_indent 2) (map member_line (p :: o)) ++ x.
Proof.
  cbn [map join]. destruct (map member_line o); reflexivity.
Qed.

Lemma member_lines_parse (o : props) :
  forall (fuel : nat) (acc : props) (tail : text),
    o <> [] -> string_valued o = true -> (List.length o < fuel)%nat ->
    parse_members fuel acc
      (join (44 :: newline_indent 2) (map member_line o) ++ 10 :: 125 :: tail) =
    Some (VObj (fold_left (fun a p => define_property a (fst p) (snd p)) o acc), tail).
Proof.
  induction o as [|[k v] o IH]; intros fuel acc tail Hne Hs Hlen; [congruence|].
  cbn [string_valued forallb snd] in Hs. destruct v; try discriminate.
  cbn [andb] in Hs. cbn [List.length] in Hlen.
  destruct fuel as [|[|fuel]]; try lia.
  cbn [fold_left fst snd].
  destruct o as [|p o'].
  - cbn [map join fold_left]. rewrite member_line_parse. reflexivity.
  - change (map member_line ((k, VStr s) :: p :: o'))
      with (member_line (k, VStr s) :: member_line p :: map member_line o').
    rewrite join_cons.
    change (member_line p :: map member_line o') with (map member_line (p :: o')).
    rewrite <- !app_assoc. rewrite member_line_parse.
    change (skip_ws ((44 :: newline_indent 2) ++ ?x)) with (44 :: newline_indent 2 ++ x).
    change (44 =? 44) with true. cbv iota.
    change (skip_ws (newline_indent 2 ++ ?x)) with (skip_ws x).
    rewrite member_lines_start.
    apply IH; [discriminate | assumption | cbn [List.length] in *; lia].
Qed.

Lemma join_length (sep : text) (parts : list text) :
  Forall (fun p => p <> []) parts ->
  (List.length parts <= List.length (join sep parts))%nat.
Proof.
  induction 1 as [|p parts Hp _ IH]; [apply Nat.le_refl|].
  destruct parts as [|q parts].
  - cbn. destruct p; [congruence | cbn; lia].
  - rewrite join_cons, !length_app. cbn [List.length] in *. unfold text in *.
    destruct p; [congruence | cbn [List.length]; lia].
Qed.

(** [JSON.parse] reads back what [JSON.stringify(links, null, 2)] wrote. *)
Lemma parse_table_text (o : props) :
  string_valued o = true -> canonical o = true ->
  JSON_parse (table_text o) = Some (VObj o).
Proof.
  intros Hs Hc. destruct o as [|p o']; [reflexivity|].
  assert (Htext : table_text (p :: o')
            = 123 :: newline_indent 2
                ++ join (44 :: newline_indent 2) (map member_line (p :: o'))
                ++ [10; 125])
    by reflexivity.
  assert (Hfirst : exists x,
            join (44 :: newline_indent 2) (map member_line (p :: o')) ++ [10; 125]
            = 34 :: x).
  { cbn [map join]. destruct (map member_line o'); eexists; reflexivity. }
  assert (Hlen : (List.length (p :: o') < List.length (table_text (p :: o')))%nat).
  { rewrite Htext. cbn [List.length]. rewrite !length_app.
    assert (L := join_length (44 :: newline_indent 2) (map member_line (p :: o'))).
    rewrite length_map in L.
    assert (F : Forall (fun l => l <> []) (map member_line (p :: o'))).
    { apply Forall_forall. intros l Hin. apply in_map_iff in Hin as [q [<- _]].
      discriminate. }
    specialize (L F). cbn [List.length] in *. lia. }
  unfold JSON_parse. revert Hlen. generalize (List.length (table_text (p :: o'))).
  intros fuel Hlen. rewrite Htext.
  change (skip_ws (123 :: ?x)) with (123 :: x).
  cbn [parse_value]. change (123 =? 123) with true. cbv iota.
  change (skip_ws (newline_indent 2 ++ ?x)) with (skip_ws x).
  rewrite member_lines_start.
  destruct Hfirst as [x Hx].
  rewrite Hx. change (34 =? 125) with false. cbv iota. rewrite <- Hx.
  rewrite member_lines_parse by (discriminate || assumption).
  rewrite (fold_define_property (p :: o') []) by exact Hc. reflexivity.
Qed.

(** ** Running programs *)

Lemma exec_bind {A B : Type} (p : prog A) (f : A -> prog B) :
  forall w,
    exec (bind p f) w =
    match exec p w with
    | (Returned a, w') => exec (f a) w'
    | (Thrown e, w') => (Thrown e, w')
    | (Unknown, w') => (Unknown, w')
    end.
Proof.
  induction p as [a|e| |l k IH|q k IH|q k IH|q data k IH]; intros w;
    cbn [bind exec]; auto.
Qed.

Lemma exec_try_catch {A : Type} (p : prog A) (handler : error -> prog A) :
  forall w,
    exec (try_catch p handler) w =
    match exec p w with
    | (Thrown e, w') => exec (handler e) w'
    | r => r
    end.
Proof.
  induction p as [a|e| |l k IH|q k IH|q k IH|q data k IH]; intros w;
    cbn [try_catch exec]; auto.
Qed.

Lemma exec_step {A : Type} (p : prog A) (w : world) :
  exec p w = exec (fst (step p w)) (snd (step p w)).
Proof. destruct p; reflexivity. Qed.

(** A request that is alone in flight ends as [exec] says. *)
Lemma run_pool_alone {A : Type} (n : nat) :
  forall (p : prog A) (w : world),
    exists p',
      fst (run_pool (repeat 0%nat n) [p] w) = [p']
      /\ exec p' (snd (run_pool (repeat 0%nat n) [p] w)) = exec p w.
Proof.
  induction n as [|n IH]; intros p w; cbn [repeat run_pool step_at fst snd].
  - exists p. split; reflexivity.
  - destruct (IH (fst (step p w)) (snd (step p w))) as (p' & Hpool & Hexec).
    exists p'. split; [exact Hpool|]. now rewrite Hexec, <- exec_step.
Qed.

Lemma exec_finished {A : Type} (p : prog A) (w : world) (r : outcome A) :
  finished p = Some r -> exec p w = (r, w).
Proof.
  destruct p; cbn [finished]; intros H; try discriminate H;
    injection H as <-; reflexivity.
Qed.

Lemma overwrite_nil (data : text) : overwrite data [] = data.
Proof. unfold overwrite. cbn [drop_bytes]. apply app_nil_r. Qed.

Lemma write_all_opened (w : world) (data : text) :
  write_all (set_links_json w (File [])) DATA_FILE data = set_links_json w (File data).
Proof.
  unfold write_all. cbn [links_json set_links_json content]. now rewrite overwrite_nil.
Qed.

Lemma exec_writeFile (data : text) (w : world) :
  exec (writeFile DATA_FILE data) w =
  match write_fault w with
  | Some c => (Thrown (SystemError c), w)
  | None => (Returned tt, set_links_json w (File data))
  end.
Proof.
  unfold writeFile. cbn [exec open_trunc].
  destruct (write_fault w); [reflexivity|].
  cbn [fst snd exec]. now rewrite write_all_opened.
Qed.

Lemma exec_readFile (p : path) (w : world) :
  exec (readFile p) w =
  match read w p with
  | inl e => (Thrown e, w)
  | inr data => (Returned data, w)
  end.
Proof.
  unfold readFile. cbn [exec]. destruct (read w p); reflexivity.
Qed.

Lemma exec_loadLinks (w : world) : exec loadLinks w = load w.
Proof.
  unfold loadLinks, load, create_record.
  rewrite exec_try_catch, exec_bind, exec_readFile.
  unfold read, lookup.
  destruct (links_json w) as [|c|data].
  - change (has_code (SystemError "ENOENT") "ENOENT") with true. cbv iota.
    rewrite exec_bind.
    change (exec (stringify (VObj []) 0) w) with (Returned (lit "{}"), w).
    cbv iota. rewrite exec_bind, exec_writeFile.
    destruct (write_fault w); reflexivity.
  - change (has_code (SystemError c) "ENOENT") with (String.eqb c "ENOENT").
    destruct (String.eqb c "ENOENT"); [|reflexivity].
    rewrite exec_bind.
    change (exec (stringify (VObj []) 0) w) with (Returned (lit "{}"), w).
    cbv iota. rewrite exec_bind, exec_writeFile.
    destruct (write_fault w); reflexivity.
  - destruct data as [|c data]; [reflexivity|].
    cbn [is_empty]. unfold parse.
    destruct (JSON_parse (c :: data)); reflexivity.
Qed.

Lemma load_keeps (w w1 : world) (r : outcome value) :
  exec loadLinks w = (r, w1) ->
  write_fault w1 = write_fault w /\ console w1 = console w /\ public w1 = public w.
Proof.
  rewrite exec_loadLinks. unfold load, create_record. intros H.
  repeat break_match_in H; injection H as <- <-; auto.
Qed.

Lemma load_print (w : world) (l : log) :
  exec loadLinks (print w l) =
  (fst (exec loadLinks w), print (snd (exec loadLinks w)) l).
Proof.
  rewrite !exec_loadLinks. unfold load, create_record. cbn [print links_json write_fault].
  repeat match goal with
         | |- context [match ?x with _ => _ end] => destruct x
         end; reflexivity.
Qed.

Lemma table_text_cons (o : props) : exists r, table_text o = 123 :: r.
Proof.
  unfold table_text, wrap. destruct (map member_line o); eexists; reflexivity.
Qed.

(** After [loadLinks] has returned, the record is there and loads as the same
    value without being touched. *)
Lemma load_again (w w1 : world) (v : value) :
  exec loadLinks w = (Returned v, w1) -> exec loadLinks w1 = (Returned v, w1).
Proof.
  rewrite !exec_loadLinks. unfold load, create_record. intros H.
  repeat break_match_in H; injection H as <- <-;
    repeat match goal with E : _ = _ |- _ => rewrite E end; reflexivity.
Qed.

Lemma load_canonical (w w1 : world) (o : props) :
  exec loadLinks w = (Returned (VObj o), w1) -> canonical o = true.
Proof.
  rewrite exec_loadLinks. unfold load, create_record. intros H.
  repeat break_match_in H; injection H; intros; subst;
    solve [reflexivity | eapply JSON_parse_canonical; eassumption].
Qed.

(** Loading what [saveLinks] wrote gives the saved table. *)
Lemma load_table_text (w : world) (o : props) :
  string_valued o = true -> canonical o = true ->
  exec loadLinks (set_links_json w (File (table_text o)))
  = (Returned (VObj o), set_links_json w (File (table_text o))).
Proof.
  intros Hs Hc. rewrite exec_loadLinks. unfold load. cbn [links_json set_links_json].
  destruct (table_text_cons o) as [r E].
  rewrite (parse_table_text o Hs Hc). rewrite E. reflexivity.
Qed.

Lemma exec_saveLinks (w : world) (o : props) :
  string_valued o = true -> write_fault w = None ->
  exec (saveLinks (VObj o)) w = (Returned tt, set_links_json w (File (table_text o))).
Proof.
  intros Hs Hw. unfold saveLinks, stringify.
  rewrite exec_bind, (stringify_table o Hs). cbn [known exec].
  now rewrite exec_writeFile, Hw.
Qed.

(** ** [POST /shorten] *)

Lemma string_valued_truthy (o : props) (k : text) :
  string_valued o = true ->
  ToBoolean (get_property o k) = Some (truthy (get_property o k)).
Proof.
  intros Hs. unfold truthy, get_property.
  destruct (own_property o k) as [v|] eqn:E.
  - assert (Hv : exists s, v = VStr s).
    { clear - Hs E. induction o as [|[k' v'] o IH]; [discriminate|].
      cbn [string_valued forallb snd] in Hs. apply andb_true_iff in Hs as [H1 H2].
      cbn [own_property] in E. destruct (text_eqb k' k).
      - injection E as <-. destruct v'; try discriminate. eauto.
      - auto. }
    destruct Hv as [s ->]. cbn [ToBoolean]. now destruct (negb (is_empty s)).
  - now destruct (is_inherited k).
Qed.

Lemma settles_key (rng : nat -> byte) (b : props) (code : text) :
  settles rng b code ->
  exists custom,
    ToBoolean (get_property b (lit "shortCode")) = Some custom /\
    (if custom then get_property b (lit "shortCode")
     else Json (VStr (toString_hex (randomBytes rng 4)))) = Json (VStr code).
Proof.
  unfold get_property. intros [[E Hne]|[[E|E] ->]]; rewrite E.
  - exists true. destruct code; [congruence | split; reflexivity].
  - exists false. split; reflexivity.
  - exists false. split; reflexivity.
Qed.

Lemma shorten_settled (rng : nat -> byte) (w w1 : world) (o b : props)
      (body u code : text) :
  exec loadLinks w = (Returned (VObj o), w1) ->
  write_fault w = None ->
  string_valued o = true ->
  JSON_parse body = Some (VObj b) ->
  own_property b (lit "url") = Some (VStr u) ->
  u <> [] ->
  settles rng b code ->
  exec (shorten rng body) w =
  if truthy (get_property o code) then (Returned code_exists, w1)
  else (Returned (created code),
        set_links_json w1 (File (table_text (define_property o code (VStr u))))).
Proof.
  intros Hload Hw Hs Hbody Hurl Hu Hcode.
  destruct (load_keeps _ _ _ Hload) as [Hw1 _]. rewrite Hw in Hw1.
  destruct (settles_key _ _ _ Hcode) as [custom [Hcustom Hfinal]].
  unfold shorten. rewrite exec_try_catch, exec_bind, Hload. cbv iota.
  assert (Hget : get_property b (lit "url") = Json (VStr u))
    by (unfold get_property; now rewrite Hurl).
  unfold parse. rewrite Hbody. cbn [bind destructure].
  rewrite Hget. cbn [ToBoolean known bind].
  destruct u as [|c0 u]; [congruence|]. cbn [is_empty negb].
  rewrite Hcustom. cbn [known bind]. rewrite Hfinal. cbn [ToPropertyKey bind js_get].
  rewrite (string_valued_truthy o code Hs). cbn [known bind].
  destruct (truthy (get_property o code)) eqn:Htaken.
  - reflexivity.
  - assert (Hset : js_set (VObj o) code (Json (VStr (c0 :: u)))
                   = Ret (VObj (define_property o code (VStr (c0 :: u))))).
    { unfold js_set, define_property. destruct (has_own o code) eqn:Hown; [reflexivity|].
      destruct (text_eqb code (lit "__proto__")) eqn:Hp; [|reflexivity].
      apply text_eqb_eq in Hp. subst code.
      unfold truthy, get_property, has_own in Htaken, Hown.
      destruct (own_property o (lit "__proto__")); discriminate. }
    rewrite Hset. cbn [bind]. rewrite exec_bind.
    rewrite exec_saveLinks by (try apply string_valued_define; assumption).
    reflexivity.
Qed.

Lemma table_load (w : world) (o : props) :
  table w = Some o <-> exists w1, exec loadLinks w = (Returned (VObj o), w1).
Proof.
  unfold table. destruct (exec loadLinks w) as [r w1]. cbn [fst]. split.
  - intros H. exists w1. destruct r as [[]| |]; try discriminate. now injection H as ->.
  - intros [w2 H]. now injection H as -> _.
Qed.

Lemma table_print (w : world) (l : log) : table (print w l) = table w.
Proof. unfold table. now rewrite load_print. Qed.

Lemma table_saved (w : world) (o : props) :
  string_valued o = true -> canonical o = true ->
  table (set_links_json w (File (table_text o))) = Some o.
Proof.
  intros Hs Hc. unfold table. now rewrite load_table_text.
Qed.

Lemma server_POST_shorten (rng : nat -> byte) (body : text) (w : world) :
  exec (server rng (POST_shorten body)) w =
  exec (shorten rng body) (print w (request_line (POST_shorten body))).
Proof. reflexivity. Qed.

(** The two ways a well-formed create request ends when the store is
    healthy: the code reads as taken and nothing is written, or the link is
    added and the whole table is rewritten. *)
Section Create.

Variable rng : nat -> byte.
Variable w : world.
Variables o b : props.
Variables body u code : text.

Hypothesis Htable : table w = Some o.
Hypothesis Hwritable : write_fault w = None.
Hypothesis Hstrings : string_valued o = true.
Hypothesis Hbody : JSON_parse body = Some (VObj b).
Hypothesis Hurl : own_property b (lit "url") = Some (VStr u).
Hypothesis Hdestination : u <> [].
Hypothesis Hcode : settles rng b code.

Lemma create_load :
  exists w1,
    exec loadLinks w = (Returned (VObj o), w1)
    /\ exec loadLinks (print w (request_line (POST_shorten body)))
       = (Returned (VObj o), print w1 (request_line (POST_shorten body))).
Proof.
  apply table_load in Htable as [w1 Hload]. exists w1.
  split; [assumption | now rewrite load_print, Hload].
Qed.

Lemma create_taken :
  truthy (get_property o code) = true ->
  exists w',
    exec (server rng (POST_shorten body)) w = (Returned code_exists, w')
    /\ table w' = Some o
    /\ write_fault w' = None
    /\ (forall data, links_json w = File data -> links_json w' = File data).
Proof.
  intros Htaken. destruct create_load as (w1 & Hload & Hload').
  exists (print w1 (request_line (POST_shorten body))). rewrite server_POST_shorten.
  rewrite (shorten_settled rng _ _ o b body u code Hload') by assumption.
  rewrite Htaken. split; [reflexivity|].
  split; [rewrite table_print; apply table_load; exists w1; eapply load_again; eassumption|].
  split; [destruct (load_keeps _ _ _ Hload) as [E _]; cbn; congruence|].
  intros data Hdata. cbn [print links_json].
  rewrite exec_loadLinks in Hload. unfold load in Hload. rewrite Hdata in Hload.
  repeat break_match_in Hload; injection Hload; intros; subst; assumption.
Qed.

Lemma create_fresh :
  truthy (get_property o code) = false ->
  exists w',
    exec (server rng (POST_shorten body)) w = (Returned (created code), w')
    /\ JSON_stringify (VObj (define_property o code (VStr u))) 2
       = Some (table_text (define_property o code (VStr u)))
    /\ links_json w' = File (table_text (define_property o code (VStr u)))
    /\ table w' = Some (define_property o code (VStr u))
    /\ write_fault w' = None.
Proof.
  intros Hfree. destruct create_load as (w1 & Hload & Hload').
  assert (Hs' := string_valued_define o code u Hstrings).
  assert (Hc' : canonical (define_property o code (VStr u)) = true)
    by (apply canonical_define_property; eapply load_canonical; eassumption).
  eexists. rewrite server_POST_shorten.
  rewrite (shorten_settled rng _ _ o b body u code Hload') by assumption.
  rewrite Hfree. split; [reflexivity|].
  split; [now apply stringify_table|].
  split; [reflexivity|].
  split; [now apply table_saved|].
  destruct (load_keeps _ _ _ Hload) as [E _]. cbn. congruence.
Qed.

End Create.

(** ** [GET /<code>] *)

Lemma server_GET (rng : nat -> byte) (addr : text) (w : world) :
  reserved_path addr = false ->
  exec (server rng (GET addr)) w =
  match exec (redirect addr) (print w (request_line (GET addr))) with
  | (Returned (Some r), w') => (Returned r, w')
  | (Returned None, w') => (Returned not_found, w')
  | (Thrown e, w') => (Thrown e, w')
  | (Unknown, w') => (Unknown, w')
  end.
Proof.
  unfold reserved_path. intros H.
  apply orb_false_iff in H as [H H4]. apply orb_false_iff in H as [H H3].
  apply orb_false_iff in H as [H1 H2].
  unfold server, GET, request_line. cbn [method url exec].
  change (String.eqb "GET" "POST") with false. cbn [andb].
  change (String.eqb "GET" "GET") with true. cbv iota.
  rewrite H1, H2, H3, H4. rewrite exec_bind.
  destruct (exec (redirect addr) _) as [[[r|]|e|] w']; reflexivity.
Qed.

Lemma redirect_found (w w1 : world) (o : props) (code u : text) :
  exec loadLinks w = (Returned (VObj o), w1) ->
  own_property o code = Some (VStr u) -> u <> [] ->
  forallb valid_header_char u = true ->
  exec (redirect (47 :: code)) w
  = (Returned (Some (moved u)), print w1 (LogRedirecting code (Json (VStr u)))).
Proof.
  intros Hload Hown Hu Hvalid. unfold redirect.
  rewrite exec_try_catch, exec_bind, Hload. cbv iota.
  cbn [tl js_get bind]. unfold get_property. rewrite Hown.
  destruct u as [|c u]; [congruence|].
  cbn [ToBoolean is_empty negb known bind header_value exec]. rewrite Hvalid.
  reflexivity.
Qed.

Lemma redirect_unknown (w w1 : world) (o : props) (code : text) :
  exec loadLinks w = (Returned (VObj o), w1) ->
  ToBoolean (get_property o code) = Some false ->
  exec (redirect (47 :: code)) w = (Returned None, w1).
Proof.
  intros Hload Hfalse. unfold redirect.
  rewrite exec_try_catch, exec_bind, Hload. cbv iota.
  cbn [tl js_get bind]. rewrite Hfalse. reflexivity.
Qed.

Lemma redirect_store_failure (w w1 : world) (e : error) (addr : text) :
  exec loadLinks w = (Thrown e, w1) ->
  exec (redirect addr) w = (Returned None, print w1 (ErrorDuringRedirection e)).
Proof.
  intros Hload. unfold redirect.
  rewrite exec_try_catch, exec_bind, Hload. reflexivity.
Qed.

(** Resolving a stored code redirects to its destination, when the code is
    not one of the paths the server keeps for itself and the destination
    can stand in a header. *)
Lemma resolve_found (rng : nat -> byte) (w : world) (o : props) (code u : text) :
  table w = Some o ->
  own_property o code = Some (VStr u) -> u <> [] ->
  forallb valid_header_char u = true ->
  reserved_path (47 :: code) = false ->
  exists w',
    exec (server rng (GET (47 :: code))) w = (Returned (moved u), w')
    /\ links_json w' = links_json w.
Proof.
  intros Ht Hown Hu Hvalid Hres. apply table_load in Ht as [w1 Hload].
  assert (Hload' : exec loadLinks (print w (request_line (GET (47 :: code))))
                   = (Returned (VObj o), print w1 (request_line (GET (47 :: code)))))
    by (now rewrite load_print, Hload).
  eexists. rewrite server_GET by assumption.
  rewrite (redirect_found _ _ o code u Hload') by assumption.
  split; [reflexivity|]. cbn [print links_json].
  rewrite exec_loadLinks in Hload. unfold load, create_record in Hload.
  repeat break_match_in Hload; injection Hload; intros; subst;
    solve [assumption | reflexivity | cbn in Hown; discriminate Hown].
Qed.

(** A code that reads as nothing true in the table is answered with the
    generic 404. *)
Lemma resolve_unknown (rng : nat -> byte) (w : world) (o : props) (code : text) :
  table w = Some o ->
  ToBoolean (get_property o code) = Some false ->
  reserved_path (47 :: code) = false ->
  fst (exec (server rng (GET (47 :: code))) w) = Returned not_found.
Proof.
  intros Ht Hfalse Hres. apply table_load in Ht as [w1 Hload].
  rewrite server_GET by assumption.
  rewrite (redirect_unknown _ (print w1 (request_line (GET (47 :: code)))) o code).
  - reflexivity.
  - now rewrite load_print, Hload.
  - assumption.
Qed.

(** ** Creating a link and resolving it *)

Lemma create_request_settles (rng : nat -> byte) (b : props) (code : text) :
  own_property b (lit "shortCode") = option_map VStr (Some code) ->
  code <> [] -> settles rng b code.
Proof. intros H Hne. left. split; assumption. Qed.

(** A create request whose code is not in the table, and is not the name of
    a member of [Object.prototype], succeeds: the table gains the link, the
    record is rewritten, and the code resolves to the destination. *)
Lemma create_then_resolve (rng : nat -> byte) (w : world) (o : props)
      (body u code : text) :
  holds w o -> create_request body u (Some code) ->
  u <> [] -> code <> [] ->
  own_property o code = None -> is_inherited code = false ->
  forallb valid_header_char u = true -> reserved_path (47 :: code) = false ->
  exists w' w'',
    exec (server rng (POST_shorten body)) w = (Returned (created code), w')
    /\ table w' = Some (add_property o code (VStr u))
    /\ JSON_stringify (VObj (add_property o code (VStr u))) 2
       = Some (table_text (add_property o code (VStr u)))
    /\ links_json w' = File (table_text (add_property o code (VStr u)))
    /\ exec (server rng (GET (47 :: code))) w' = (Returned (moved u), w'').
Proof.
  intros (Ht & Hs & Hw) (b & Hbody & Hurl & Hsc) Hu Hc Hfresh Hinh Hvalid Hres.
  assert (Htruthy : truthy (get_property o code) = false)
    by (unfold truthy, get_property; now rewrite Hfresh, Hinh).
  assert (Hdef : define_property o code (VStr u) = add_property o code (VStr u))
    by (unfold define_property, has_own; now rewrite Hfresh).
  destruct (create_fresh rng w o b body u code Ht Hw Hs Hbody Hurl Hu
              (create_request_settles rng b code Hsc Hc) Htruthy)
    as (w' & Hexec & Hjson & Hfile & Htable & Hw').
  rewrite Hdef in *.
  destruct (resolve_found rng w' (add_property o code (VStr u)) code u Htable)
    as (w'' & Hget & _); try assumption.
  { rewrite <- Hdef, own_define_property, text_eqb_refl. reflexivity. }
  exists w', w''. repeat split; assumption.
Qed.

(** The last two conditions of [create_then_resolve] are needed.  A link
    whose code is one of the server's own paths is stored, but its path is
    answered by the case of the switch that comes first. *)
Example reserved_code_not_resolved :
  let w := store (File (lit "{}")) in
  let body := jlit "{'url':'http://example.com/','shortCode':'links'}" in
  let w' := snd (exec (server example_rng (POST_shorten body)) w) in
  fst (exec (server example_rng (POST_shorten body)) w) = Returned (created (lit "links"))
  /\ fst (exec (server example_rng (GET (lit "/links"))) w')
     = Returned (mkResponse 200 json_headers (jlit "{'links':'http://example.com/'}")).
Proof. cbv zeta. split; vm_compute; reflexivity. Qed.

(** A destination with a character that cannot stand in a header is stored,
    but [res.writeHead] throws on it: the error is caught and printed, and
    the answer is the 404. *)
Example unsafe_destination_not_resolved :
  let w := store (File (lit "{}")) in
  let body := jlit "{'url':'http://example.com/\u4f8b','shortCode':'abc'}" in
  let w' := snd (exec (server example_rng (POST_shorten body)) w) in
  fst (exec (server example_rng (POST_shorten body)) w) = Returned (created (lit "abc"))
  /\ table w' = Some [(lit "abc", VStr (lit "http://example.com/" ++ [20363]))]
  /\ fst (exec (server example_rng (GET (lit "/abc"))) w') = Returned not_found
  /\ last (console (snd (exec (server example_rng (GET (lit "/abc"))) w')))
          (ErrorDuringRedirection TypeError)
     = ErrorDuringRedirection ERR_INVALID_CHAR.
Proof. cbv zeta. repeat split; vm_compute; reflexivity. Qed.

(** ** Generated codes *)

Lemma hex_digit_is_hex (d : N) : d < 16 -> is_hex_digit (hex_digit d) = true.
Proof.
  intros H. unfold is_hex_digit, hex_digit, is_digit.
  destruct (N.ltb_spec d 10).
  - replace (48 <=? 48 + d) with true by (symmetry; apply N.leb_le; lia).
    replace (48 + d <=? 57) with true by (symmetry; apply N.leb_le; lia).
    reflexivity.
  - replace (97 <=? 87 + d) with true by (symmetry; apply N.leb_le; lia).
    replace (87 + d <=? 102) with true by (symmetry; apply N.leb_le; lia).
    apply orb_true_r.
Qed.

Lemma toString_hex_length (buffer : list byte) :
  List.length (toString_hex buffer) = (2 * List.length buffer)%nat.
Proof.
  unfold toString_hex. induction buffer as [|b buffer IH]; [reflexivity|].
  cbn [flat_map List.length app]. rewrite IH. lia.
Qed.

Lemma toString_hex_digits (buffer : list byte) :
  forallb is_hex_digit (toString_hex buffer) = true.
Proof.
  unfold toString_hex. induction buffer as [|b buffer IH]; [reflexivity|].
  cbn [flat_map app forallb]. rewrite IH.
  assert (B := Byte.to_N_bounded b).
  rewrite !hex_digit_is_hex; [reflexivity | apply N.mod_lt; discriminate |].
  apply N.Div0.div_lt_upper_bound. lia.
Qed.

Lemma randomBytes_length (rng : nat -> byte) (n : nat) :
  List.length (randomBytes rng n) = n.
Proof. unfold randomBytes. now rewrite length_map, length_seq. Qed.

(** ** Handlers never leave a thrown error behind a [try] *)

Lemma try_catch_answers {A : Type} (p : prog A) (handler : error -> prog A) (w : world) :
  (forall e w', exists a w'', exec (handler e) w' = (Returned a, w'')) ->
  forall e, fst (exec (try_catch p handler) w) <> Thrown e.
Proof.
  intros Hh e. rewrite exec_try_catch.
  destruct (exec p w) as [[a|e'|] w']; cbn [fst]; try discriminate.
  destruct (Hh e' w') as (a & w'' & ->). discriminate.
Qed.

Lemma shorten_store_failure (rng : nat -> byte) (body : text) (w w1 : world) (e : error) :
  exec loadLinks w = (Thrown e, w1) ->
  exec (shorten rng body) w = (Returned server_error, print w1 (ErrorProcessingPost e)).
Proof.
  intros Hload. unfold shorten. rewrite exec_try_catch, exec_bind, Hload. reflexivity.
Qed.

(** ** [GET /links] *)

Lemma server_GET_links (rng : nat -> byte) (w : world) :
  exec (server rng (GET (lit "/links"))) w =
  match exec loadLinks (print w (request_line (GET (lit "/links")))) with
  | (Returned links, w') =>
      match JSON_stringify links 0 with
      | Some text => (Returned (mkResponse 200 json_headers text), w')
      | None => (Unknown, w')
      end
  | (Thrown e, w') => (Thrown e, w')
  | (Unknown, w') => (Unknown, w')
  end.
Proof.
  unfold server, GET, request_line. cbn [method url exec].
  change (String.eqb "GET" "POST") with false. cbn [andb].
  change (String.eqb "GET" "GET") with true.
  change (text_eqb (lit "/links") (lit "/")) with false.
  change (text_eqb (lit "/links") (lit "/style.css")) with false.
  change (text_eqb (lit "/links") (lit "/index.js")) with false.
  change (text_eqb (lit "/links") (lit "/links")) with true. cbv iota.
  rewrite !exec_bind.
  destruct (exec loadLinks _) as [[links|e|] w']; try reflexivity.
  unfold stringify. rewrite exec_bind.
  destruct (JSON_stringify links 0); reflexivity.
Qed.

(** The list is answered with status 200 and the whole table in compact
    JSON when the store reads. *)
Lemma list_answered (rng : nat -> byte) (w : world) (o : props) :
  table w = Some o -> string_valued o = true ->
  exists text w',
    exec (server rng (GET (lit "/links"))) w
      = (Returned (mkResponse 200 json_headers text), w')
    /\ JSON_stringify (VObj o) 0 = Some text.
Proof.
  intros Ht Hs. rewrite server_GET_links.
  unfold table in Ht. rewrite load_print.
  destruct (exec loadLinks w) as [[[]| |] w1]; try discriminate Ht.
  cbn [fst] in Ht. injection Ht as ->. cbn [fst snd].
  assert (H : exists text, JSON_stringify (VObj o) 0 = Some text).
  { unfold JSON_stringify. cbn [Nat.min serialize].
    replace (map _ o)
      with (map (fun p => Some (member_text 0 (fst p)
                                  (match snd p with VStr s => quote s | _ => [] end))) o).
    - rewrite all_some_map_Some. eexists. reflexivity.
    - apply map_ext_in. intros [k v] Hin. unfold string_valued in Hs.
      rewrite forallb_forall in Hs. specialize (Hs _ Hin). cbn [snd fst] in *.
      destruct v; try discriminate. reflexivity. }
  destruct H as [text H]. rewrite H. eauto.
Qed.

(** Whatever error [loadLinks] throws leaves the listener: the [/links]
    case has no [try] around it. *)
Lemma list_store_failure (rng : nat -> byte) (w w1 : world) (e : error) :
  exec loadLinks w = (Thrown e, w1) ->
  exec (server rng (GET (lit "/links"))) w
  = (Thrown e, print w1 (request_line (GET (lit "/links")))).
Proof.
  intros Hload. rewrite server_GET_links, load_print, Hload. reflexivity.
Qed.

(** ** Creates served one after another *)

Lemma distinct_entries (ks : list text) (k : text) :
  distinct ks = true -> mem k ks = true ->
  List.length (filter (text_eqb k) ks) = 1%nat.
Proof.
  induction ks as [|k' ks IH]; intros Hd Hm; [discriminate|].
  cbn [distinct] in Hd. apply andb_true_iff in Hd as [Hd1 Hd2].
  rewrite mem_cons in Hm. cbn [filter].
  destruct (text_eqb k k') eqn:E.
  - apply text_eqb_eq in E. subst k'. cbn [List.length]. f_equal.
    apply negb_true_iff in Hd1. clear - Hd1.
    induction ks as [|x ks IH]; [reflexivity|].
    rewrite mem_cons in Hd1. apply orb_false_iff in Hd1 as [H1 H2].
    cbn [filter]. rewrite H1. auto.
  - cbn [orb] in Hm. auto.
Qed.

Lemma later_creates_conflict (rng : nat -> byte) (code : text) (rest : list text) :
  forall (w : world) (o : props),
    holds w o -> truthy (get_property o code) = true -> code <> [] ->
    Forall (fun body => exists u, create_request body u (Some code) /\ u <> []) rest ->
    exists w',
      serve_all rng (map POST_shorten rest) w
        = (repeat (Returned code_exists) (List.length rest), w')
      /\ holds w' o.
Proof.
  induction rest as [|body rest IH]; intros w o Hh Htaken Hc Hall.
  - exists w. split; [reflexivity | assumption].
  - inversion Hall as [|? ? (u & (b & Hb & Hurl & Hsc) & Hu) Hrest]; subst.
    destruct Hh as (Ht & Hs & Hw).
    destruct (create_taken rng w o b body u code Ht Hw Hs Hb Hurl Hu
                (create_request_settles rng b code Hsc Hc) Htaken)
      as (w1 & Hexec & Ht1 & Hw1 & _).
    destruct (IH w1 o (conj Ht1 (conj Hs Hw1)) Htaken Hc Hrest) as (w' & Hserve & Hh').
    exists w'. cbn [map serve_all List.length repeat].
    rewrite Hexec. cbn [fst snd]. rewrite Hserve. split; [reflexivity | assumption].
Qed.

(** Two creates in flight, each reading before the other writes: both are
    answered 201 and the record keeps the link written last. *)
Example two_creates_interleaved :
  let w := store (File (lit "{}")) in
  let first := server example_rng
                 (POST_shorten (jlit "{'url':'http://example.com/a','shortCode':'abc'}")) in
  let second := server example_rng
                  (POST_shorten (jlit "{'url':'http://example.com/b','shortCode':'abc'}")) in
  let final := run_pool [0; 0; 1; 1; 0; 0; 1; 1]%nat [first; second] w in
  fst final = [Ret (created (lit "abc")); Ret (created (lit "abc"))]
  /\ table (snd final) = Some [(lit "abc", VStr (lit "http://example.com/b"))].
Proof. cbv zeta. split; vm_compute; reflexivity. Qed.

(** A store failure and an unknown code get the same answer. *)
Example resolve_answers_alike :
  let broken := store (File (jlit "{'abc':")) in
  let healthy := store (File (jlit "{'xyz':'http://example.com/'}")) in
  fst (exec loadLinks broken) = Thrown SyntaxError
  /\ fst (exec (server example_rng (GET (lit "/abc"))) broken) = Returned not_found
  /\ fst (exec (server example_rng (GET (lit "/abc"))) healthy) = Returned not_found.
Proof. cbv zeta. repeat split; vm_compute; reflexivity. Qed.

(** ** A save and a reader in flight *)

Section SaveAndRead.

Variables old new : text.



Lemma step_at_nil {A : Type} (i : nat) (w : world) :
  step_at i (@nil (prog A)) w = ([], w).
Proof. destruct i; reflexivity. Qed.



End SaveAndRead.


Lemma final_code_settles (rng : nat -> byte) (b : props) (c : option text) :
  own_property b (lit "shortCode") = option_map VStr c ->
  settles rng b (final_code rng c).
Proof.
  destruct c as [[|x r]|]; cbn [option_map final_code]; intros H.
  - right. split; [right; assumption | reflexivity].
  - left. split; [assumption | discriminate].
  - right. split; [left; assumption | reflexivity].
Qed.

Lemma load_returned_unwritable (w w1 : world) (v : value) (c : string) :
  exec loadLinks w = (Returned v, w1) -> write_fault w = Some c -> w1 = w.
Proof.
  rewrite exec_loadLinks. unfold load, create_record. intros H Hw. rewrite Hw in H.
  repeat break_match_in H; injection H; intros; subst; reflexivity.
Qed.

(** ** [POST /shorten]: the failures *)

(** The record cannot be opened for writing: the error of the write is
    caught and printed, the answer is 500, and nothing is stored. *)
Lemma create_unwritable (rng : nat -> byte) (w : world) (o : props)
    (body u : text) (c : option text) (fault : string) :
  table w = Some o -> string_valued o = true ->
  write_fault w = Some fault ->
  create_request body u c -> u <> [] ->
  truthy (get_property o (final_code rng c)) = false ->
  exec (server rng (POST_shorten body)) w
  = (Returned server_error,
     print (print w (request_line (POST_shorten body)))
       (ErrorProcessingPost (SystemError fault))).
Proof.
  intros Ht Hs Hw (b & Hbody & Hurl & Hsc) Hu Hfree.
  apply table_load in Ht as [w1 Hload].
  assert (E := load_returned_unwritable _ _ _ _ Hload Hw). subst w1.
  destruct (settles_key _ _ _ (final_code_settles rng b c Hsc)) as [custom [Hcustom Hfinal]].
  rewrite server_POST_shorten. unfold shorten.
  rewrite exec_try_catch, exec_bind, load_print, Hload. cbn [fst snd]. cbv iota.
  assert (Hget : get_property b (lit "url") = Json (VStr u))
    by (unfold get_property; now rewrite Hurl).
  unfold parse. rewrite Hbody. cbn [bind destructure].
  rewrite Hget. cbn [ToBoolean known bind].
  destruct u as [|c0 u]; [congruence|]. cbn [is_empty negb].
  rewrite Hcustom. cbn [known bind]. rewrite Hfinal. cbn [ToPropertyKey bind js_get].
  rewrite (string_valued_truthy o _ Hs), Hfree. cbn [known bind].
  assert (Hset : js_set (VObj o) (final_code rng c) (Json (VStr (c0 :: u)))
                 = Ret (VObj (define_property o (final_code rng c) (VStr (c0 :: u))))).
  { unfold js_set, define_property.
    destruct (has_own o (final_code rng c)) eqn:Hown; [reflexivity|].
    destruct (text_eqb (final_code rng c) (lit "__proto__")) eqn:Hp; [|reflexivity].
    apply text_eqb_eq in Hp. rewrite Hp in Hfree, Hown.
    unfold truthy, get_property, has_own in Hfree, Hown.
    destruct (own_property o (lit "__proto__")); discriminate. }
  rewrite Hset. cbn [bind]. rewrite exec_bind.
  unfold saveLinks, stringify. rewrite exec_bind.
  rewrite (stringify_table _ (string_valued_define o _ _ Hs)). cbn [known exec].
  rewrite exec_writeFile. cbn [print write_fault]. rewrite Hw. reflexivity.
Qed.

(** The body does not parse, or is the text [null]. *)
Lemma create_malformed (rng : nat -> byte) (w w1 : world) (links : value) (body : text) :
  exec loadLinks w = (Returned links, w1) ->
  JSON_parse body = None \/ JSON_parse body = Some VNull ->
  exec (server rng (POST_shorten body)) w =
  (Returned server_error,
   print (print w1 (request_line (POST_shorten body)))
     (ErrorProcessingPost
        (match JSON_parse body with None => SyntaxError | Some _ => TypeError end))).
Proof.
  intros Hload Hbody. rewrite server_POST_shorten. unfold shorten.
  rewrite exec_try_catch, exec_bind, load_print, Hload. cbn [fst snd]. cbv iota.
  unfold parse. destruct Hbody as [E|E]; rewrite E; reflexivity.
Qed.

(** The body has no destination, or the empty one. *)
Lemma create_without_destination (rng : nat -> byte) (w w1 : world) (links : value)
      (body : text) (b : props) :
  exec loadLinks w = (Returned links, w1) ->
  JSON_parse body = Some (VObj b) ->
  own_property b (lit "url") = None \/ own_property b (lit "url") = Some (VStr []) ->
  exec (server rng (POST_shorten body)) w
  = (Returned url_required, print w1 (request_line (POST_shorten body))).
Proof.
  intros Hload Hbody Hurl. rewrite server_POST_shorten. unfold shorten.
  rewrite exec_try_catch, exec_bind, load_print, Hload. cbn [fst snd]. cbv iota.
  unfold parse. rewrite Hbody. cbn [bind destructure].
  assert (Hfalse : ToBoolean (get_property b (lit "url")) = Some false)
    by (unfold get_property; destruct Hurl as [E|E]; rewrite E; reflexivity).
  rewrite Hfalse. reflexivity.
Qed.

(** * The claims *)

(** C1.  The claim: every valid pair (destination, requested code) whose
    code is absent from the table is accepted, stored and then resolved.
    The handler tests [links[finalShortCode]], which also finds the members
    every object inherits from [Object.prototype].  With an empty table and
    the requested code [constructor] the code is absent from the table, yet
    the request is answered 400, short code already exists, and the record
    is left as it was.  ([create_then_resolve] is the statement that holds:
    it asks in addition that the code is no such member.) *)
Theorem C1_inherited_name_rejected :
  let w := store (File (lit "{}")) in
  let body := jlit "{'url':'http://example.com/','shortCode':'constructor'}" in
  holds w []
  /\ create_request body (lit "http://example.com/") (Some (lit "constructor"))
  /\ own_property [] (lit "constructor") = None
  /\ exec (server example_rng (POST_shorten body)) w
     = (Returned code_exists, print w (request_line (POST_shorten body)))
  /\ links_json (snd (exec (server example_rng (POST_shorten body)) w))
     = File (lit "{}").
Proof.
  cbv zeta. split; [repeat split|]. split.
  - eexists. split; [vm_compute; reflexivity|]. split; reflexivity.
  - repeat split; vm_compute; reflexivity.
Qed.

(** C2.  After a create request with an explicit code has succeeded, a
    second create request with the same code is answered 400, short code
    already exists, and the record and the table it holds are unchanged. *)
Theorem C2_second_create_conflicts (rng1 rng2 : nat -> byte) (w w1 : world)
    (o : props) (body1 body2 u1 u2 code : text) :
  holds w o ->
  create_request body1 u1 (Some code) -> u1 <> [] -> code <> [] ->
  create_request body2 u2 (Some code) -> u2 <> [] ->
  exec (server rng1 (POST_shorten body1)) w = (Returned (created code), w1) ->
  exists w2,
    exec (server rng2 (POST_shorten body2)) w1 = (Returned code_exists, w2)
    /\ links_json w2 = links_json w1
    /\ table w2 = table w1.
Proof.
  intros (Ht & Hs & Hw) (b1 & Hb1 & Hurl1 & Hsc1) Hu1 Hc
         (b2 & Hb2 & Hurl2 & Hsc2) Hu2 Hfirst.
  assert (Hset1 := create_request_settles rng1 b1 code Hsc1 Hc).
  assert (Hset2 := create_request_settles rng2 b2 code Hsc2 Hc).
  destruct (truthy (get_property o code)) eqn:Htaken.
  - destruct (create_taken rng1 w o b1 body1 u1 code Ht Hw Hs Hb1 Hurl1 Hu1 Hset1 Htaken)
      as (w' & Hexec & _).
    rewrite Hexec in Hfirst. discriminate Hfirst.
  - destruct (create_fresh rng1 w o b1 body1 u1 code Ht Hw Hs Hb1 Hurl1 Hu1 Hset1 Htaken)
      as (w' & Hexec & _ & Hfile & Htable & Hw').
    rewrite Hexec in Hfirst. injection Hfirst as <-.
    assert (Hnow : truthy (get_property (define_property o code (VStr u1)) code) = true).
    { unfold truthy, get_property. rewrite own_define_property, text_eqb_refl.
      destruct u1; [congruence | reflexivity]. }
    destruct (create_taken rng2 w' _ b2 body2 u2 code Htable Hw'
                (string_valued_define o code u1 Hs) Hb2 Hurl2 Hu2 Hset2 Hnow)
      as (w2 & Hexec2 & Htable2 & _ & Hkeep).
    exists w2. split; [exact Hexec2|]. split.
    + rewrite Hfile. now apply Hkeep.
    + now rewrite Htable2, Htable.
Qed.

Lemma C2_second_create_conflicts_witness :
  let w := store Missing in
  let body1 := jlit "{'url':'http://example.com/a','shortCode':'abc'}" in
  let body2 := jlit "{'url':'http://example.com/b','shortCode':'abc'}" in
  let w1 := snd (exec (server example_rng (POST_shorten body1)) w) in
  exists w2,
    exec (server example_rng (POST_shorten body2)) w1 = (Returned code_exists, w2)
    /\ links_json w2 = links_json w1
    /\ table w2 = table w1.
Proof.
  cbv zeta.
  apply (C2_second_create_conflicts example_rng example_rng (store Missing) _ []
           (jlit "{'url':'http://example.com/a','shortCode':'abc'}")
           (jlit "{'url':'http://example.com/b','shortCode':'abc'}")
           (lit "http://example.com/a") (lit "http://example.com/b") (lit "abc")).
  - repeat split.
  - exists [(lit "url", VStr (lit "http://example.com/a"));
            (lit "shortCode", VStr (lit "abc"))].
    repeat split; vm_compute; reflexivity.
  - discriminate.
  - discriminate.
  - exists [(lit "url", VStr (lit "http://example.com/b"));
            (lit "shortCode", VStr (lit "abc"))].
    repeat split; vm_compute; reflexivity.
  - discriminate.
  - vm_compute. reflexivity.
Defined.

(** C3.  A create request whose destination is the empty string, or is
    missing, is answered 400, URL is required, whatever short code it
    carries and whatever the record holds, as long as the record loads.
    Nothing is written: a record that was there is the same afterwards, and
    the store loads as before.  (When there was no record, [loadLinks] has
    created the empty one before the destination is looked at.) *)
Theorem C3_empty_destination_rejected (rng : nat -> byte) (w w1 : world)
    (links : value) (body : text) (b : props) :
  exec loadLinks w = (Returned links, w1) ->
  JSON_parse body = Some (VObj b) ->
  own_property b (lit "url") = None \/ own_property b (lit "url") = Some (VStr []) ->
  exists w',
    exec (server rng (POST_shorten body)) w = (Returned url_required, w')
    /\ fst (exec loadLinks w') = Returned links
    /\ (forall data, links_json w = File data -> links_json w' = File data).
Proof.
  intros Hload Hbody Hurl.
  pose (l := request_line (POST_shorten body)).
  assert (Hload' : exec loadLinks (print w l) = (Returned links, print w1 l))
    by (now rewrite load_print, Hload).
  exists (print w1 l). rewrite server_POST_shorten. fold l. split; [|split].
  - unfold shorten. rewrite exec_try_catch, exec_bind, Hload'. cbv iota.
    unfold parse. rewrite Hbody. cbn [bind destructure].
    assert (Hfalse : ToBoolean (get_property b (lit "url")) = Some false)
      by (unfold get_property; destruct Hurl as [E|E]; rewrite E; reflexivity).
    rewrite Hfalse. reflexivity.
  - rewrite load_print. cbn [fst]. now rewrite (load_again _ _ _ Hload).
  - intros data Hdata. cbn [print links_json].
    rewrite exec_loadLinks in Hload. unfold load in Hload. rewrite Hdata in Hload.
    repeat break_match_in Hload; injection Hload; intros; subst; assumption.
Qed.

Lemma C3_empty_destination_rejected_witness :
  let w := store (File (jlit "{'abc':'http://example.com/a'}")) in
  let body := jlit "{'url':'','shortCode':'xyz'}" in
  exists w',
    exec (server example_rng (POST_shorten body)) w = (Returned url_required, w')
    /\ fst (exec loadLinks w')
       = Returned (VObj [(lit "abc", VStr (lit "http://example.com/a"))])
    /\ (forall data, links_json w = File data -> links_json w' = File data).
Proof.
  cbv zeta.
  apply (C3_empty_destination_rejected example_rng
           (store (File (jlit "{'abc':'http://example.com/a'}")))
           (store (File (jlit "{'abc':'http://example.com/a'}")))
           (VObj [(lit "abc", VStr (lit "http://example.com/a"))])
           (jlit "{'url':'','shortCode':'xyz'}")
           [(lit "url", VStr []); (lit "shortCode", VStr (lit "xyz"))]).
  - vm_compute. reflexivity.
  - vm_compute. reflexivity.
  - right. reflexivity.
Defined.

(** C4.  [loadLinks] with no record creates the record [{}] and returns the
    empty table; with a record of length zero it returns the empty table and
    leaves the record alone; with a record that is not empty and does not
    parse it throws the [SyntaxError] of [JSON.parse] and repairs nothing. *)
Theorem C4_load (w : world) (data : text) :
  (links_json w = Missing -> write_fault w = None ->
   exec loadLinks w = (Returned (VObj []), set_links_json w (File (lit "{}"))))
  /\ (links_json w = File [] ->
      exec loadLinks w = (Returned (VObj []), w))
  /\ (links_json w = File data -> data <> [] -> JSON_parse data = None ->
      exec loadLinks w = (Thrown SyntaxError, w)).
Proof.
  rewrite exec_loadLinks. unfold load, create_record. repeat split.
  - intros -> ->. reflexivity.
  - intros ->. reflexivity.
  - intros -> Hne ->. destruct data; [congruence | reflexivity].
Qed.

Lemma C4_load_witness :
  exec loadLinks (store Missing)
    = (Returned (VObj []), set_links_json (store Missing) (File (lit "{}")))
  /\ exec loadLinks (store (File [])) = (Returned (VObj []), store (File []))
  /\ exec loadLinks (store (File (jlit "{'abc':")))
     = (Thrown SyntaxError, store (File (jlit "{'abc':"))).
Proof.
  split; [|split].
  - apply (proj1 (C4_load (store Missing) [])); reflexivity.
  - apply (proj1 (proj2 (C4_load (store (File [])) []))); reflexivity.
  - apply (proj2 (proj2 (C4_load (store (File (jlit "{'abc':"))) (jlit "{'abc':"))));
      [reflexivity | discriminate | vm_compute; reflexivity].
Defined.




(** C6, the claim as stated fails for K = 2.  Two create requests for the
    code [abc] are in flight; each reads the record before the other has
    written it, so each finds the code free, writes its own table and
    answers 201.  The record ends with the link of the request that wrote
    last. *)
Lemma C6_two_creates_both_succeed : ~ creates_serialized.
Proof.
  intros H.
  specialize (H example_rng (store (File (lit "{}"))) [] (lit "abc")
                [jlit "{'url':'http://example.com/a','shortCode':'abc'}";
                 jlit "{'url':'http://example.com/b','shortCode':'abc'}"]
                [0; 0; 1; 1; 0; 0; 1; 1]%nat).
  destruct H as [Hone _].
  - repeat split.
  - reflexivity.
  - discriminate.
  - repeat constructor.
    + exists (lit "http://example.com/a"). split; [|discriminate].
      exists [(lit "url", VStr (lit "http://example.com/a"));
              (lit "shortCode", VStr (lit "abc"))].
      repeat split; vm_compute; reflexivity.
    + exists (lit "http://example.com/b"). split; [|discriminate].
      exists [(lit "url", VStr (lit "http://example.com/b"));
              (lit "shortCode", VStr (lit "abc"))].
      repeat split; vm_compute; reflexivity.
  - discriminate.
  - vm_compute. reflexivity.
  - vm_compute in Hone. discriminate Hone.
Qed.

(** C6, amended.  When K >= 1 create requests for the same explicit code are
    served one after another against a healthy store in which the code reads
    as free, the first is answered 201 and the other K - 1 are answered 400,
    short code already exists; afterwards the table has exactly one entry
    for the code, the destination of the first request.  The handler takes
    no lock: nothing is promised for requests that overlap. *)
Theorem C6_creates_in_sequence (rng : nat -> byte) (w : world) (o : props)
    (code body u : text) (rest : list text) :
  holds w o ->
  truthy (get_property o code) = false -> code <> [] ->
  create_request body u (Some code) -> u <> [] ->
  Forall (fun body' => exists u', create_request body' u' (Some code) /\ u' <> []) rest ->
  exists w',
    serve_all rng (map POST_shorten (body :: rest)) w
      = (Returned (created code) :: repeat (Returned code_exists) (List.length rest), w')
    /\ table w' = Some (define_property o code (VStr u))
    /\ own_property (define_property o code (VStr u)) code = Some (VStr u)
    /\ entries (define_property o code (VStr u)) code = 1%nat.
Proof.
  intros (Ht & Hs & Hw) Hfree Hc (b & Hb & Hurl & Hsc) Hu Hall.
  destruct (create_fresh rng w o b body u code Ht Hw Hs Hb Hurl Hu
              (create_request_settles rng b code Hsc Hc) Hfree)
    as (w1 & Hexec & _ & _ & Ht1 & Hw1).
  assert (Hown : own_property (define_property o code (VStr u)) code = Some (VStr u))
    by (now rewrite own_define_property, text_eqb_refl).
  assert (Htaken : truthy (get_property (define_property o code (VStr u)) code) = true).
  { unfold truthy, get_property. rewrite Hown. destruct u; [congruence | reflexivity]. }
  destruct (later_creates_conflict rng code rest w1 _
              (conj Ht1 (conj (string_valued_define o code u Hs) Hw1)) Htaken Hc Hall)
    as (w' & Hserve & (Ht' & _)).
  exists w'. cbn [map serve_all]. rewrite Hexec. cbn [fst snd]. rewrite Hserve.
  split; [reflexivity|]. split; [assumption|]. split; [assumption|].
  apply table_load in Ht as [w0 Hload].
  assert (Hcan : canonical (define_property o code (VStr u)) = true)
    by (apply canonical_define_property; eapply load_canonical; eassumption).
  unfold canonical in Hcan. apply andb_true_iff in Hcan as [_ Hdis].
  unfold entries. apply distinct_entries; [assumption|].
  rewrite <- has_own_mem. unfold has_own. now rewrite Hown.
Qed.

Lemma C6_creates_in_sequence_witness :
  let w := store (File (jlit "{'xyz':'http://example.com/x'}")) in
  let o := [(lit "xyz", VStr (lit "http://example.com/x"))] in
  let body := jlit "{'url':'http://example.com/a','shortCode':'abc'}" in
  let rest := [jlit "{'url':'http://example.com/b','shortCode':'abc'}";
               jlit "{'url':'http://example.com/c','shortCode':'abc'}"] in
  exists w',
    serve_all example_rng (map POST_shorten (body :: rest)) w
      = ([Returned (created (lit "abc")); Returned code_exists; Returned code_exists], w')
    /\ table w' = Some (define_property o (lit "abc") (VStr (lit "http://example.com/a")))
    /\ own_property (define_property o (lit "abc") (VStr (lit "http://example.com/a")))
         (lit "abc") = Some (VStr (lit "http://example.com/a"))
    /\ entries (define_property o (lit "abc") (VStr (lit "http://example.com/a")))
         (lit "abc") = 1%nat.
Proof.
  cbv zeta.
  apply (C6_creates_in_sequence example_rng
           (store (File (jlit "{'xyz':'http://example.com/x'}")))
           [(lit "xyz", VStr (lit "http://example.com/x"))]
           (lit "abc")
           (jlit "{'url':'http://example.com/a','shortCode':'abc'}")
           (lit "http://example.com/a")
           [jlit "{'url':'http://example.com/b','shortCode':'abc'}";
            jlit "{'url':'http://example.com/c','shortCode':'abc'}"]).
  - repeat split.
  - reflexivity.
  - discriminate.
  - exists [(lit "url", VStr (lit "http://example.com/a"));
            (lit "shortCode", VStr (lit "abc"))].
    repeat split; vm_compute; reflexivity.
  - discriminate.
  - repeat constructor.
    + exists (lit "http://example.com/b"). split; [|discriminate].
      exists [(lit "url", VStr (lit "http://example.com/b"));
              (lit "shortCode", VStr (lit "abc"))].
      repeat split; vm_compute; reflexivity.
    + exists (lit "http://example.com/c"). split; [|discriminate].
      exists [(lit "url", VStr (lit "http://example.com/c"));
              (lit "shortCode", VStr (lit "abc"))].
      repeat split; vm_compute; reflexivity.
Defined.

(** C7.  The claim: [GET /links] answers 200 with the table when the store
    reads, and 500 when it does not.  The first half holds
    ([list_answered]).  For the second, the [/links] case calls [loadLinks]
    outside any [try]: with a record that does not parse, the error leaves
    the listener and no response is written, while [POST /shorten] in the
    same state answers 500. *)
Theorem C7_list_failure_unanswered :
  let w := store (File (jlit "{'abc':")) in
  exec loadLinks w = (Thrown SyntaxError, w)
  /\ exec (server example_rng (GET (lit "/links"))) w
     = (Thrown SyntaxError, print w (request_line (GET (lit "/links"))))
  /\ fst (exec (server example_rng
                  (POST_shorten (jlit "{'url':'http://example.com/'}"))) w)
     = Returned server_error.
Proof. cbv zeta. repeat split; vm_compute; reflexivity. Qed.

(** C8, the claim as stated fails: with a record that does not parse,
    [GET /abc] is answered with the generic 404, the answer an unknown code
    gets from a healthy store; the caller cannot tell the store failure from
    not found. *)
Lemma C8_resolve_failure_looks_like_not_found : ~ store_failures_surfaced.
Proof.
  intros H.
  apply (H example_rng (store (File (jlit "{'abc':"))) (store (File (jlit "{'abc':")))
           SyntaxError (lit "/abc")); vm_compute; reflexivity.
Qed.

(** C8, amended.  In [POST /shorten] no error is lost.  Whatever the state
    and the body, the listener does not end by throwing.  A missing or
    empty destination is answered 400, URL is required, and a code that
    reads as taken 400, short code already exists, the table as it was.
    Every error that is thrown is caught, printed and answered 500, server
    error: the error of [loadLinks] (a read failure, a record that does
    not parse, a record that cannot be created), the [SyntaxError] of a
    body that does not parse, and the error of a write that fails, after
    which the record is as it was.  In [GET /<code>] the error of
    [loadLinks] is caught and printed, and the request is answered with
    the generic 404, the answer a code that is not in the table gets. *)
Theorem C8_failures_answered (rng : nat -> byte) (w w1 : world) (e : error)
    (links : value) (o b : props) (body addr u code : text) (c : option text)
    (fault : string) :
  (forall e', fst (exec (server rng (POST_shorten body)) w) <> Thrown e')
  /\ (exec loadLinks w = (Returned links, w1) ->
      JSON_parse body = Some (VObj b) ->
      own_property b (lit "url") = None \/ own_property b (lit "url") = Some (VStr []) ->
      exec (server rng (POST_shorten body)) w
      = (Returned url_required, print w1 (request_line (POST_shorten body))))
  /\ (holds w o -> create_request body u c -> u <> [] ->
      truthy (get_property o (final_code rng c)) = true ->
      exists w',
        exec (server rng (POST_shorten body)) w = (Returned code_exists, w')
        /\ table w' = Some o
        /\ (forall data, links_json w = File data -> links_json w' = File data))
  /\ (exec loadLinks w = (Thrown e, w1) ->
      exec (server rng (POST_shorten body)) w
      = (Returned server_error,
         print (print w1 (request_line (POST_shorten body))) (ErrorProcessingPost e)))
  /\ (exec loadLinks w = (Returned links, w1) ->
      JSON_parse body = None ->
      exec (server rng (POST_shorten body)) w
      = (Returned server_error,
         print (print w1 (request_line (POST_shorten body)))
           (ErrorProcessingPost SyntaxError)))
  /\ (table w = Some o -> string_valued o = true ->
      write_fault w = Some fault ->
      create_request body u c -> u <> [] ->
      truthy (get_property o (final_code rng c)) = false ->
      exec (server rng (POST_shorten body)) w
      = (Returned server_error,
         print (print w (request_line (POST_shorten body)))
           (ErrorProcessingPost (SystemError fault))))
  /\ (exec loadLinks w = (Thrown e, w1) -> reserved_path addr = false ->
      exec (server rng (GET addr)) w
      = (Returned not_found,
         print (print w1 (request_line (GET addr))) (ErrorDuringRedirection e)))
  /\ (table w = Some o ->
      own_property o code = None -> is_inherited code = false ->
      reserved_path (47 :: code) = false ->
      fst (exec (server rng (GET (47 :: code))) w) = Returned not_found).
Proof.
  split; [|split; [|split; [|split; [|split; [|split; [|split]]]]]].
  - intros e'. rewrite server_POST_shorten. unfold shorten.
    apply try_catch_answers. intros e0 w'. eexists. eexists. reflexivity.
  - intros Hload Hbody Hurl. now apply (create_without_destination rng w w1 links body b).
  - intros (Ht & Hs & Hw) (b' & Hbody & Hurl & Hsc) Hu Htaken.
    destruct (create_taken rng w o b' body u _ Ht Hw Hs Hbody Hurl Hu
                (final_code_settles rng b' c Hsc) Htaken)
      as (w' & Hexec & Htable & _ & Hfile).
    exists w'. auto.
  - intros Hload. rewrite server_POST_shorten.
    apply shorten_store_failure. now rewrite load_print, Hload.
  - intros Hload Hbody.
    rewrite (create_malformed rng w w1 links body Hload (or_introl Hbody)).
    now rewrite Hbody.
  - intros Ht Hs Hw Hreq Hu Hfree. now apply (create_unwritable rng w o body u c fault).
  - intros Hload Hres. rewrite server_GET by assumption.
    rewrite (redirect_store_failure _ (print w1 (request_line (GET addr))) e).
    + reflexivity.
    + now rewrite load_print, Hload.
  - intros Ht Hown Hinh Hres. apply (resolve_unknown rng w o code Ht); [|assumption].
    unfold get_property. now rewrite Hown, Hinh.
Qed.

Lemma C8_failures_answered_witness :
  let broken := store (File (jlit "{'abc':")) in
  let healthy := store (File (jlit "{'abc':'http://example.com/a'}")) in
  let locked := mkWorld (File (jlit "{'abc':'http://example.com/a'}"))
                  (fun _ => Missing) (Some "EACCES"%string) [] in
  let o := [(lit "abc", VStr (lit "http://example.com/a"))] in
  let create := jlit "{'url':'http://example.com/','shortCode':'xyz'}" in
  let again := jlit "{'url':'http://example.com/','shortCode':'abc'}" in
  let empty := jlit "{'url':'','shortCode':'xyz'}" in
  exec (server example_rng (POST_shorten empty)) healthy
    = (Returned url_required, print healthy (request_line (POST_shorten empty)))
  /\ (exists w',
        exec (server example_rng (POST_shorten again)) healthy = (Returned code_exists, w')
        /\ table w' = Some o
        /\ (forall data, links_json healthy = File data -> links_json w' = File data))
  /\ exec (server example_rng (POST_shorten create)) broken
     = (Returned server_error,
        print (print broken (request_line (POST_shorten create)))
          (ErrorProcessingPost SyntaxError))
  /\ exec (server example_rng (POST_shorten (lit "url=x"))) healthy
     = (Returned server_error,
        print (print healthy (request_line (POST_shorten (lit "url=x"))))
          (ErrorProcessingPost SyntaxError))
  /\ exec (server example_rng (POST_shorten create)) locked
     = (Returned server_error,
        print (print locked (request_line (POST_shorten create)))
          (ErrorProcessingPost (SystemError "EACCES")))
  /\ exec (server example_rng (GET (lit "/abc"))) broken
     = (Returned not_found,
        print (print broken (request_line (GET (lit "/abc"))))
          (ErrorDuringRedirection SyntaxError))
  /\ fst (exec (server example_rng (GET (lit "/xyz"))) healthy) = Returned not_found.
Proof.
  cbv zeta.
  pose (o := [(lit "abc", VStr (lit "http://example.com/a"))]).
  pose (healthy := store (File (jlit "{'abc':'http://example.com/a'}"))).
  pose (broken := store (File (jlit "{'abc':"))).
  pose (locked := mkWorld (File (jlit "{'abc':'http://example.com/a'}"))
                    (fun _ => Missing) (Some "EACCES"%string) []).
  split; [|split; [|split; [|split; [|split; [|split]]]]].
  - destruct (C8_failures_answered example_rng healthy healthy SyntaxError (VObj o) o
                [(lit "url", VStr []); (lit "shortCode", VStr (lit "xyz"))]
                (jlit "{'url':'','shortCode':'xyz'}") [] [] [] None "")
      as (_ & H & _).
    apply H; [reflexivity | vm_compute; reflexivity | right; reflexivity].
  - destruct (C8_failures_answered example_rng healthy healthy SyntaxError (VObj o) o []
                (jlit "{'url':'http://example.com/','shortCode':'abc'}") []
                (lit "http://example.com/") [] (Some (lit "abc")) "")
      as (_ & _ & H & _).
    apply H; [repeat split | | discriminate | reflexivity].
    exists [(lit "url", VStr (lit "http://example.com/"));
            (lit "shortCode", VStr (lit "abc"))].
    repeat split; vm_compute; reflexivity.
  - destruct (C8_failures_answered example_rng broken broken SyntaxError VNull [] []
                (jlit "{'url':'http://example.com/','shortCode':'xyz'}") [] [] [] None "")
      as (_ & _ & _ & H & _).
    apply H. vm_compute. reflexivity.
  - destruct (C8_failures_answered example_rng healthy healthy SyntaxError (VObj o) o []
                (lit "url=x") [] [] [] None "")
      as (_ & _ & _ & _ & H & _).
    apply H; vm_compute; reflexivity.
  - destruct (C8_failures_answered example_rng locked locked SyntaxError VNull o []
                (jlit "{'url':'http://example.com/','shortCode':'xyz'}") []
                (lit "http://example.com/") [] (Some (lit "xyz")) "EACCES")
      as (_ & _ & _ & _ & _ & H & _).
    apply H; [reflexivity | reflexivity | reflexivity | | discriminate | reflexivity].
    exists [(lit "url", VStr (lit "http://example.com/"));
            (lit "shortCode", VStr (lit "xyz"))].
    repeat split; vm_compute; reflexivity.
  - destruct (C8_failures_answered example_rng broken broken SyntaxError VNull [] []
                [] (lit "/abc") [] [] None "")
      as (_ & _ & _ & _ & _ & _ & H & _).
    apply H; vm_compute; reflexivity.
  - destruct (C8_failures_answered example_rng healthy healthy SyntaxError VNull o []
                [] [] [] (lit "xyz") None "")
      as (_ & _ & _ & _ & _ & _ & _ & H).
    apply H; reflexivity.
Defined.

(** C9.  Saving the table just loaded leaves the content of the record as it
    was: the record loads as the same table afterwards, and doing it again
    changes nothing at all.  (The text may change: a record of length zero,
    or one laid out differently, becomes the two-space layout of
    [JSON.stringify].) *)
Theorem C9_save_load_idempotent (w w1 : world) (o : props) :
  exec loadLinks w = (Returned (VObj o), w1) ->
  string_valued o = true ->
  write_fault w = None ->
  exists w2,
    exec (links <- loadLinks ;; saveLinks links) w = (Returned tt, w2)
    /\ exec loadLinks w2 = (Returned (VObj o), w2)
    /\ exec (links <- loadLinks ;; saveLinks links) w2 = (Returned tt, w2).
Proof.
  intros Hload Hs Hw.
  destruct (load_keeps _ _ _ Hload) as [Hw1 _]. rewrite Hw in Hw1.
  assert (Hc := load_canonical _ _ _ Hload).
  exists (set_links_json w1 (File (table_text o))).
  rewrite !exec_bind, Hload. cbv iota.
  rewrite (exec_saveLinks w1 o Hs Hw1).
  rewrite (load_table_text w1 o Hs Hc). cbv iota.
  rewrite exec_saveLinks by assumption.
  repeat split.
Qed.

Lemma C9_save_load_idempotent_witness :
  let w := store (File (jlit "{'b':'http://example.com/b', '7':'http://example.com/7'}")) in
  let o := [(lit "7", VStr (lit "http://example.com/7"));
            (lit "b", VStr (lit "http://example.com/b"))] in
  exists w2,
    exec (links <- loadLinks ;; saveLinks links) w = (Returned tt, w2)
    /\ exec loadLinks w2 = (Returned (VObj o), w2)
    /\ exec (links <- loadLinks ;; saveLinks links) w2 = (Returned tt, w2).
Proof.
  cbv zeta.
  apply (C9_save_load_idempotent
           (store (File (jlit "{'b':'http://example.com/b', '7':'http://example.com/7'}")))
           (store (File (jlit "{'b':'http://example.com/b', '7':'http://example.com/7'}")))).
  - vm_compute. reflexivity.
  - reflexivity.
  - reflexivity.
Defined.

(** C10.  A create request whose [shortCode] is the empty string runs
    exactly as the request without [shortCode]: in every state both end
    with the same answer and the same state.  The code is then the
    hexadecimal spelling of four bytes from the generator, eight characters
    long; when that code reads as free in a healthy store it is the code
    answered and the key under which the destination is stored. *)
Theorem C10_empty_code_generates (rng : nat -> byte) (w : world)
    (body1 body2 u : text) :
  create_request body1 u (Some []) ->
  create_request body2 u None ->
  u <> [] ->
  let code := toString_hex (randomBytes rng 4) in
  exec (server rng (POST_shorten body1)) w = exec (server rng (POST_shorten body2)) w
  /\ List.length code = 8%nat
  /\ forallb is_hex_digit code = true
  /\ (forall o, holds w o -> truthy (get_property o code) = false ->
      exists w',
        exec (server rng (POST_shorten body1)) w = (Returned (created code), w')
        /\ table w' = Some (define_property o code (VStr u))
        /\ links_json w' = File (table_text (define_property o code (VStr u)))).
Proof.
  intros (b1 & Hb1 & Hurl1 & Hsc1) (b2 & Hb2 & Hurl2 & Hsc2) Hu code.
  cbn [option_map] in Hsc1, Hsc2.
  split; [|split; [|split]].
  - rewrite !server_POST_shorten.
    change (request_line (POST_shorten body2)) with (request_line (POST_shorten body1)).
    unfold shorten. rewrite !exec_try_catch, !exec_bind.
    destruct (exec loadLinks _) as [[links| |] w1]; try reflexivity.
    unfold parse. rewrite Hb1, Hb2. cbn [bind destructure].
    unfold get_property. rewrite Hurl1, Hurl2, Hsc1, Hsc2.
    reflexivity.
  - unfold code. now rewrite toString_hex_length, randomBytes_length.
  - apply toString_hex_digits.
  - intros o (Ht & Hs & Hw) Hfree.
    destruct (create_fresh rng w o b1 body1 u code Ht Hw Hs Hb1 Hurl1 Hu) as
      (w' & Hexec & _ & Hfile & Htable & _); [|assumption|].
    + right. split; [now right | reflexivity].
    + exists w'. repeat split; assumption.
Qed.

Lemma C10_empty_code_generates_witness :
  let body1 := jlit "{'url':'http://example.com/','shortCode':''}" in
  let body2 := jlit "{'url':'http://example.com/'}" in
  let w := store (File (jlit "{'abc':'http://example.com/a'}")) in
  let code := toString_hex (randomBytes example_rng 4) in
  code = lit "00ab0fff"
  /\ exec (server example_rng (POST_shorten body1)) w
     = exec (server example_rng (POST_shorten body2)) w
  /\ List.length code = 8%nat.
Proof.
  cbv zeta. split; [reflexivity|].
  destruct (C10_empty_code_generates example_rng
              (store (File (jlit "{'abc':'http://example.com/a'}")))
              (jlit "{'url':'http://example.com/','shortCode':''}")
              (jlit "{'url':'http://example.com/'}")
              (lit "http://example.com/")) as (H1 & H2 & _).
  - exists [(lit "url", VStr (lit "http://example.com/")); (lit "shortCode", VStr [])].
    repeat split; vm_compute; reflexivity.
  - exists [(lit "url", VStr (lit "http://example.com/"))].
    repeat split; vm_compute; reflexivity.
  - discriminate.
  - split; assumption.
Defined.

(** * Further properties *)

(** ** [JSON.parse] reads back what [JSON.stringify] writes *)

Lemma value_nested_ind (P : value -> Prop) :
  P VNull ->
  (forall b, P (VBool b)) ->
  (forall l, P (VNum l)) ->
  (forall s, P (VStr s)) ->
  (forall items, Forall P items -> P (VArr items)) ->
  (forall members, Forall (fun p => P (snd p)) members -> P (VObj members)) ->
  forall v, P v.
Proof.
  intros Hnull Hbool Hnum Hstr Harr Hobj.
  fix IH 1. intros [| b | l | s | items | members].
  - exact Hnull.
  - apply Hbool.
  - apply Hnum.
  - apply Hstr.
  - apply Harr. induction items as [|x items IHitems]; constructor.
    + apply IH.
    + exact IHitems.
  - apply Hobj. induction members as [|[k x] members IHmembers]; constructor.
    + apply IH.
    + exact IHmembers.
Qed.

Lemma skip_ws_pad (gap k : nat) (x : text) : skip_ws (pad gap k ++ x) = skip_ws x.
Proof.
  unfold pad, newline_indent. destruct gap; [reflexivity|].
  cbn [app skip_ws is_ws]. change (10 =? 32) with false. change (10 =? 9) with false.
  change (10 =? 10) with true. cbn [orb].
  induction k as [|k IH]; [reflexivity|]. cbn [repeat app skip_ws]. exact IH.
Qed.

Lemma wrap_pad (opening closing : N) (gap indent : nat) (p : text) (parts : list text) :
  wrap opening closing gap indent (p :: parts)
  = opening :: pad gap (indent + gap)
      ++ join (44 :: pad gap (indent + gap)) (p :: parts)
      ++ pad gap indent ++ [closing].
Proof. unfold wrap, pad. destruct gap; reflexivity. Qed.

Lemma member_text_pad (gap : nat) (k v : text) :
  exists colon_pad,
    member_text gap k v = 34 :: quote_units k ++ 34 :: 58 :: colon_pad ++ v
    /\ forall x, skip_ws (colon_pad ++ x) = skip_ws x.
Proof.
  unfold member_text, quote. destruct gap.
  - exists []. split; [|reflexivity]. cbn [app]. now rewrite <- app_assoc.
  - exists [32]. split; [|reflexivity]. cbn [app]. now rewrite <- app_assoc.
Qed.

Lemma all_some_Forall2 {A B : Type} (f : A -> option B) (l : list A) (parts : list B) :
  all_some (map f l) = Some parts -> Forall2 (fun x t => f x = Some t) l parts.
Proof.
  revert parts. induction l as [|x l IH]; intros parts H; cbn [map all_some] in H.
  - injection H as <-. constructor.
  - destruct (f x) as [t|] eqn:E; [|discriminate].
    destruct (all_some (map f l)) as [ts|]; [|discriminate].
    injection H as <-. constructor; auto.
Qed.

(** What [serialize] writes starts with a character that is not white
    space. *)
Lemma serialize_start (gap indent : nat) (v : value) (t : text) :
  serialize gap indent v = Some t ->
  exists c r, t = c :: r /\ is_ws c = false.
Proof.
  destruct v as [| [|] | l | s | items | members]; cbn [serialize]; intros H;
    try discriminate H; try (injection H as <-; eexists; eexists; split; reflexivity).
  - destruct (all_some _) as [parts|]; [|discriminate].
    injection H as <-. unfold wrap.
    destruct parts; [|destruct gap]; eexists; eexists; split; reflexivity.
  - destruct (all_some _) as [parts|]; [|discriminate].
    injection H as <-. unfold wrap.
    destruct parts; [|destruct gap]; eexists; eexists; split; reflexivity.
Qed.

Lemma skip_ws_start (t x : text) :
  (exists c r, t = c :: r /\ is_ws c = false) -> skip_ws (t ++ x) = t ++ x.
Proof. intros (c & r & -> & H). cbn [app skip_ws]. now rewrite H. Qed.


Lemma join_start (sep p : text) (parts : list text) (x : text) :
  (exists c r, p = c :: r /\ is_ws c = false) ->
  skip_ws (join sep (p :: parts) ++ x) = join sep (p :: parts) ++ x.
Proof.
  intros (c & r & -> & H). destruct parts; cbn [join app skip_ws]; now rewrite H.
Qed.

Lemma skip_ws_keep (c : N) (x : text) :
  is_ws c = false -> skip_ws (c :: x) = c :: x.
Proof. intros H. cbn [skip_ws]. now rewrite H. Qed.

Lemma elements_read_back (gap k j : nat) (items : list value) (parts : list text) :
  Forall2 (fun x t => serialize gap k x = Some t) items parts ->
  Forall reads_back items ->
  items <> [] ->
  forall (acc : list value) (rest : text) (fuel : nat),
    (List.length (join (44%N :: pad gap k) parts ++ pad gap j ++ [93%N]) <= fuel)%nat ->
    parse_elements fuel acc (join (44 :: pad gap k) parts ++ pad gap j ++ 93 :: rest)
    = Some (VArr (acc ++ items), rest).
Proof.
  induction 1 as [|x t items parts Hx Hrest IH]; intros Hall Hne acc rest fuel Hfuel;
    [congruence|].
  inversion Hall as [|? ? Hback Hall']; subst.
  destruct fuel as [|fuel];
    [rewrite !length_app in Hfuel; cbn [List.length] in Hfuel; lia|].
  cbn [parse_elements].
  destruct Hrest as [|y u items parts Hy Hrest].
  - cbn [join] in *.
    rewrite (Hback gap k t Hx) by (rewrite !length_app in Hfuel; cbn [List.length] in Hfuel; lia).
    rewrite skip_ws_pad, skip_ws_keep by reflexivity.
    change (93 =? 44) with false. change (93 =? 93) with true. reflexivity.
  - rewrite join_cons in *. rewrite <- !app_assoc.
    rewrite (Hback gap k t Hx) by (rewrite !length_app in Hfuel; cbn [List.length] in Hfuel; lia).
    cbn [app]. rewrite skip_ws_keep by reflexivity.
    change (44 =? 44) with true. cbv iota.
    rewrite skip_ws_pad.
    rewrite join_start by (eapply serialize_start; eassumption).
    rewrite (IH Hall') by
      (try discriminate; rewrite !length_app in *; cbn [List.length] in *; lia).
    now rewrite <- app_assoc.
Qed.


Lemma members_read_back (gap k j : nat) (members : props) (parts : list text) :
  Forall2 (fun p t => option_map (member_text gap (fst p)) (serialize gap k (snd p))
                      = Some t) members parts ->
  Forall (fun p => reads_back (snd p)) members ->
  members <> [] ->
  forall (acc : props) (rest : text) (fuel : nat),
    (List.length (join (44%N :: pad gap k) parts ++ pad gap j ++ [125%N]) <= fuel)%nat ->
    parse_members fuel acc (join (44 :: pad gap k) parts ++ pad gap j ++ 125 :: rest)
    = Some (VObj (fold_left (fun a p => define_property a (fst p) (snd p)) members acc),
            rest).
Proof.
  induction 1 as [|[key x] t members parts Hx Hrest IH];
    intros Hall Hne acc rest fuel Hfuel; [congruence|].
  inversion Hall as [|? ? Hback Hall']; subst. cbn [fst snd] in *.
  destruct (serialize gap k x) as [vt|] eqn:Hvt; [|discriminate].
  injection Hx as <-.
  destruct (member_text_pad gap key vt) as (cp & Ht & Hcp).
  assert (Hstart := serialize_start _ _ _ _ Hvt).
  destruct fuel as [|fuel];
    [rewrite !length_app in Hfuel; cbn [List.length] in Hfuel; lia|].
  cbn [parse_members fold_left fst snd].
  assert (Hmember : forall tail,
    (List.length (member_text gap key vt) < S fuel)%nat ->
    parse_members (S fuel) acc (member_text gap key vt ++ tail)
    = match skip_ws tail with
      | [] => None
      | e :: r =>
          if e =? 44
          then parse_members fuel (define_property acc key x) (skip_ws r)
          else if e =? 125 then Some (VObj (define_property acc key x), r)
          else None
      end).
  { intros tail Hlen. rewrite Ht in *. cbn [app parse_members].
    change (34 =? 34) with true. cbv iota.
    rewrite <- app_assoc. cbn [app]. rewrite parse_chars_quote_units.
    rewrite skip_ws_keep by reflexivity. change (58 =? 58) with true. cbv iota.
    rewrite <- app_assoc, Hcp, skip_ws_start by assumption.
    rewrite (Hback gap k vt Hvt); [reflexivity|].
    cbn [List.length] in Hlen. rewrite !length_app in Hlen.
    cbn [List.length] in Hlen. rewrite !length_app in Hlen. lia. }
  destruct Hrest as [|[key' y] u members parts Hy Hrest].
  - cbn [join fold_left] in *.
    change (parse_members (S fuel) acc
              (member_text gap key vt ++ pad gap j ++ 125 :: rest)
            = Some (VObj (define_property acc key x), rest)).
    rewrite Hmember by (rewrite !length_app in Hfuel; cbn [List.length] in Hfuel; lia).
    rewrite skip_ws_pad, skip_ws_keep by reflexivity.
    change (125 =? 44) with false. change (125 =? 125) with true. reflexivity.
  - rewrite join_cons in *. rewrite <- !app_assoc.
    change (parse_members (S fuel) acc
              (member_text gap key vt ++ (44 :: pad gap k)
                 ++ join (44 :: pad gap k) (u :: parts) ++ pad gap j ++ 125 :: rest)
            = Some (VObj (fold_left (fun a p => define_property a (fst p) (snd p))
                            ((key', y) :: members) (define_property acc key x)),
                    rest)).
    rewrite Hmember by (rewrite !length_app in Hfuel; cbn [List.length] in Hfuel; lia).
    cbn [app]. rewrite skip_ws_keep by reflexivity.
    change (44 =? 44) with true. cbv iota.
    rewrite skip_ws_pad.
    assert (Hu : exists c r, u = c :: r /\ is_ws c = false).
    { cbn [fst snd] in Hy. destruct (serialize gap k y); [|discriminate].
      injection Hy as <-. unfold member_text, quote. eexists. eexists.
      split; reflexivity. }
    rewrite join_start by exact Hu.
    apply (IH Hall'); [discriminate|].
    rewrite !length_app in *. cbn [List.length] in *. lia.
Qed.

(** The general round trip: a well-formed value that [JSON.stringify] can
    write is read back by [JSON.parse], whatever the indentation. *)
Lemma serialize_reads_back (v : value) : well_formed v = true -> reads_back v.
Proof.
  induction v as [| b | l | s | items IH | members IH] using value_nested_ind;
    intros Hwf gap indent t Ht rest fuel Hfuel; cbn [serialize] in Ht.
  - injection Ht as <-. destruct fuel; [cbn in Hfuel; lia | reflexivity].
  - destruct b; injection Ht as <-; (destruct fuel; [cbn in Hfuel; lia | reflexivity]).
  - discriminate.
  - injection Ht as <-. destruct fuel; [cbn in Hfuel; lia|].
    unfold quote. cbn [app parse_value].
    change (34 =? 123) with false. change (34 =? 91) with false.
    change (34 =? 34) with true. cbv iota.
    rewrite <- app_assoc. cbn [app]. now rewrite parse_chars_quote_units.
  - destruct (all_some _) as [parts|] eqn:Hparts; [|discriminate].
    injection Ht as <-. apply all_some_Forall2 in Hparts.
    cbn [well_formed] in Hwf. rewrite forallb_forall in Hwf.
    assert (Hback : Forall reads_back items).
    { rewrite Forall_forall in *. intros x Hin. apply IH; auto. }
    destruct Hparts as [|x p items parts Hx Hrest].
    + destruct fuel; [cbn in Hfuel; lia | reflexivity].
    + rewrite wrap_pad in *. destruct fuel as [|fuel]; [cbn in Hfuel; lia|].
      cbn [app parse_value].
      change (91 =? 123) with false. change (91 =? 91) with true. cbv iota.
      rewrite <- !app_assoc, skip_ws_pad.
      rewrite join_start by (eapply serialize_start; eassumption).
      assert (Hfirst : exists d r,
                join (44 :: pad gap (indent + gap)) (p :: parts)
                  ++ pad gap indent ++ [93] ++ rest = d :: r
                /\ (d =? 93) = false).
      { destruct (serialize_start _ _ _ _ Hx) as (c & r & -> & Hc).
        destruct x as [| [|] | | | |]; cbn [serialize] in Hx; try discriminate Hx;
          try (injection Hx as <- <-; destruct parts; eexists; eexists;
               split; reflexivity);
          (destruct (all_some _) as [ps|]; [|discriminate Hx];
           unfold wrap in Hx; destruct ps; [|destruct gap];
           injection Hx as <- <-; destruct parts; eexists; eexists;
           split; reflexivity). }
      destruct Hfirst as (d & r & Hd & Hd93). rewrite Hd, Hd93, <- Hd.
      cbn [app].
      apply (elements_read_back gap (indent + gap) indent (x :: items) (p :: parts)
               (Forall2_cons _ _ Hx Hrest) Hback ltac:(discriminate) []).
      clear Hd. cbn [List.length] in Hfuel. rewrite !length_app in *.
      cbn [List.length] in *. unfold text in *. lia.
  - destruct (all_some _) as [parts|] eqn:Hparts; [|discriminate].
    injection Ht as <-. apply all_some_Forall2 in Hparts.
    cbn [well_formed] in Hwf. apply andb_true_iff in Hwf as [Hcan Hwf].
    rewrite forallb_forall in Hwf.
    assert (Hback : Forall (fun p => reads_back (snd p)) members).
    { rewrite Forall_forall in *. intros x Hin. apply IH; auto. }
    destruct Hparts as [|[key x] p members parts Hx Hrest].
    + destruct fuel; [cbn in Hfuel; lia | reflexivity].
    + rewrite wrap_pad in *. destruct fuel as [|fuel]; [cbn in Hfuel; lia|].
      cbn [app parse_value].
      change (123 =? 123) with true. cbv iota.
      rewrite <- !app_assoc, skip_ws_pad.
      assert (Hp : exists r, p = 34 :: r).
      { cbn [fst snd] in Hx. destruct (serialize gap (indent + gap) x); [|discriminate].
        injection Hx as <-. unfold member_text, quote. eexists. reflexivity. }
      destruct Hp as [r0 ->].
      rewrite join_start by (eexists; eexists; split; reflexivity).
      match goal with
      | |- match ?X with _ => _ end = _ =>
          assert (Hfirst : exists r, X = 34 :: r)
            by (destruct parts; eexists; reflexivity);
          destruct Hfirst as (r & Hd); rewrite Hd;
          change (34 =? 125) with false; cbv iota; rewrite <- Hd
      end.
      cbn [app].
      rewrite (members_read_back gap (indent + gap) indent
                 ((key, x) :: members) ((34 :: r0) :: parts)
                 (Forall2_cons _ _ Hx Hrest) Hback ltac:(discriminate) []).
      * now rewrite (fold_define_property ((key, x) :: members) []).
      * clear Hd. cbn [List.length] in Hfuel. rewrite !length_app in *.
        cbn [List.length] in *. unfold text in *. lia.
Qed.


Lemma JSON_round_trip (v : value) (space : nat) (t : text) :
  well_formed v = true -> JSON_stringify v space = Some t -> JSON_parse t = Some v.
Proof.
  intros Hwf Ht. unfold JSON_stringify in Ht. unfold JSON_parse.
  rewrite <- (app_nil_r t) at 2.
  rewrite skip_ws_start by (eapply serialize_start; eassumption).
  rewrite (serialize_reads_back v Hwf _ _ t Ht [] (S (List.length t))) by lia.
  reflexivity.
Qed.

(** ** What [JSON.parse] builds is well formed at every depth *)

Lemma Forall_update_property (P : value -> Prop) (o : props) (k : text) (v : value) :
  Forall (fun p => P (snd p)) o -> P v ->
  Forall (fun p => P (snd p)) (update_property o k v).
Proof.
  intros Ho Hv. induction Ho as [|[k' v'] o Hp Ho IH]; cbn [update_property].
  - constructor.
  - destruct (text_eqb k' k); constructor; auto.
Qed.

Lemma Forall_insert_index (P : value -> Prop) (o : props) (n : N) (k : text) (v : value) :
  Forall (fun p => P (snd p)) o -> P v ->
  Forall (fun p => P (snd p)) (insert_index o n k v).
Proof.
  intros Ho Hv. induction Ho as [|[k' v'] o Hp Ho IH]; cbn [insert_index].
  - constructor; [exact Hv | constructor].
  - destruct (array_index k') as [n'|]; [destruct (n <? n')|];
      repeat (constructor; auto).
Qed.

Lemma Forall_define_property (P : value -> Prop) (o : props) (k : text) (v : value) :
  Forall (fun p => P (snd p)) o -> P v ->
  Forall (fun p => P (snd p)) (define_property o k v).
Proof.
  intros Ho Hv. unfold define_property, add_property.
  destruct (has_own o k); [now apply Forall_update_property|].
  destruct (array_index k); [now apply Forall_insert_index|].
  apply Forall_app. split; [assumption | constructor; [exact Hv | constructor]].
Qed.

Lemma well_formed_object (o : props) :
  well_formed (VObj o) = true <->
  canonical o = true /\ Forall (fun p => well_formed (snd p) = true) o.
Proof.
  cbn [well_formed]. rewrite andb_true_iff, forallb_forall, Forall_forall. reflexivity.
Qed.

Lemma well_formed_define (o : props) (k : text) (v : value) :
  well_formed (VObj o) = true -> well_formed v = true ->
  well_formed (VObj (define_property o k v)) = true.
Proof.
  rewrite !well_formed_object. intros [Hc Hall] Hv. split.
  - now apply canonical_define_property.
  - now apply (Forall_define_property (fun x => well_formed x = true)).
Qed.

Lemma well_formed_snoc (acc : list value) (v : value) :
  well_formed (VArr acc) = true -> well_formed v = true ->
  well_formed (VArr (acc ++ [v])) = true.
Proof.
  cbn [well_formed]. intros Hacc Hv. rewrite forallb_app, Hacc. cbn [forallb].
  now rewrite Hv.
Qed.

Lemma parse_scalar_well_formed (t : text) (v : value) (rest : text) :
  parse_scalar t = Some (v, rest) -> well_formed v = true.
Proof.
  unfold parse_scalar. intros H. repeat break_match_in H; injection H as <- _; reflexivity.
Qed.

Lemma parse_well_formed (n : nat) :
  (forall t v rest, parse_value n t = Some (v, rest) -> well_formed v = true)
  /\ (forall acc t v rest,
        parse_members n acc t = Some (v, rest) ->
        well_formed (VObj acc) = true -> well_formed v = true)
  /\ (forall acc t v rest,
        parse_elements n acc t = Some (v, rest) ->
        well_formed (VArr acc) = true -> well_formed v = true).
Proof.
  induction n as [|n (IHv & IHm & IHe)]; [repeat split; discriminate|].
  split; [|split].
  - intros t v rest H. cbn [parse_value] in H.
    repeat break_match_in H;
      try (injection H as <- _; reflexivity);
      try (eapply IHm; [eassumption | reflexivity]);
      try (eapply IHe; [eassumption | reflexivity]).
    eapply parse_scalar_well_formed; eassumption.
  - intros acc t v rest H Hacc. cbn [parse_members] in H.
    repeat break_match_in H.
    + eapply IHm; [eassumption|]. apply well_formed_define; [assumption|].
      eapply IHv; eassumption.
    + injection H as <- _. apply well_formed_define; [assumption|].
      eapply IHv; eassumption.
  - intros acc t v rest H Hacc. cbn [parse_elements] in H.
    repeat break_match_in H.
    + eapply IHe; [eassumption|]. apply well_formed_snoc; [assumption|].
      eapply IHv; eassumption.
    + injection H as <- _. apply well_formed_snoc; [assumption|].
      eapply IHv; eassumption.
Qed.

Lemma JSON_parse_well_formed (t : text) (v : value) :
  JSON_parse t = Some v -> well_formed v = true.
Proof.
  unfold JSON_parse. intros H. repeat break_match_in H. injection H as <-.
  destruct (parse_well_formed (S (List.length t))) as [Hv _]. eapply Hv; eassumption.
Qed.

Lemma load_well_formed (w w1 : world) (v : value) :
  exec loadLinks w = (Returned v, w1) -> well_formed v = true.
Proof.
  rewrite exec_loadLinks. unfold load, create_record. intros H.
  repeat break_match_in H; injection H; intros; subst;
    solve [reflexivity | eapply JSON_parse_well_formed; eassumption].
Qed.


(** ** The store: further properties *)

Lemma stringify_nonempty (v : value) (space : nat) (t : text) :
  JSON_stringify v space = Some t -> exists c r, t = c :: r.
Proof.
  intros H. destruct (serialize_start _ _ _ _ H) as (c & r & -> & _). eauto.
Qed.

(** X1.  What [saveLinks] has written, [loadLinks] reads back: after a save
    that returned, the record is the serialised value and loading it gives
    the saved value, nested arrays and objects included, and touches
    nothing. *)
Theorem saved_links_load_back (w w' : world) (links : value) :
  well_formed links = true ->
  exec (saveLinks links) w = (Returned tt, w') ->
  exists t,
    JSON_stringify links 2 = Some t
    /\ links_json w' = File t
    /\ exec loadLinks w' = (Returned links, w').
Proof.
  intros Hwf Hsave. unfold saveLinks, stringify in Hsave.
  rewrite exec_bind in Hsave.
  destruct (JSON_stringify links 2) as [t|] eqn:Ht; [|discriminate Hsave].
  cbn [known exec] in Hsave. rewrite exec_writeFile in Hsave.
  destruct (write_fault w); [discriminate Hsave|]. injection Hsave as <-.
  exists t. split; [reflexivity|]. split; [reflexivity|].
  rewrite exec_loadLinks. unfold load. cbn [links_json set_links_json].
  destruct (stringify_nonempty _ _ _ Ht) as (c & r & ->).
  now rewrite (JSON_round_trip links 2 (c :: r) Hwf Ht).
Qed.

Lemma saved_links_load_back_witness :
  let links :=
    VObj [(lit "7", VStr (lit "http://example.com/7"));
          (lit "abc", VArr [VBool true; VNull; VObj [(lit "k", VStr (lit "v"))]])] in
  let w := store Missing in
  let w' := snd (exec (saveLinks links) w) in
  exists t,
    JSON_stringify links 2 = Some t
    /\ links_json w' = File t
    /\ exec loadLinks w' = (Returned links, w').
Proof.
  cbv zeta.
  apply (saved_links_load_back (store Missing)); vm_compute; reflexivity.
Defined.

(** X2.  Once [loadLinks] has returned, loading again returns the same value
    and changes nothing; and a load that finds a record never changes the
    state at all, whatever the record holds. *)
Theorem load_is_repeatable (w w1 : world) (links : value) :
  exec loadLinks w = (Returned links, w1) ->
  exec loadLinks w1 = (Returned links, w1)
  /\ (forall data, links_json w = File data -> w1 = w).
Proof.
  intros Hload. split; [eapply load_again; eassumption|].
  intros data Hdata. rewrite exec_loadLinks in Hload. unfold load in Hload.
  rewrite Hdata in Hload.
  repeat break_match_in Hload; injection Hload; intros; subst; reflexivity.
Qed.

Lemma load_is_repeatable_witness :
  let w := store Missing in
  let w1 := set_links_json w (File (lit "{}")) in
  exec loadLinks w1 = (Returned (VObj []), w1)
  /\ (forall data, links_json w = File data -> w1 = w).
Proof.
  cbv zeta. apply (load_is_repeatable (store Missing)). reflexivity.
Defined.

(** X3.  [loadLinks] repairs nothing but a missing file.  A read that fails
    with any other system error is rethrown as it is; and when the file is
    missing and cannot be created, the error of the write is thrown.  In
    both cases the state is left as it was. *)
Theorem load_surfaces_io_errors (w : world) (c : string) :
  (links_json w = Faulty c -> c <> "ENOENT"%string ->
   exec loadLinks w = (Thrown (SystemError c), w))
  /\ (links_json w = Missing -> write_fault w = Some c ->
      exec loadLinks w = (Thrown (SystemError c), w)).
Proof.
  rewrite exec_loadLinks. unfold load, create_record. split.
  - intros -> Hc. apply String.eqb_neq in Hc. now rewrite Hc.
  - intros -> ->. reflexivity.
Qed.

Lemma load_surfaces_io_errors_witness :
  exec loadLinks (store (Faulty "EACCES"))
    = (Thrown (SystemError "EACCES"), store (Faulty "EACCES"))
  /\ exec loadLinks (mkWorld Missing (fun _ => Missing) (Some "EROFS"%string) [])
     = (Thrown (SystemError "EROFS"),
        mkWorld Missing (fun _ => Missing) (Some "EROFS"%string) []).
Proof.
  split.
  - apply (proj1 (load_surfaces_io_errors (store (Faulty "EACCES")) "EACCES"));
      [reflexivity | discriminate].
  - apply (proj2 (load_surfaces_io_errors
                    (mkWorld Missing (fun _ => Missing) (Some "EROFS"%string) [])
                    "EROFS")); reflexivity.
Defined.


(** ** The routes that do not look a code up *)

(** X4.  The three static paths are answered from [public/] whatever the
    state of the link store: with the content of the file, status 200 and
    the content type of the route when the file reads; with status 500,
    plain text, and the error printed when it does not.  The handler does
    not throw and the record is not touched. *)
Theorem static_files_served (rng : nat -> byte) (w : world) (addr : text)
    (name contentType : string) :
  In (addr, (name, contentType)) static_routes ->
  exec (server rng (GET addr)) w =
  match read w (PUBLIC name) with
  | inr data =>
      (Returned (mkResponse 200 [("Content-Type"%string, lit contentType)] data),
       print w (request_line (GET addr)))
  | inl e =>
      (Returned internal_error,
       print (print w (request_line (GET addr))) (ErrorReadingFile (PUBLIC name) e))
  end.
Proof.
  intros [E|[E|[E|[]]]]; injection E as <- <- <-;
    unfold server, GET, request_line, serveFile; cbn [method url exec];
    change (String.eqb "GET" "POST") with false; cbn [andb];
    change (String.eqb "GET" "GET") with true;
    repeat match goal with
           | |- context [text_eqb ?a ?b] =>
               let v := eval vm_compute in (text_eqb a b) in
               change (text_eqb a b) with v
           end;
    cbv iota;
    rewrite !exec_bind, exec_try_catch, exec_bind, exec_readFile;
    unfold read, lookup; cbn [print public];
    destruct (public w _); reflexivity.
Qed.

Lemma static_files_served_witness :
  let page := lit "<!DOCTYPE html>" in
  let w := mkWorld (File (jlit "{'abc':"))
             (fun name => if String.eqb name "index.html" then File page else Missing)
             None [] in
  exec (server example_rng (GET (lit "/"))) w
    = (Returned (mkResponse 200 [("Content-Type"%string, lit "text/html")] page),
       print w (request_line (GET (lit "/"))))
  /\ exec (server example_rng (GET (lit "/style.css"))) w
     = (Returned internal_error,
        print (print w (request_line (GET (lit "/style.css"))))
          (ErrorReadingFile (PUBLIC "style.css") (SystemError "ENOENT"))).
Proof.
  cbv zeta. split.
  - rewrite (static_files_served example_rng _ (lit "/") "index.html" "text/html")
      by (left; reflexivity).
    reflexivity.
  - rewrite (static_files_served example_rng _ (lit "/style.css") "style.css" "text/css")
      by (right; left; reflexivity).
    reflexivity.
Defined.

(** X5.  A request that is neither a [GET] nor the [POST] to [/shorten] is
    answered with the generic 404: nothing is read and nothing is written,
    only the request line is printed. *)
Theorem other_requests_not_found (rng : nat -> byte) (req : request) (w : world) :
  method req <> "GET"%string ->
  ~ (method req = "POST"%string /\ url req = lit "/shorten") ->
  exec (server rng req) w = (Returned not_found, print w (request_line req)).
Proof.
  intros Hget Hpost. unfold server, request_line. cbn [exec].
  apply String.eqb_neq in Hget. rewrite Hget.
  destruct (String.eqb (method req) "POST" && text_eqb (url req) (lit "/shorten"))
    eqn:E; [|reflexivity].
  apply andb_true_iff in E as [E1 E2].
  apply String.eqb_eq in E1. apply text_eqb_eq in E2. tauto.
Qed.

Lemma other_requests_not_found_witness :
  let w := store Missing in
  exec (server example_rng (mkRequest "POST" (lit "/links") (lit "{}"))) w
    = (Returned not_found, print w (LogRequest "POST" (lit "/links")))
  /\ exec (server example_rng (mkRequest "DELETE" (lit "/abc") [])) w
     = (Returned not_found, print w (LogRequest "DELETE" (lit "/abc"))).
Proof.
  cbv zeta. split.
  - apply (other_requests_not_found example_rng
             (mkRequest "POST" (lit "/links") (lit "{}")) (store Missing)).
    + discriminate.
    + cbn [method url]. intros [_ E]. discriminate E.
  - apply (other_requests_not_found example_rng
             (mkRequest "DELETE" (lit "/abc") []) (store Missing)).
    + discriminate.
    + cbn [method url]. intros [E _]. discriminate E.
Defined.


(** ** [POST /shorten]: the requests that are refused *)

(** X6.  A body that is not JSON, or is the JSON text [null], is answered
    500, server error, once the store has loaded: the [SyntaxError] of
    [JSON.parse], or the [TypeError] of destructuring [null], is caught
    and printed, and nothing is written after the load. *)
Theorem malformed_body_server_error (rng : nat -> byte) (w w1 : world)
    (links : value) (body : text) :
  exec loadLinks w = (Returned links, w1) ->
  JSON_parse body = None \/ JSON_parse body = Some VNull ->
  exec (server rng (POST_shorten body)) w =
  (Returned server_error,
   print (print w1 (request_line (POST_shorten body)))
     (ErrorProcessingPost
        (match JSON_parse body with None => SyntaxError | Some _ => TypeError end))).
Proof.
  intros Hload Hbody.
  now apply (create_malformed rng w w1 links body).
Qed.

Lemma malformed_body_server_error_witness :
  let w := store (File (jlit "{'abc':'http://example.com/'}")) in
  exec (server example_rng (POST_shorten (lit "url=http://example.com/"))) w
    = (Returned server_error,
       print (print w (request_line (POST_shorten (lit "url=http://example.com/"))))
         (ErrorProcessingPost SyntaxError))
  /\ exec (server example_rng (POST_shorten (lit "null"))) w
     = (Returned server_error,
        print (print w (request_line (POST_shorten (lit "null"))))
          (ErrorProcessingPost TypeError)).
Proof.
  cbv zeta. split.
  - rewrite (malformed_body_server_error example_rng _
               (store (File (jlit "{'abc':'http://example.com/'}")))
               (VObj [(lit "abc", VStr (lit "http://example.com/"))])
               (lit "url=http://example.com/"));
      [reflexivity | reflexivity | left; reflexivity].
  - rewrite (malformed_body_server_error example_rng _
               (store (File (jlit "{'abc':'http://example.com/'}")))
               (VObj [(lit "abc", VStr (lit "http://example.com/"))])
               (lit "null"));
      [reflexivity | reflexivity | right; reflexivity].
Defined.

(** X7.  A body that is JSON but neither an object nor [null] (a string, a
    number, a boolean, an array) has no [url]: it is answered 400, URL is
    required, and nothing is written after the load. *)
Theorem body_without_members_rejected (rng : nat -> byte) (w w1 : world)
    (links v : value) (body : text) :
  exec loadLinks w = (Returned links, w1) ->
  JSON_parse body = Some v ->
  without_members v = true ->
  exec (server rng (POST_shorten body)) w
  = (Returned url_required, print w1 (request_line (POST_shorten body))).
Proof.
  intros Hload Hbody Hv. rewrite server_POST_shorten. unfold shorten.
  rewrite exec_try_catch, exec_bind, load_print, Hload. cbn [fst snd]. cbv iota.
  unfold parse. rewrite Hbody. destruct v; try discriminate Hv; reflexivity.
Qed.

Lemma body_without_members_rejected_witness :
  let w := store (File (lit "{}")) in
  let body := jlit "['http://example.com/', 'abc']" in
  exec (server example_rng (POST_shorten body)) w
  = (Returned url_required, print w (request_line (POST_shorten body))).
Proof.
  cbv zeta.
  apply (body_without_members_rejected example_rng (store (File (lit "{}")))
           (store (File (lit "{}"))) (VObj [])
           (VArr [VStr (lit "http://example.com/"); VStr (lit "abc")]));
    reflexivity.
Defined.

(** X8.  When the record cannot be opened for writing, a create request
    that would have succeeded is answered 500, server error: the error of
    the write is caught and printed, the record stays as it was, and the
    link is not stored. *)
Theorem unwritable_store_server_error (rng : nat -> byte) (w : world) (o : props)
    (body u : text) (c : option text) (fault : string) :
  table w = Some o -> string_valued o = true ->
  write_fault w = Some fault ->
  create_request body u c -> u <> [] ->
  truthy (get_property o (final_code rng c)) = false ->
  exec (server rng (POST_shorten body)) w
  = (Returned server_error,
     print (print w (request_line (POST_shorten body)))
       (ErrorProcessingPost (SystemError fault))).
Proof.
  intros Ht Hs Hw Hreq Hu Hfree.
  now apply (create_unwritable rng w o body u c fault).
Qed.

Lemma unwritable_store_server_error_witness :
  let w := mkWorld (File (lit "{}")) (fun _ => Missing) (Some "EACCES"%string) [] in
  let body := jlit "{'url':'http://example.com/','shortCode':'abc'}" in
  exec (server example_rng (POST_shorten body)) w
  = (Returned server_error,
     print (print w (request_line (POST_shorten body)))
       (ErrorProcessingPost (SystemError "EACCES"))).
Proof.
  cbv zeta.
  apply (unwritable_store_server_error example_rng
           (mkWorld (File (lit "{}")) (fun _ => Missing) (Some "EACCES"%string) [])
           [] _ (lit "http://example.com/") (Some (lit "abc")) "EACCES");
    try reflexivity; try discriminate.
  exists [(lit "url", VStr (lit "http://example.com/"));
          (lit "shortCode", VStr (lit "abc"))].
  repeat split; vm_compute; reflexivity.
Defined.

(** X9.  A generated code is not retried.  When the request names no code,
    or the empty one, and the eight digits drawn from the generator read
    as taken, the request is answered 400, short code already exists, and
    the table is left as it was. *)
Theorem generated_code_collision (rng : nat -> byte) (w : world) (o : props)
    (body u : text) (c : option text) :
  holds w o -> create_request body u c -> u <> [] ->
  c = None \/ c = Some [] ->
  truthy (get_property o (toString_hex (randomBytes rng 4))) = true ->
  exists w',
    exec (server rng (POST_shorten body)) w = (Returned code_exists, w')
    /\ table w' = Some o
    /\ (forall data, links_json w = File data -> links_json w' = File data).
Proof.
  intros (Ht & Hs & Hw) (b & Hbody & Hurl & Hsc) Hu Hc Htaken.
  assert (Hset := final_code_settles rng b c Hsc).
  assert (Hcode : final_code rng c = toString_hex (randomBytes rng 4))
    by (destruct Hc as [-> | ->]; reflexivity).
  rewrite Hcode in Hset.
  destruct (create_taken rng w o b body u _ Ht Hw Hs Hbody Hurl Hu Hset Htaken)
    as (w' & Hexec & Htable & _ & Hfile).
  exists w'. auto.
Qed.

Lemma generated_code_collision_witness :
  let w := store (File (jlit "{'00ab0fff':'http://example.com/old'}")) in
  let body := jlit "{'url':'http://example.com/new'}" in
  exists w',
    exec (server example_rng (POST_shorten body)) w = (Returned code_exists, w')
    /\ table w' = Some [(lit "00ab0fff", VStr (lit "http://example.com/old"))]
    /\ (forall data, links_json w = File data -> links_json w' = File data).
Proof.
  cbv zeta.
  apply (generated_code_collision example_rng _ _ _ (lit "http://example.com/new") None).
  - repeat split.
  - exists [(lit "url", VStr (lit "http://example.com/new"))].
    repeat split; vm_compute; reflexivity.
  - discriminate.
  - left. reflexivity.
  - reflexivity.
Defined.


(** ** [POST /shorten] and [GET /<code>]: the links that are stored *)

Lemma length_update_property (o : props) (k : text) (v : value) :
  List.length (update_property o k v) = List.length o.
Proof.
  induction o as [|[k' v'] o IH]; [reflexivity|].
  cbn [update_property]. destruct (text_eqb k' k); cbn [List.length]; congruence.
Qed.

Lemma length_insert_index (o : props) (n : N) (k : text) (v : value) :
  List.length (insert_index o n k v) = S (List.length o).
Proof.
  induction o as [|[k' v'] o IH]; [reflexivity|].
  cbn [insert_index].
  destruct (array_index k') as [n'|]; [destruct (n <? n')|]; cbn [List.length]; congruence.
Qed.

Lemma length_define_property (o : props) (k : text) (v : value) :
  List.length (define_property o k v)
  = if has_own o k then List.length o else S (List.length o).
Proof.
  unfold define_property, add_property. destruct (has_own o k).
  - apply length_update_property.
  - destruct (array_index k).
    + apply length_insert_index.
    + rewrite length_app. cbn [List.length]. lia.
Qed.

(** X10.  A create request that succeeds changes the table by its own link
    and nothing else: the code maps to the destination, every other code
    maps to what it mapped to before, no entry is lost, and the store is
    healthy afterwards.  The code is the one requested, or the generated
    one when none is requested. *)
Theorem create_keeps_other_links (rng : nat -> byte) (w : world) (o : props)
    (body u : text) (c : option text) :
  holds w o -> create_request body u c -> u <> [] ->
  truthy (get_property o (final_code rng c)) = false ->
  exists w' o',
    exec (server rng (POST_shorten body)) w = (Returned (created (final_code rng c)), w')
    /\ holds w' o'
    /\ own_property o' (final_code rng c) = Some (VStr u)
    /\ (forall k, k <> final_code rng c -> own_property o' k = own_property o k)
    /\ List.length o'
       = if has_own o (final_code rng c) then List.length o else S (List.length o).
Proof.
  intros (Ht & Hs & Hw) (b & Hbody & Hurl & Hsc) Hu Hfree.
  destruct (create_fresh rng w o b body u _ Ht Hw Hs Hbody Hurl Hu
              (final_code_settles rng b c Hsc) Hfree)
    as (w' & Hexec & _ & _ & Htable & Hw').
  exists w', (define_property o (final_code rng c) (VStr u)).
  split; [assumption|].
  split; [repeat split; try assumption; now apply string_valued_define|].
  split; [now rewrite own_define_property, text_eqb_refl|].
  split; [|apply length_define_property].
  intros k Hk. rewrite own_define_property.
  destruct (text_eqb (final_code rng c) k) eqn:E; [|reflexivity].
  apply text_eqb_eq in E. congruence.
Qed.

Lemma create_keeps_other_links_witness :
  let w := store (File (jlit "{'abc':'http://example.com/a'}")) in
  let o := [(lit "abc", VStr (lit "http://example.com/a"))] in
  let body := jlit "{'url':'http://example.com/new','shortCode':''}" in
  let code := lit "00ab0fff" in
  exists w' o',
    exec (server example_rng (POST_shorten body)) w = (Returned (created code), w')
    /\ holds w' o'
    /\ own_property o' code = Some (VStr (lit "http://example.com/new"))
    /\ (forall k, k <> code -> own_property o' k = own_property o k)
    /\ List.length o' = 2%nat.
Proof.
  cbv zeta.
  apply (create_keeps_other_links example_rng
           (store (File (jlit "{'abc':'http://example.com/a'}")))
           [(lit "abc", VStr (lit "http://example.com/a"))]
           (jlit "{'url':'http://example.com/new','shortCode':''}")
           (lit "http://example.com/new") (Some [])).
  - repeat split.
  - exists [(lit "url", VStr (lit "http://example.com/new")); (lit "shortCode", VStr [])].
    repeat split; vm_compute; reflexivity.
  - discriminate.
  - reflexivity.
Defined.

(** X11.  A link that has been created resolves.  When the code (requested
    or generated) is not in the table, is no member of [Object.prototype]
    and none of the server's own paths, and the destination can stand in a
    header, the create request is answered 201 with the code, and a [GET]
    for the code is then answered 301 with the destination in [Location];
    the [GET] leaves the record as the create wrote it. *)
Theorem created_link_resolves (rng rng' : nat -> byte) (w : world) (o : props)
    (body u : text) (c : option text) :
  holds w o -> create_request body u c -> u <> [] ->
  own_property o (final_code rng c) = None ->
  is_inherited (final_code rng c) = false ->
  forallb valid_header_char u = true ->
  reserved_path (47 :: final_code rng c) = false ->
  exists w' w'',
    exec (server rng (POST_shorten body)) w = (Returned (created (final_code rng c)), w')
    /\ exec (server rng' (GET (47 :: final_code rng c))) w' = (Returned (moved u), w'')
    /\ links_json w'' = links_json w'.
Proof.
  intros (Ht & Hs & Hw) (b & Hbody & Hurl & Hsc) Hu Hfresh Hinh Hvalid Hres.
  assert (Hfree : truthy (get_property o (final_code rng c)) = false)
    by (unfold truthy, get_property; now rewrite Hfresh, Hinh).
  destruct (create_fresh rng w o b body u _ Ht Hw Hs Hbody Hurl Hu
              (final_code_settles rng b c Hsc) Hfree)
    as (w' & Hexec & _ & _ & Htable & _).
  destruct (resolve_found rng' w' _ (final_code rng c) u Htable)
    as (w'' & Hget & Hsame); try assumption.
  { now rewrite own_define_property, text_eqb_refl. }
  exists w', w''. auto.
Qed.

Lemma created_link_resolves_witness :
  let w := store Missing in
  let body := jlit "{'url':'http://example.com/new'}" in
  exists w' w'',
    exec (server example_rng (POST_shorten body)) w
      = (Returned (created (lit "00ab0fff")), w')
    /\ exec (server example_rng (GET (lit "/00ab0fff"))) w'
       = (Returned (moved (lit "http://example.com/new")), w'')
    /\ links_json w'' = links_json w'.
Proof.
  cbv zeta.
  apply (created_link_resolves example_rng example_rng (store Missing) []
           (jlit "{'url':'http://example.com/new'}") (lit "http://example.com/new") None);
    try reflexivity; try discriminate.
  - repeat split.
  - exists [(lit "url", VStr (lit "http://example.com/new"))].
    repeat split; vm_compute; reflexivity.
Defined.

Lemma load_found_record (w w1 : world) (v : value) (data : text) :
  exec loadLinks w = (Returned v, w1) -> links_json w = File data ->
  w1 = w /\ links_json w1 = File data.
Proof.
  intros Hload Hdata. rewrite exec_loadLinks in Hload. unfold load in Hload.
  rewrite Hdata in Hload.
  repeat break_match_in Hload; injection Hload; intros; subst; split; reflexivity || assumption.
Qed.

(** X12.  A [GET] for a code that is not in the table, and is no member of
    [Object.prototype], is answered with the generic 404.  Nothing but the
    request line is printed (a store failure, which gets the same answer,
    prints its error), and the table is the same afterwards. *)
Theorem unknown_code_not_found (rng : nat -> byte) (w : world) (o : props)
    (code : text) :
  table w = Some o ->
  own_property o code = None -> is_inherited code = false ->
  reserved_path (47 :: code) = false ->
  exists w',
    exec (server rng (GET (47 :: code))) w = (Returned not_found, w')
    /\ console w' = console w ++ [request_line (GET (47 :: code))]
    /\ table w' = Some o
    /\ (forall data, links_json w = File data -> links_json w' = File data).
Proof.
  intros Ht Hown Hinh Hres. apply table_load in Ht as [w1 Hload].
  assert (Hfalse : ToBoolean (get_property o code) = Some false)
    by (unfold get_property; now rewrite Hown, Hinh).
  exists (print w1 (request_line (GET (47 :: code)))).
  rewrite server_GET by assumption.
  rewrite (redirect_unknown _ (print w1 (request_line (GET (47 :: code)))) o code);
    [|now rewrite load_print, Hload|assumption].
  split; [reflexivity|].
  destruct (load_keeps _ _ _ Hload) as (_ & Hconsole & _).
  split; [cbn [print console]; now rewrite Hconsole|].
  split; [rewrite table_print; apply table_load; exists w1; eapply load_again; eassumption|].
  intros data Hdata. cbn [print links_json].
  destruct (load_found_record w w1 (VObj o) data Hload Hdata). assumption.
Qed.

Lemma unknown_code_not_found_witness :
  let w := store (File (jlit "{'abc':'http://example.com/a'}")) in
  exists w',
    exec (server example_rng (GET (lit "/xyz"))) w = (Returned not_found, w')
    /\ console w' = console w ++ [request_line (GET (lit "/xyz"))]
    /\ table w' = Some [(lit "abc", VStr (lit "http://example.com/a"))]
    /\ (forall data, links_json w = File data -> links_json w' = File data).
Proof.
  cbv zeta.
  apply (unknown_code_not_found example_rng
           (store (File (jlit "{'abc':'http://example.com/a'}")))
           [(lit "abc", VStr (lit "http://example.com/a"))] (lit "xyz"));
    reflexivity.
Defined.

(** X13.  No name of a member of [Object.prototype] can be taken as a short
    code: a create request for such a name that is not in the table is
    answered 400, short code already exists, and the table is left as it
    was. *)
Theorem inherited_names_refused (rng : nat -> byte) (w : world) (o : props)
    (body u name : text) :
  In name object_prototype_names ->
  holds w o -> own_property o name = None ->
  create_request body u (Some name) -> u <> [] ->
  exists w',
    exec (server rng (POST_shorten body)) w = (Returned code_exists, w')
    /\ table w' = Some o
    /\ (forall data, links_json w = File data -> links_json w' = File data).
Proof.
  intros Hin (Ht & Hs & Hw) Hown (b & Hbody & Hurl & Hsc) Hu.
  assert (Hname : name <> []).
  { intros ->. unfold object_prototype_names in Hin. cbn [map In] in Hin.
    repeat (destruct Hin as [Hin|Hin]; [discriminate Hin|]). exact Hin. }
  assert (Hinh : is_inherited name = true).
  { unfold is_inherited. apply existsb_exists. exists name.
    split; [assumption | apply text_eqb_refl]. }
  assert (Htaken : truthy (get_property o name) = true)
    by (unfold truthy, get_property; now rewrite Hown, Hinh).
  destruct (create_taken rng w o b body u name Ht Hw Hs Hbody Hurl Hu
              (create_request_settles rng b name Hsc Hname) Htaken)
    as (w' & Hexec & Htable & _ & Hfile).
  exists w'. auto.
Qed.

Lemma inherited_names_refused_witness :
  let w := store (File (jlit "{'abc':'http://example.com/a'}")) in
  let body := jlit "{'url':'http://example.com/','shortCode':'toString'}" in
  exists w',
    exec (server example_rng (POST_shorten body)) w = (Returned code_exists, w')
    /\ table w' = Some [(lit "abc", VStr (lit "http://example.com/a"))]
    /\ (forall data, links_json w = File data -> links_json w' = File data).
Proof.
  cbv zeta.
  apply (inherited_names_refused example_rng _ _ _ (lit "http://example.com/")
           (lit "toString")).
  - vm_compute. tauto.
  - repeat split.
  - reflexivity.
  - exists [(lit "url", VStr (lit "http://example.com/"));
            (lit "shortCode", VStr (lit "toString"))].
    repeat split; vm_compute; reflexivity.
  - discriminate.
Defined.


(** ** What the requests other than [POST /shorten] do to the record *)

Lemma leaves_finished {A : Type} (p : prog A) (r : outcome A) :
  finished p = Some r -> leaves_record p.
Proof.
  intros H w data Hw. now rewrite (exec_finished p w r H).
Qed.

Lemma leaves_Print {A : Type} (l : log) (k : prog A) :
  leaves_record k -> leaves_record (Print l k).
Proof. intros H w data Hw. cbn [exec]. now apply H. Qed.

Lemma leaves_bind {A B : Type} (p : prog A) (f : A -> prog B) :
  leaves_record p -> (forall a, leaves_record (f a)) -> leaves_record (bind p f).
Proof.
  intros Hp Hf w data Hw. rewrite exec_bind. specialize (Hp w data Hw).
  destruct (exec p w) as [[a|e|] w']; cbn [snd] in *; auto. now apply Hf.
Qed.

Lemma leaves_try_catch {A : Type} (p : prog A) (handler : error -> prog A) :
  leaves_record p -> (forall e, leaves_record (handler e)) ->
  leaves_record (try_catch p handler).
Proof.
  intros Hp Hh w data Hw. rewrite exec_try_catch. specialize (Hp w data Hw).
  destruct (exec p w) as [[a|e|] w']; cbn [snd] in *; auto. now apply Hh.
Qed.

Lemma leaves_readFile (p : path) : leaves_record (readFile p).
Proof.
  intros w data Hw. rewrite exec_readFile. now destruct (read w p).
Qed.

Lemma leaves_loadLinks : leaves_record loadLinks.
Proof.
  intros w data Hw. rewrite exec_loadLinks. unfold load. rewrite Hw.
  destruct data; [assumption|]. now destruct (JSON_parse _).
Qed.

Lemma leaves_known {A : Type} (x : option A) : leaves_record (known x).
Proof. destruct x; eapply leaves_finished; reflexivity. Qed.

Lemma leaves_js_get (links : value) (key : text) : leaves_record (js_get links key).
Proof. destruct links; eapply leaves_finished; reflexivity. Qed.

Lemma leaves_header_value (x : jsval) : leaves_record (header_value x).
Proof.
  destruct x as [|[]|]; cbn [header_value];
    try destruct (forallb valid_header_char s); eapply leaves_finished; reflexivity.
Qed.

Lemma leaves_Ret {A : Type} (a : A) : leaves_record (Ret a).
Proof. eapply leaves_finished; reflexivity. Qed.

Lemma leaves_serveFile (filePath : path) (contentType : string) :
  leaves_record (serveFile filePath contentType).
Proof.
  unfold serveFile. apply leaves_try_catch.
  - apply leaves_bind; [apply leaves_readFile | intros; apply leaves_Ret].
  - intros e. apply leaves_Print, leaves_Ret.
Qed.

Lemma leaves_redirect (url : text) : leaves_record (redirect url).
Proof.
  unfold redirect. apply leaves_try_catch.
  - apply leaves_bind; [apply leaves_loadLinks|]. intros links. cbv zeta.
    apply leaves_bind; [apply leaves_js_get|]. intros targetUrl.
    apply leaves_bind; [apply leaves_known|]. intros [|]; [|apply leaves_Ret].
    apply leaves_Print, leaves_bind; [apply leaves_header_value|].
    intros; apply leaves_Ret.
  - intros e. apply leaves_Print, leaves_Ret.
Qed.

Lemma leaves_server (rng : nat -> byte) (req : request) :
  ~ (method req = "POST"%string /\ url req = lit "/shorten") ->
  leaves_record (server rng req).
Proof.
  intros Hpost. unfold server. apply leaves_Print.
  destruct (String.eqb (method req) "POST" && text_eqb (url req) (lit "/shorten")) eqn:E.
  { apply andb_true_iff in E as [E1 E2].
    apply String.eqb_eq in E1. apply text_eqb_eq in E2. tauto. }
  apply leaves_bind; [|intros [r|]; apply leaves_Ret].
  destruct (String.eqb (method req) "GET"); [|apply leaves_Ret].
  repeat match goal with
         | |- leaves_record (if ?c then _ else _) => destruct c
         end;
    try (apply leaves_bind; [apply leaves_serveFile | intros; apply leaves_Ret]).
  - apply leaves_bind; [apply leaves_loadLinks|]. intros links.
    apply leaves_bind; [apply leaves_known | intros; apply leaves_Ret].
  - apply leaves_redirect.
Qed.

(** X14.  No request but [POST /shorten] changes a record that is there:
    whatever the method, the path and the content of the record (readable
    as a table or not), the record is the same after the request. *)
Theorem only_create_rewrites_record (rng : nat -> byte) (req : request)
    (w : world) (data : text) :
  ~ (method req = "POST"%string /\ url req = lit "/shorten") ->
  links_json w = File data ->
  links_json (snd (exec (server rng req) w)) = File data.
Proof.
  intros Hpost Hfile.
  assert (Hleaves := leaves_server rng req Hpost).
  unfold leaves_record in Hleaves. apply Hleaves. exact Hfile.
Qed.

Lemma only_create_rewrites_record_witness :
  let w := store (File (jlit "{'abc':")) in
  links_json (snd (exec (server example_rng (GET (lit "/abc"))) w))
  = File (jlit "{'abc':").
Proof.
  cbv zeta.
  apply (only_create_rewrites_record example_rng (GET (lit "/abc"))
           (store (File (jlit "{'abc':"))) (jlit "{'abc':")).
  - cbn [method GET]. intros [E _]. discriminate E.
  - reflexivity.
Defined.

Lemma redirect_unknown_path (w w1 : world) (o : props) (addr : text) :
  exec loadLinks w = (Returned (VObj o), w1) ->
  ToBoolean (get_property o (tl addr)) = Some false ->
  exec (redirect addr) w = (Returned None, w1).
Proof.
  intros Hload Hfalse. unfold redirect.
  rewrite exec_try_catch, exec_bind, Hload. cbv iota.
  cbn [js_get bind]. rewrite Hfalse. reflexivity.
Qed.

(** X15.  On a fresh install the first [GET] that consults the table
    creates the record: with no record, and the record creatable, a [GET]
    for the list, or for a code that is no member of [Object.prototype],
    leaves the record [{}] behind; the list is answered 200 with [{}], the
    code with the generic 404. *)
Theorem first_lookup_creates_record (rng : nat -> byte) (w : world) (addr : text) :
  links_json w = Missing -> write_fault w = None ->
  static_path addr = false -> is_inherited (tl addr) = false ->
  exec (server rng (GET addr)) w
  = (Returned (if text_eqb addr (lit "/links")
               then mkResponse 200 json_headers (lit "{}")
               else not_found),
     set_links_json (print w (request_line (GET addr))) (File (lit "{}"))).
Proof.
  intros Hmissing Hw Hstatic Hinh.
  assert (Hload : exec loadLinks (print w (request_line (GET addr)))
                  = (Returned (VObj []),
                     set_links_json (print w (request_line (GET addr))) (File (lit "{}")))).
  { rewrite exec_loadLinks. unfold load, create_record. cbn [print links_json write_fault].
    now rewrite Hmissing, Hw. }
  destruct (text_eqb addr (lit "/links")) eqn:E.
  - apply text_eqb_eq in E. subst addr. rewrite server_GET_links, Hload. reflexivity.
  - rewrite server_GET.
    + rewrite (redirect_unknown_path _ _ [] addr Hload); [reflexivity|].
      unfold get_property. cbn [own_property]. now rewrite Hinh.
    + unfold reserved_path. unfold static_path, static_routes in Hstatic.
      cbn [existsb fst] in Hstatic. rewrite orb_false_r in Hstatic.
      rewrite E, orb_false_r, <- orb_assoc. exact Hstatic.
Qed.

Lemma first_lookup_creates_record_witness :
  let w := store Missing in
  exec (server example_rng (GET (lit "/favicon.ico"))) w
  = (Returned not_found,
     set_links_json (print w (request_line (GET (lit "/favicon.ico")))) (File (lit "{}"))).
Proof.
  cbv zeta.
  apply (first_lookup_creates_record example_rng (store Missing) (lit "/favicon.ico"));
    reflexivity.
Defined.


(** ** The record under any interleaving of requests *)

Section WritesOnly.

Variable Q : text -> Prop.

Lemma writes_bind {A B : Type} (R : A -> Prop) (R' : B -> Prop)
      (p : prog A) (f : A -> prog B) :
  writes_only Q R p -> (forall a, R a -> writes_only Q R' (f a)) ->
  writes_only Q R' (bind p f).
Proof.
  intros Hp Hf. induction Hp; cbn [bind]; try (constructor; auto). auto.
Qed.

Lemma writes_try_catch {A : Type} (R : A -> Prop) (p : prog A)
      (handler : error -> prog A) :
  writes_only Q R p -> (forall e, writes_only Q R (handler e)) ->
  writes_only Q R (try_catch p handler).
Proof.
  intros Hp Hh. induction Hp; cbn [try_catch]; try (constructor; auto). auto.
Qed.

Lemma writes_weaken {A : Type} (R R' : A -> Prop) (p : prog A) :
  (forall a, R a -> R' a) -> writes_only Q R p -> writes_only Q R' p.
Proof.
  intros HR Hp. induction Hp; constructor; auto.
Qed.

Lemma writes_finished {A : Type} (p : prog A) (r : outcome A) :
  finished p = Some r -> writes_only Q anything p.
Proof.
  destruct p; cbn [finished]; intros H; try discriminate H; constructor; exact I.
Qed.

Lemma writes_known {A : Type} (x : option A) : writes_only Q anything (known x).
Proof. destruct x; constructor; exact I. Qed.

Lemma writes_readFile (p : path) : writes_only Q anything (readFile p).
Proof.
  unfold readFile. constructor. intros [e|data]; constructor; exact I.
Qed.

Lemma writes_writeFile (p : path) (data : text) :
  Q data -> writes_only Q anything (writeFile p data).
Proof.
  intros H. unfold writeFile. constructor. intros [e|]; repeat constructor; assumption.
Qed.

Lemma writes_json_response (code : N) (v : value) :
  writes_only Q anything (json_response code v).
Proof.
  unfold json_response, stringify. destruct (JSON_stringify v 0); constructor; exact I.
Qed.

Lemma writes_serveFile (filePath : path) (contentType : string) :
  writes_only Q anything (serveFile filePath contentType).
Proof.
  unfold serveFile. apply writes_try_catch.
  - apply (writes_bind anything); [apply writes_readFile|]. intros; constructor; exact I.
  - intros e. repeat constructor.
Qed.

End WritesOnly.

Lemma writes_loadLinks :
  writes_only sound_text (fun v => well_formed v = true) loadLinks.
Proof.
  unfold loadLinks. apply writes_try_catch.
  - apply (writes_bind _ anything); [apply writes_readFile|]. intros data _.
    destruct (is_empty data); [constructor; reflexivity|].
    unfold parse. destruct (JSON_parse data) eqn:E; constructor.
    eapply JSON_parse_well_formed; eassumption.
  - intros e. destruct (has_code e "ENOENT"); [|constructor].
    change (stringify (VObj []) 0) with (@Ret text (lit "{}")). cbn [bind].
    apply (writes_bind _ anything); [|intros; constructor; reflexivity].
    apply writes_writeFile. reflexivity.
Qed.

Lemma writes_saveLinks (o : props) :
  well_formed (VObj o) = true ->
  writes_only sound_text anything (saveLinks (VObj o)).
Proof.
  intros Hwf. unfold saveLinks, stringify.
  destruct (JSON_stringify (VObj o) 2) as [t|] eqn:E; cbn [known bind]; [|constructor].
  apply writes_writeFile. unfold sound_text, sound_record.
  destruct (stringify_nonempty _ _ _ E) as (c & r & ->).
  now rewrite (JSON_round_trip _ _ _ Hwf E).
Qed.

Lemma get_property_well_formed (o : props) (k : text) :
  well_formed (VObj o) = true -> jsval_well_formed (get_property o k) = true.
Proof.
  rewrite well_formed_object. intros [_ Hall]. unfold get_property.
  destruct (own_property o k) as [v|] eqn:E; [|now destruct (is_inherited k)].
  cbn [jsval_well_formed].
  induction Hall as [|[k' v'] o' Hv Hall IH]; [discriminate E|].
  cbn [own_property] in E. destruct (text_eqb k' k); [|auto].
  injection E as <-. exact Hv.
Qed.

Lemma writes_js_set (links : value) (key : text) (x : jsval) :
  well_formed links = true -> jsval_well_formed x = true ->
  writes_only sound_text
    (fun links' => exists o, links' = VObj o /\ well_formed links' = true)
    (js_set links key x).
Proof.
  intros Hlinks Hx. destruct links as [| | | | |o]; destruct x as [|v|];
    cbn [js_set]; try constructor.
  cbn [jsval_well_formed] in Hx.
  assert (Hdef := well_formed_define o key v Hlinks Hx). unfold define_property in Hdef.
  destruct (has_own o key); [constructor; eauto|].
  destruct (text_eqb key (lit "__proto__")); [|constructor; eauto].
  destruct v; constructor; eauto.
Qed.

Lemma ToPropertyKey_cases (x : jsval) :
  ToPropertyKey x = Unmodelled \/ ToPropertyKey x = Throw TypeError
  \/ exists k, ToPropertyKey x = Ret k.
Proof.
  destruct x as [|[| [|] | | | |o]|]; cbn [ToPropertyKey]; eauto.
  destruct (has_own o (lit "toString")); eauto.
Qed.

Lemma writes_returns {A : Type} (Q : text -> Prop) (R : A -> Prop) (p : prog A) :
  writes_only Q R p ->
  forall w a w', exec p w = (Returned a, w') -> R a.
Proof.
  intros Hp.
  induction Hp as [a Ha|e| |l k Hk IH|q k Hk IH|q k Hk IH|q data k HQ Hk IH];
    intros w r w' H; cbn [exec] in H; try discriminate H; eauto.
  now injection H as <- _.
Qed.

Lemma writes_json_answer (Q : text -> Prop) (code : N) (v : value) :
  well_formed v = true ->
  writes_only Q
    (fun r => status r = code /\ headers r = json_headers /\ JSON_parse (body r) = Some v)
    (json_response code v).
Proof.
  intros Hwf. unfold json_response, stringify.
  destruct (JSON_stringify v 0) as [t|] eqn:E; cbn [known bind]; constructor.
  cbn [status headers body]. repeat split. now apply (JSON_round_trip v 0).
Qed.

Lemma writes_refusal (Q : text -> Prop) (code : N) (m : string) :
  code = 400 \/ code = 500 -> lit m <> [] ->
  writes_only Q shorten_answer
    (json_response code
       (VObj [(lit "success", VBool false); (lit "message", VStr (lit m))])).
Proof.
  intros Hcode Hm. eapply writes_weaken; [|apply writes_json_answer; reflexivity].
  intros r (Hstatus & Hheaders & Hbody). split; [assumption|].
  eexists. split; [exact Hbody|]. right. rewrite Hstatus.
  split; [assumption|]. split; [reflexivity|]. eexists. split; [reflexivity | assumption].
Qed.

(** Every path through [shorten] writes the text of an object, if it
    writes, and answers with a JSON object, if it answers. *)
Lemma shorten_answers (rng : nat -> byte) (body : text) :
  writes_only sound_text shorten_answer (shorten rng body).
Proof.
  unfold shorten. apply writes_try_catch;
    [|intros e; constructor; apply writes_refusal; [now right | discriminate]].
  apply (writes_bind _ _ _ _ _ writes_loadLinks). intros links Hlinks.
  apply (writes_bind _ (fun v => well_formed v = true)).
  { unfold parse. destruct (JSON_parse body) eqn:E; constructor.
    eapply JSON_parse_well_formed; eassumption. }
  intros parsed Hparsed.
  apply (writes_bind _ (fun x => jsval_well_formed (fst x) = true
                                 /\ jsval_well_formed (snd x) = true)).
  { destruct parsed; cbn [destructure]; constructor; try (split; reflexivity).
    cbn [fst snd]. split; now apply get_property_well_formed. }
  intros [url shortCode] [Hurl Hcode]. cbn [fst snd] in Hurl, Hcode.
  apply (writes_bind _ anything); [apply writes_known|]. intros has_url _.
  destruct (negb has_url); [apply writes_refusal; [now left | discriminate]|].
  apply (writes_bind _ anything); [apply writes_known|]. intros custom _. cbv zeta.
  assert (Hfinal : jsval_well_formed
                     (if custom then shortCode
                      else Json (VStr (toString_hex (randomBytes rng 4)))) = true)
    by (destruct custom; [assumption | reflexivity]).
  apply (writes_bind _ anything).
  { destruct (ToPropertyKey_cases
                (if custom then shortCode
                 else Json (VStr (toString_hex (randomBytes rng 4)))))
      as [E | [E | [k E]]]; rewrite E; constructor; exact I. }
  intros key _.
  apply (writes_bind _ anything).
  { destruct links; cbn [js_get]; constructor; exact I. }
  intros existing _.
  apply (writes_bind _ anything); [apply writes_known|]. intros taken _.
  destruct taken; [apply writes_refusal; [now left | discriminate]|].
  apply (writes_bind _ _ _ _ _ (writes_js_set links key url Hlinks Hurl)).
  intros links' (o & -> & Hwf).
  apply (writes_bind _ anything); [now apply writes_saveLinks|]. intros _ _.
  apply (writes_bind _ (fun v => well_formed v = true)).
  { destruct (if custom then shortCode else _); cbn [value_of]; constructor.
    exact Hfinal. }
  intros code Hwfcode.
  eapply writes_weaken; [|apply writes_json_answer].
  - intros r (Hstatus & Hheaders & Hbody). split; [assumption|].
    eexists. split; [exact Hbody|]. left. repeat split; assumption.
  - cbn [well_formed forallb snd]. rewrite Hwfcode. reflexivity.
Qed.

Lemma writes_shorten (rng : nat -> byte) (body : text) :
  writes_only sound_text anything (shorten rng body).
Proof.
  eapply writes_weaken; [|apply shorten_answers]. intros; exact I.
Qed.

Lemma writes_redirect (url : text) :
  writes_only sound_text anything (redirect url).
Proof.
  unfold redirect. apply writes_try_catch; [|intros e; repeat constructor].
  apply (writes_bind _ _ _ _ _ writes_loadLinks). intros links _. cbv zeta.
  apply (writes_bind _ anything).
  { destruct links; cbn [js_get]; constructor; exact I. }
  intros targetUrl _.
  apply (writes_bind _ anything); [apply writes_known|]. intros [|] _;
    [|constructor; exact I].
  constructor. apply (writes_bind _ anything); [|intros; constructor; exact I].
  destruct targetUrl as [|[]|]; cbn [header_value];
    try destruct (forallb valid_header_char s); constructor; exact I.
Qed.

Lemma writes_server (rng : nat -> byte) (req : request) :
  writes_only sound_text anything (server rng req).
Proof.
  unfold server. constructor.
  destruct (String.eqb (method req) "POST" && text_eqb (url req) (lit "/shorten"));
    [apply writes_shorten|].
  apply (writes_bind _ anything); [|intros [r|] _; constructor; exact I].
  destruct (String.eqb (method req) "GET"); [|constructor; exact I].
  repeat match goal with
         | |- writes_only _ _ (if ?c then _ else _) => destruct c
         end;
    try (apply (writes_bind _ anything);
         [apply writes_serveFile | intros; constructor; exact I]).
  - apply (writes_bind _ _ _ _ _ writes_loadLinks). intros links _.
    apply (writes_bind _ anything); [apply writes_known | intros; constructor; exact I].
  - apply writes_redirect.
Qed.


(** ** Two creates in flight *)

Lemma step_server (rng : nat -> byte) (body : text) (w : world) :
  step (server rng (POST_shorten body)) w
  = (shorten rng body, print w (request_line (POST_shorten body))).
Proof. reflexivity. Qed.

(** The operation of [shorten] that reads the record: the request goes on
    with the table it has read, whatever is written afterwards. *)
Lemma step_shorten_read (rng : nat -> byte) (w : world) (o b : props)
      (body u code : text) :
  (exists data, links_json w = File data) ->
  table w = Some o ->
  string_valued o = true ->
  JSON_parse body = Some (VObj b) ->
  own_property b (lit "url") = Some (VStr u) ->
  u <> [] ->
  settles rng b code ->
  truthy (get_property o code) = false ->
  step (shorten rng body) w
  = (writing (table_text (define_property o code (VStr u))) code, w).
Proof.
  intros [data Hfile] Ht Hs Hbody Hurl Hu Hcode Hfree.
  destruct (settles_key _ _ _ Hcode) as [custom [Hcustom Hfinal]].
  assert (Hget : get_property b (lit "url") = Json (VStr u))
    by (unfold get_property; now rewrite Hurl).
  assert (Hset : js_set (VObj o) code (Json (VStr u))
                 = Ret (VObj (define_property o code (VStr u)))).
  { unfold js_set, define_property. destruct (has_own o code) eqn:Hown; [reflexivity|].
    destruct (text_eqb code (lit "__proto__")) eqn:Hp; [|reflexivity].
    apply text_eqb_eq in Hp. subst code.
    unfold truthy, get_property, has_own in Hfree, Hown.
    destruct (own_property o (lit "__proto__")); discriminate. }
  assert (Hread : (if is_empty data then Ret (VObj []) else parse data) = Ret (VObj o)).
  { unfold table in Ht. rewrite exec_loadLinks in Ht. unfold load in Ht.
    rewrite Hfile in Ht. destruct data as [|c data]; cbn [is_empty].
    - cbn [fst] in Ht. now injection Ht as <-.
    - unfold parse. destruct (JSON_parse (c :: data)) as [[]|]; try discriminate Ht.
      cbn [fst] in Ht. now injection Ht as <-. }
  unfold shorten, loadLinks, readFile. cbn [bind try_catch step].
  unfold read, lookup. rewrite Hfile. cbn [bind try_catch]. rewrite Hread.
  cbn [bind try_catch]. unfold parse. rewrite Hbody. cbn [bind destructure].
  rewrite Hget. cbn [ToBoolean known bind].
  destruct u as [|c0 u]; [congruence|]. cbn [is_empty negb].
  rewrite Hcustom. cbn [known bind]. rewrite Hfinal. cbn [ToPropertyKey bind js_get].
  rewrite (string_valued_truthy o code Hs), Hfree. cbn [known bind].
  rewrite Hset. cbn [bind]. unfold saveLinks, stringify.
  rewrite (stringify_table _ (string_valued_define o code (c0 :: u) Hs)).
  reflexivity.
Qed.

Lemma step_writing_open (t code : text) (w : world) :
  write_fault w = None ->
  step (writing t code) w
  = (WriteAll DATA_FILE t (Ret (created code)), set_links_json w (File [])).
Proof.
  intros Hw. unfold writing, writeFile. cbn [bind try_catch step open_trunc].
  rewrite Hw. reflexivity.
Qed.


(** ** Two saves that overlap *)

Lemma skip_ws_end (pre : text) (x : N) :
  is_ws x = false -> skip_ws (pre ++ [x]) <> [].
Proof.
  intros Hx. induction pre as [|c pre IH]; cbn [app skip_ws].
  - rewrite Hx. discriminate.
  - destruct (is_ws c); [exact IH | discriminate].
Qed.

(** What follows the text of a value keeps [JSON.parse] from accepting
    it, unless it is white space. *)
Lemma parse_trailing (v : value) (space : nat) (t rest : text) :
  well_formed v = true -> JSON_stringify v space = Some t ->
  skip_ws rest <> [] -> JSON_parse (t ++ rest) = None.
Proof.
  intros Hwf Ht Hrest. unfold JSON_stringify in Ht. unfold JSON_parse.
  rewrite skip_ws_start by (eapply serialize_start; eassumption).
  rewrite (serialize_reads_back v Hwf _ _ t Ht rest (S (List.length (t ++ rest))))
    by (rewrite length_app; lia).
  destruct (skip_ws rest); [congruence | reflexivity].
Qed.

Lemma utf8_size_positive (c : N) : 0 < utf8_size c.
Proof. unfold utf8_size. destruct (c <? 128); [|destruct (c <? 2048)]; lia. Qed.

Lemma cut_character_end (size n : N) (r : text) (x : N) :
  cut_character size n (r ++ [x]) = cut_character size n r ++ [x].
Proof. unfold cut_character. now rewrite app_assoc. Qed.

(** A text that ends with a character of one byte, cut anywhere before its
    end, still ends with that character. *)
Lemma drop_bytes_end (x : N) (t : text) :
  x < 128 ->
  (forall n, n < utf8_length (t ++ [x]) ->
             exists pre, drop_bytes n (t ++ [x]) = pre ++ [x])
  /\ (forall c n, n < utf8_length ((c :: t) ++ [x]) ->
                  exists pre, drop_bytes n ((c :: t) ++ [x]) = pre ++ [x]).
Proof.
  intros Hx.
  assert (Hsingle : is_high x = false /\ utf8_size x = 1).
  { unfold is_high, utf8_size. split.
    - apply andb_false_iff. left. apply N.leb_gt. lia.
    - apply N.ltb_lt in Hx. now rewrite Hx. }
  destruct Hsingle as [Hhigh Hsize].
  assert (Hlow : is_low x = false).
  { unfold is_low. apply andb_false_iff. left. apply N.leb_gt. lia. }
  induction t as [|d t [IH1 IH2]].
  - assert (Hbase : forall n, n < utf8_length [x] -> exists pre, drop_bytes n [x] = pre ++ [x]).
    { intros n Hn. cbn [utf8_length] in Hn. rewrite Hhigh, Hsize in Hn.
      assert (n = 0) by lia. subst n. exists []. reflexivity. }
    split; [exact Hbase|].
    intros c n Hn. cbn [app] in *.
    destruct (N.eqb_spec n 0) as [->|Hn0]; [exists [c]; reflexivity|].
    cbn [drop_bytes utf8_length] in *.
    apply N.eqb_neq in Hn0. rewrite Hn0. rewrite Hlow in *.
    rewrite Hhigh, Hsize in Hn.
    destruct (is_high c).
    + destruct (N.leb_spec 3 n).
      * apply Hbase. cbn [utf8_length]. rewrite Hhigh, Hsize. lia.
      * exists (cut_character 3 n []). apply (cut_character_end 3 n [] x).
    + destruct (N.leb_spec (utf8_size c) n).
      * apply Hbase. cbn [utf8_length]. rewrite Hhigh, Hsize. lia.
      * exists (cut_character (utf8_size c) n []).
        apply (cut_character_end (utf8_size c) n [] x).
  - split; [apply IH2|].
    intros c n Hn. cbn [app] in *.
    destruct (N.eqb_spec n 0) as [->|Hn0].
    { exists (c :: d :: t). destruct t; reflexivity. }
    apply N.eqb_neq in Hn0.
    change (drop_bytes n (c :: d :: t ++ [x]))
      with (if n =? 0 then c :: d :: t ++ [x]
            else if is_high c then
              if is_low d then
                if 4 <=? n then drop_bytes (n - 4) (t ++ [x])
                else cut_character 4 n (t ++ [x])
              else if 3 <=? n then drop_bytes (n - 3) (d :: t ++ [x])
                   else cut_character 3 n (d :: t ++ [x])
            else if utf8_size c <=? n then drop_bytes (n - utf8_size c) (d :: t ++ [x])
                 else cut_character (utf8_size c) n (d :: t ++ [x])).
    change (utf8_length (c :: d :: t ++ [x]))
      with (if is_high c then
              if is_low d then 4 + utf8_length (t ++ [x])
              else 3 + utf8_length (d :: t ++ [x])
            else utf8_size c + utf8_length (d :: t ++ [x])) in Hn.
    rewrite Hn0.
    destruct (is_high c); [destruct (is_low d)|].
    + destruct (N.leb_spec 4 n).
      * apply IH1. lia.
      * exists (cut_character 4 n t). apply cut_character_end.
    + destruct (N.leb_spec 3 n).
      * apply (IH2 d). cbn [app]. lia.
      * exists (cut_character 3 n (d :: t)). apply (cut_character_end 3 n (d :: t) x).
    + destruct (N.leb_spec (utf8_size c) n).
      * apply (IH2 d). cbn [app]. lia.
      * exists (cut_character (utf8_size c) n (d :: t)).
        apply (cut_character_end (utf8_size c) n (d :: t) x).
Qed.

Lemma table_text_end (o : props) : exists t, table_text o = t ++ [125].
Proof.
  unfold table_text, wrap.
  destruct (map member_line o) as [|p parts].
  - exists [123]. reflexivity.
  - exists (123 :: newline_indent 2 ++ join (44 :: newline_indent 2) (p :: parts)
              ++ newline_indent 0).
    cbn [app]. f_equal. rewrite <- !app_assoc. reflexivity.
Qed.

Lemma overwritten_record_fails (w : world) (o1 o2 : props) :
  string_valued o1 = true -> string_valued o2 = true -> canonical o2 = true ->
  utf8_length (table_text o2) < utf8_length (table_text o1) ->
  exec loadLinks (set_links_json w (File (overwrite (table_text o2) (table_text o1))))
  = (Thrown SyntaxError,
     set_links_json w (File (overwrite (table_text o2) (table_text o1)))).
Proof.
  intros Hs1 Hs2 Hc2 Hlen.
  destruct (table_text_end o1) as [t1 E1].
  assert (Htail : exists pre,
             drop_bytes (utf8_length (table_text o2)) (table_text o1) = pre ++ [125]).
  { rewrite E1 in Hlen |- *. apply (drop_bytes_end 125 t1); [reflexivity | exact Hlen]. }
  destruct Htail as [pre Htail].
  assert (Hparse : JSON_parse (overwrite (table_text o2) (table_text o1)) = None).
  { unfold overwrite. apply (parse_trailing (VObj o2) 2).
    - cbn [well_formed]. rewrite Hc2. cbn [andb].
      apply forallb_forall. intros [k v] Hin. unfold string_valued in Hs2.
      rewrite forallb_forall in Hs2. specialize (Hs2 _ Hin). cbn [snd] in *.
      now destruct v.
    - now apply stringify_table.
    - rewrite Htail. now apply skip_ws_end. }
  rewrite exec_loadLinks. unfold load. cbn [links_json set_links_json].
  rewrite Hparse. unfold overwrite.
  destruct (table_text_cons o2) as [r ->]. reflexivity.
Qed.

(** X16.  Two create requests that overlap can leave a record that no
    longer loads.  Both read the record and find their codes free; both
    open the record; then both write, each from the start of the file.
    When the table of the request that writes last is shorter in bytes
    than the table of the other, both are answered 201, the record is the
    shorter text followed by the end of the longer one, [loadLinks] throws
    a [SyntaxError] on it, and every later [POST /shorten] is answered
    500. *)
Theorem overlapping_creates_corrupt_record (rng1 rng2 : nat -> byte) (w : world)
    (o : props) (body1 body2 u1 u2 : text) (c1 c2 : option text) :
  holds w o -> (exists data, links_json w = File data) ->
  create_request body1 u1 c1 -> u1 <> [] ->
  truthy (get_property o (final_code rng1 c1)) = false ->
  create_request body2 u2 c2 -> u2 <> [] ->
  truthy (get_property o (final_code rng2 c2)) = false ->
  utf8_length (table_text (define_property o (final_code rng2 c2) (VStr u2)))
  < utf8_length (table_text (define_property o (final_code rng1 c1) (VStr u1))) ->
  exists w',
    run_pool both_open_before_write
      [server rng1 (POST_shorten body1); server rng2 (POST_shorten body2)] w
    = ([Ret (created (final_code rng1 c1)); Ret (created (final_code rng2 c2))], w')
    /\ links_json w'
       = File (overwrite
                 (table_text (define_property o (final_code rng2 c2) (VStr u2)))
                 (table_text (define_property o (final_code rng1 c1) (VStr u1))))
    /\ exec loadLinks w' = (Thrown SyntaxError, w')
    /\ (forall rng body,
          fst (exec (server rng (POST_shorten body)) w') = Returned server_error).
Proof.
  intros (Ht & Hs & Hw) [data Hfile] (b1 & Hb1 & Hurl1 & Hsc1) Hu1 Hfree1
         (b2 & Hb2 & Hurl2 & Hsc2) Hu2 Hfree2 Hlen.
  pose (l1 := request_line (POST_shorten body1)).
  pose (l2 := request_line (POST_shorten body2)).
  assert (Hcanon : canonical o = true).
  { apply table_load in Ht as [w1 Hload]. eapply load_canonical; eassumption. }
  assert (H1 : step (shorten rng1 body1) (print w l1)
               = (writing (table_text (define_property o (final_code rng1 c1) (VStr u1)))
                    (final_code rng1 c1), print w l1)).
  { apply (step_shorten_read rng1 _ o b1); try assumption.
    - exists data. exact Hfile.
    - now rewrite table_print.
    - now apply final_code_settles. }
  assert (H2 : step (shorten rng2 body2) (print (print w l1) l2)
               = (writing (table_text (define_property o (final_code rng2 c2) (VStr u2)))
                    (final_code rng2 c2), print (print w l1) l2)).
  { apply (step_shorten_read rng2 _ o b2); try assumption.
    - exists data. exact Hfile.
    - now rewrite !table_print.
    - now apply final_code_settles. }
  assert (Hload : forall w0,
             exec loadLinks
               (set_links_json w0
                  (File (overwrite
                           (table_text (define_property o (final_code rng2 c2) (VStr u2)))
                           (table_text (define_property o (final_code rng1 c1) (VStr u1))))))
             = (Thrown SyntaxError,
                set_links_json w0
                  (File (overwrite
                           (table_text (define_property o (final_code rng2 c2) (VStr u2)))
                           (table_text (define_property o (final_code rng1 c1) (VStr u1))))))).
  { intros w0. apply overwritten_record_fails; try assumption;
      try (now apply string_valued_define). now apply canonical_define_property. }
  eexists. split; [|split; [|split]].
  - unfold both_open_before_write. cbn [run_pool step_at].
    rewrite step_server. cbn [fst snd]. fold l1. rewrite H1. cbn [fst snd].
    rewrite step_server. cbn [fst snd]. fold l2. rewrite H2. cbn [fst snd].
    rewrite step_writing_open by exact Hw. cbn [fst snd].
    rewrite step_writing_open by exact Hw. cbn [fst snd step].
    rewrite write_all_opened.
    unfold write_all. cbn [links_json set_links_json content].
    reflexivity.
  - reflexivity.
  - apply Hload.
  - intros rng body. rewrite server_POST_shorten.
    erewrite shorten_store_failure; [reflexivity|].
    rewrite load_print.
    match goal with
    | |- context [exec loadLinks (set_links_json ?w0 _)] => rewrite (Hload w0)
    end.
    reflexivity.
Qed.

Lemma overlapping_creates_corrupt_record_witness :
  let w := store (File (jlit "{'abc':'http://example.com/a'}")) in
  let o := [(lit "abc", VStr (lit "http://example.com/a"))] in
  let body1 := jlit "{'url':'http://example.com/a-long-destination','shortCode':'x'}" in
  let body2 := jlit "{'url':'http://example.com/y','shortCode':'y'}" in
  exists w',
    run_pool both_open_before_write
      [server example_rng (POST_shorten body1); server example_rng (POST_shorten body2)] w
    = ([Ret (created (lit "x")); Ret (created (lit "y"))], w')
    /\ links_json w'
       = File (overwrite
                 (table_text (define_property o (lit "y") (VStr (lit "http://example.com/y"))))
                 (table_text (define_property o (lit "x")
                                (VStr (lit "http://example.com/a-long-destination")))))
    /\ exec loadLinks w' = (Thrown SyntaxError, w')
    /\ (forall rng body,
          fst (exec (server rng (POST_shorten body)) w') = Returned server_error).
Proof.
  cbv zeta.
  apply (overlapping_creates_corrupt_record example_rng example_rng
           (store (File (jlit "{'abc':'http://example.com/a'}")))
           [(lit "abc", VStr (lit "http://example.com/a"))]
           (jlit "{'url':'http://example.com/a-long-destination','shortCode':'x'}")
           (jlit "{'url':'http://example.com/y','shortCode':'y'}")
           (lit "http://example.com/a-long-destination") (lit "http://example.com/y")
           (Some (lit "x")) (Some (lit "y"))).
  - repeat split.
  - eexists. reflexivity.
  - exists [(lit "url", VStr (lit "http://example.com/a-long-destination"));
            (lit "shortCode", VStr (lit "x"))].
    repeat split; vm_compute; reflexivity.
  - discriminate.
  - reflexivity.
  - exists [(lit "url", VStr (lit "http://example.com/y")); (lit "shortCode", VStr (lit "y"))].
    repeat split; vm_compute; reflexivity.
  - discriminate.
  - reflexivity.
  - vm_compute. reflexivity.
Defined.

(** X17.  Two create requests for different codes can lose a link.  Both
    read the record and find their codes free; then the first opens the
    record and writes it, and after that the second opens the record and
    writes it ([both_read_first]).  Both are answered 201, and the record
    ends as the table both have read plus the link of the second request.
    The link of the first request, though answered 201, is not in the
    table. *)
Theorem interleaved_creates_lose_a_link (rng1 rng2 : nat -> byte) (w : world)
    (o : props) (body1 body2 u1 u2 : text) (c1 c2 : option text) :
  holds w o -> (exists data, links_json w = File data) ->
  create_request body1 u1 c1 -> u1 <> [] ->
  truthy (get_property o (final_code rng1 c1)) = false ->
  create_request body2 u2 c2 -> u2 <> [] ->
  truthy (get_property o (final_code rng2 c2)) = false ->
  final_code rng1 c1 <> final_code rng2 c2 ->
  exists w',
    run_pool both_read_first
      [server rng1 (POST_shorten body1); server rng2 (POST_shorten body2)] w
    = ([Ret (created (final_code rng1 c1)); Ret (created (final_code rng2 c2))], w')
    /\ table w' = Some (define_property o (final_code rng2 c2) (VStr u2))
    /\ own_property (define_property o (final_code rng2 c2) (VStr u2))
         (final_code rng1 c1)
       = own_property o (final_code rng1 c1)
    /\ own_property o (final_code rng1 c1) <> Some (VStr u1).
Proof.
  intros (Ht & Hs & Hw) [data Hfile] (b1 & Hb1 & Hurl1 & Hsc1) Hu1 Hfree1
         (b2 & Hb2 & Hurl2 & Hsc2) Hu2 Hfree2 Hdiff.
  pose (l1 := request_line (POST_shorten body1)).
  pose (l2 := request_line (POST_shorten body2)).
  assert (Hcanon : canonical o = true).
  { apply table_load in Ht as [w1 Hload]. eapply load_canonical; eassumption. }
  assert (H1 : step (shorten rng1 body1) (print w l1)
               = (writing (table_text (define_property o (final_code rng1 c1) (VStr u1)))
                    (final_code rng1 c1), print w l1)).
  { apply (step_shorten_read rng1 _ o b1); try assumption.
    - exists data. exact Hfile.
    - now rewrite table_print.
    - now apply final_code_settles. }
  assert (H2 : step (shorten rng2 body2) (print (print w l1) l2)
               = (writing (table_text (define_property o (final_code rng2 c2) (VStr u2)))
                    (final_code rng2 c2), print (print w l1) l2)).
  { apply (step_shorten_read rng2 _ o b2); try assumption.
    - exists data. exact Hfile.
    - now rewrite !table_print.
    - now apply final_code_settles. }
  eexists. split; [|split; [|split]].
  - unfold both_read_first. cbn [run_pool step_at].
    rewrite step_server. cbn [fst snd]. fold l1. rewrite H1. cbn [fst snd].
    rewrite step_server. cbn [fst snd]. fold l2. rewrite H2. cbn [fst snd].
    rewrite step_writing_open by exact Hw. cbn [fst snd step].
    rewrite write_all_opened.
    rewrite step_writing_open by exact Hw. cbn [fst snd step].
    rewrite write_all_opened. reflexivity.
  - apply table_saved; [now apply string_valued_define|].
    now apply canonical_define_property.
  - rewrite own_define_property.
    destruct (text_eqb (final_code rng2 c2) (final_code rng1 c1)) eqn:E; [|reflexivity].
    apply text_eqb_eq in E. congruence.
  - intros Hown. unfold truthy, get_property in Hfree1. rewrite Hown in Hfree1.
    destruct u1; [congruence | discriminate Hfree1].
Qed.

Lemma interleaved_creates_lose_a_link_witness :
  let w := store (File (jlit "{'abc':'http://example.com/a'}")) in
  let o := [(lit "abc", VStr (lit "http://example.com/a"))] in
  let body1 := jlit "{'url':'http://example.com/x','shortCode':'x'}" in
  let body2 := jlit "{'url':'http://example.com/y'}" in
  exists w',
    run_pool both_read_first
      [server example_rng (POST_shorten body1); server example_rng (POST_shorten body2)] w
    = ([Ret (created (lit "x")); Ret (created (lit "00ab0fff"))], w')
    /\ table w' = Some (define_property o (lit "00ab0fff") (VStr (lit "http://example.com/y")))
    /\ own_property (define_property o (lit "00ab0fff") (VStr (lit "http://example.com/y")))
         (lit "x")
       = own_property o (lit "x")
    /\ own_property o (lit "x") <> Some (VStr (lit "http://example.com/x")).
Proof.
  cbv zeta.
  apply (interleaved_creates_lose_a_link example_rng example_rng
           (store (File (jlit "{'abc':'http://example.com/a'}")))
           [(lit "abc", VStr (lit "http://example.com/a"))]
           (jlit "{'url':'http://example.com/x','shortCode':'x'}")
           (jlit "{'url':'http://example.com/y'}")
           (lit "http://example.com/x") (lit "http://example.com/y")
           (Some (lit "x")) None).
  - repeat split.
  - eexists. reflexivity.
  - exists [(lit "url", VStr (lit "http://example.com/x")); (lit "shortCode", VStr (lit "x"))].
    repeat split; vm_compute; reflexivity.
  - discriminate.
  - reflexivity.
  - exists [(lit "url", VStr (lit "http://example.com/y"))].
    repeat split; vm_compute; reflexivity.
  - discriminate.
  - reflexivity.
  - vm_compute. discriminate.
Defined.


(** ** The list *)

(** X18.  What [GET /links] sends is the table: when the store loads, the
    answer is 200 with the compact JSON text of the loaded value, and
    parsing that text gives the loaded value back, every entry with its
    destination and in the order of the table.  (A value holding a number
    is outside the model.) *)
Theorem list_is_the_table (rng : nat -> byte) (w w1 : world) (links : value)
    (text : text) :
  exec loadLinks w = (Returned links, w1) ->
  JSON_stringify links 0 = Some text ->
  exec (server rng (GET (lit "/links"))) w
  = (Returned (mkResponse 200 json_headers text),
     print w1 (request_line (GET (lit "/links"))))
  /\ JSON_parse text = Some links.
Proof.
  intros Hload Htext. split.
  - rewrite server_GET_links, load_print, Hload. cbn [fst snd]. now rewrite Htext.
  - apply (JSON_round_trip links 0); [|assumption].
    eapply load_well_formed; eassumption.
Qed.

Lemma list_is_the_table_witness :
  let w := store (File (jlit "{ 'b' : 'http://example.com/b', '7' : 'http://example.com/7' }")) in
  let links := VObj [(lit "7", VStr (lit "http://example.com/7"));
                     (lit "b", VStr (lit "http://example.com/b"))] in
  let text := jlit "{'7':'http://example.com/7','b':'http://example.com/b'}" in
  exec (server example_rng (GET (lit "/links"))) w
  = (Returned (mkResponse 200 json_headers text),
     print w (request_line (GET (lit "/links"))))
  /\ JSON_parse text = Some links.
Proof.
  cbv zeta.
  apply (list_is_the_table example_rng
           (store (File (jlit "{ 'b' : 'http://example.com/b', '7' : 'http://example.com/7' }")))).
  - reflexivity.
  - reflexivity.
Defined.

(** ** Creates served one after another, each with its own code *)

Lemma own_add_links_other (cs : list creation) :
  forall (o : props) (k : text),
    ~ In k (map creation_code cs) ->
    own_property (add_links o cs) k = own_property o k.
Proof.
  unfold add_links. induction cs as [|c cs IH]; intros o k Hk; [reflexivity|].
  cbn [fold_left]. cbn [map In] in Hk. rewrite IH by tauto.
  rewrite own_define_property.
  destruct (text_eqb (creation_code c) k) eqn:E; [|reflexivity].
  apply text_eqb_eq in E. tauto.
Qed.

Lemma acceptable_after (o : props) (c c' : creation) :
  creation_code c <> creation_code c' ->
  acceptable o c' ->
  acceptable (define_property o (creation_code c) (VStr (creation_url c))) c'.
Proof.
  intros Hdiff (Hreq & Hu & Hc & Hfree). repeat split; try assumption.
  unfold truthy, get_property in *. rewrite own_define_property.
  destruct (text_eqb (creation_code c) (creation_code c')) eqn:E; [|assumption].
  apply text_eqb_eq in E. contradiction.
Qed.

(** X19.  Create requests served one after another, for codes that differ
    from each other and read as free, are all answered 201 with their
    codes, and afterwards the store is healthy and the table holds every
    one of the links, each with its own destination; the codes not named
    by any of the requests map to what they mapped to before. *)
Theorem creates_in_sequence_all_stored (rng : nat -> byte) (cs : list creation) :
  forall (w : world) (o : props),
    holds w o ->
    Forall (acceptable o) cs ->
    NoDup (map creation_code cs) ->
    exists w',
      serve_all rng (map (fun c => POST_shorten (creation_body c)) cs) w
      = (map (fun c => Returned (created (creation_code c))) cs, w')
      /\ holds w' (add_links o cs)
      /\ (forall c, In c cs ->
          own_property (add_links o cs) (creation_code c) = Some (VStr (creation_url c)))
      /\ (forall k, ~ In k (map creation_code cs) ->
          own_property (add_links o cs) k = own_property o k).
Proof.
  induction cs as [|c cs IH]; intros w o Hh Hall Hnodup.
  - exists w. split; [reflexivity|]. split; [exact Hh|].
    split; [intros c [] | reflexivity].
  - inversion Hall as [|? ? Hc Hrest]; subst.
    inversion Hnodup as [|? ? Hnotin Hnodup']; subst.
    destruct Hh as (Ht & Hs & Hw).
    destruct Hc as ((b & Hbody & Hurl & Hsc) & Hu & Hcode & Hfree).
    destruct (create_fresh rng w o b (creation_body c) (creation_url c) (creation_code c)
                Ht Hw Hs Hbody Hurl Hu
                (create_request_settles rng b _ Hsc Hcode) Hfree)
      as (w1 & Hexec & _ & _ & Ht1 & Hw1).
    destruct (IH w1 (define_property o (creation_code c) (VStr (creation_url c))))
      as (w' & Hserve & Hh' & Hin & Hout).
    + repeat split; try assumption. now apply string_valued_define.
    + apply Forall_forall. intros c' Hc'. apply acceptable_after.
      * intros E. apply Hnotin. rewrite E. now apply in_map.
      * rewrite Forall_forall in Hrest. now apply Hrest.
    + assumption.
    + exists w'. cbn [map serve_all]. rewrite Hexec. cbn [fst snd]. rewrite Hserve.
      split; [reflexivity|]. split; [exact Hh'|]. split.
      * intros c' [<- | Hc']; [|now apply Hin].
        change (add_links o (c :: cs))
          with (add_links (define_property o (creation_code c) (VStr (creation_url c))) cs).
        rewrite own_add_links_other by assumption.
        now rewrite own_define_property, text_eqb_refl.
      * intros k Hk. cbn [map In] in Hk.
        change (add_links o (c :: cs))
          with (add_links (define_property o (creation_code c) (VStr (creation_url c))) cs).
        rewrite Hout by tauto. rewrite own_define_property.
        destruct (text_eqb (creation_code c) k) eqn:E; [|reflexivity].
        apply text_eqb_eq in E. tauto.
Qed.

Lemma creates_in_sequence_all_stored_witness :
  let w := store (File (jlit "{'abc':'http://example.com/a'}")) in
  let o := [(lit "abc", VStr (lit "http://example.com/a"))] in
  let cs :=
    [mkCreation (jlit "{'url':'http://example.com/x','shortCode':'x'}")
       (lit "x") (lit "http://example.com/x");
     mkCreation (jlit "{'url':'http://example.com/7','shortCode':'7'}")
       (lit "7") (lit "http://example.com/7")] in
  exists w',
    serve_all example_rng (map (fun c => POST_shorten (creation_body c)) cs) w
    = (map (fun c => Returned (created (creation_code c))) cs, w')
    /\ holds w' (add_links o cs)
    /\ (forall c, In c cs ->
        own_property (add_links o cs) (creation_code c) = Some (VStr (creation_url c)))
    /\ (forall k, ~ In k (map creation_code cs) ->
        own_property (add_links o cs) k = own_property o k).
Proof.
  cbv zeta.
  apply (creates_in_sequence_all_stored example_rng).
  - repeat split.
  - repeat constructor; try discriminate.
    + exists [(lit "url", VStr (lit "http://example.com/x")); (lit "shortCode", VStr (lit "x"))].
      repeat split; vm_compute; reflexivity.
    + exists [(lit "url", VStr (lit "http://example.com/7")); (lit "shortCode", VStr (lit "7"))].
      repeat split; vm_compute; reflexivity.
  - repeat constructor; cbn [map In creation_code]; intros H;
      repeat (destruct H as [H|H]; [discriminate H|]); exact H.
Defined.


(** ** The page and the server *)

Lemma form_body_text (url shortCode : option text) :
  exists sent,
    JSON_stringify (form_body url shortCode) 0 = Some sent
    /\ JSON_parse sent = Some (form_body url shortCode).
Proof.
  assert (H : exists sent, JSON_stringify (form_body url shortCode) 0 = Some sent)
    by (destruct url, shortCode; eexists; reflexivity).
  destruct H as [sent H]. exists sent. split; [exact H|].
  apply (JSON_round_trip _ 0); [|exact H].
  destruct url, shortCode; reflexivity.
Qed.

(** X20.  What the page sends is what the server reads.  Whatever the two
    fields of the form hold (quotes, backslashes, control characters,
    unpaired surrogates, nothing at all), the body the page makes of them
    parses on the server to an object whose [url] and [shortCode] are
    exactly the two fields, [null] for a field the form does not have. *)
Theorem form_fields_reach_server (url shortCode : option text) :
  exists sent b,
    JSON_stringify (form_body url shortCode) 0 = Some sent
    /\ JSON_parse sent = Some (VObj b)
    /\ own_property b (lit "url") = Some (field url)
    /\ own_property b (lit "shortCode") = Some (field shortCode).
Proof.
  destruct (form_body_text url shortCode) as (sent & Hsent & Hparse).
  exists sent, [(lit "url", field url); (lit "shortCode", field shortCode)].
  repeat split; assumption.
Qed.

Lemma created_parses (code : text) :
  JSON_parse (body (created code))
  = Some (VObj [(lit "success", VBool true); (lit "shortCode", VStr code)]).
Proof.
  apply (JSON_round_trip _ 0); reflexivity.
Qed.

Lemma append_links_strings (origin : text) (o : props) :
  forall s,
    string_valued o = true ->
    append_links origin o s
    = (Returned tt, set_shortened_urls (shortened_urls s ++ map (entry_item origin) o) s).
Proof.
  induction o as [|[k v] o IH]; intros s Hs.
  - cbn [append_links map]. rewrite app_nil_r. now destruct s.
  - cbn [string_valued forallb snd] in Hs. apply andb_true_iff in Hs as [Hv Hs].
    destruct v; try discriminate Hv.
    cbn [append_links]. unfold bind_script, ToString, evaluate, dom.
    cbn [ToPropertyKey]. rewrite (IH _ Hs).
    unfold appendChild, set_shortened_urls, entry_item.
    cbn [shortened_urls message_text message_classes form_resets fetch_errors
         pending online site map fst snd].
    now rewrite <- app_assoc.
Qed.


(** The listener, once the server has answered 201. *)
Lemma on_submit_created (rng : nat -> byte) (origin : text) (s : browser)
      (url shortCode : option text) (sent code : text) (w' : world) :
  online s = true ->
  JSON_stringify (form_body url shortCode) 0 = Some sent ->
  exec (server rng (POST_shorten sent)) (site s) = (Returned (created code), w') ->
  on_submit rng origin url shortCode s
  = (Returned tt,
     reset
       (prepend (Li_link (origin ++ lit "/" ++ code) (origin ++ lit "/" ++ code)
                   (lit "_blank"))
          (set_message_classes [lit "success"]
             (set_message_text (lit "URL successfully shortened!")
                (set_pending (pending s ++ [FetchShortenedUrl])
                   (set_site w'
                      (set_message_classes [] (set_message_text [] s)))))))).
Proof.
  intros Honline Hsent Hexec.
  assert (Hsuccess : js_get (VObj [(lit "success", VBool true); (lit "shortCode", VStr code)])
                       (lit "success") = Ret (Json (VBool true))) by reflexivity.
  assert (Hcode : js_get (VObj [(lit "success", VBool true); (lit "shortCode", VStr code)])
                    (lit "shortCode") = Ret (Json (VStr code))) by reflexivity.
  unfold on_submit, bind_script, try_script, dom, spawn, evaluate, stringify.
  rewrite Hsent. cbn [known]. unfold fetch at 1.
  cbn [online set_message_classes set_message_text site].
  rewrite Honline.
  change (mkRequest "POST" (lit "/shorten") sent) with (POST_shorten sent).
  rewrite Hexec. unfold json, evaluate, parse. rewrite created_parses.
  change (ok (created code)) with true. cbv iota. rewrite Hsuccess.
  cbn [ToBoolean known]. rewrite Hcode. unfold ToString, evaluate.
  cbn [ToPropertyKey].
  unfold dom. reflexivity.
Qed.

(** The listener, once the server has refused with a message. *)
Lemma on_submit_refused (rng : nat -> byte) (origin : text) (s : browser)
      (url shortCode : option text) (sent m : text) (r : response) (b : props)
      (w' : world) :
  online s = true ->
  JSON_stringify (form_body url shortCode) 0 = Some sent ->
  exec (server rng (POST_shorten sent)) (site s) = (Returned r, w') ->
  ok r = false ->
  JSON_parse (body r) = Some (VObj b) ->
  own_property b (lit "message") = Some (VStr m) -> m <> [] ->
  on_submit rng origin url shortCode s
  = (Returned tt,
     set_message_classes [lit "error"]
       (set_message_text (lit "Error: " ++ m)
          (set_site w' (set_message_classes [] (set_message_text [] s))))).
Proof.
  intros Honline Hsent Hexec Hok Hbody Hmessage Hm.
  unfold on_submit, bind_script, try_script, dom, spawn, evaluate, stringify.
  rewrite Hsent. cbn [known]. unfold fetch at 1.
  cbn [online set_message_classes set_message_text site].
  rewrite Honline.
  change (mkRequest "POST" (lit "/shorten") sent) with (POST_shorten sent).
  rewrite Hexec. unfold json, evaluate, parse. rewrite Hbody, Hok.
  unfold unit_script. cbn [js_get]. unfold get_property. rewrite Hmessage.
  destruct m as [|x m]; [congruence|].
  cbn [ToBoolean is_empty negb known]. unfold ToString, evaluate.
  cbn [ToPropertyKey]. reflexivity.
Qed.

Lemma list_after_create (rng : nat -> byte) (w : world) (o : props) :
  table w = Some o -> string_valued o = true ->
  exists text w',
    exec (server rng (GET (lit "/links"))) w
      = (Returned (mkResponse 200 json_headers text), w')
    /\ JSON_parse text = Some (VObj o)
    /\ table w' = Some o.
Proof.
  intros Ht Hs. apply table_load in Ht as [w1 Hload].
  destruct (list_answered rng w o) as (text & w' & Hexec & Htext);
    [apply table_load; eauto | assumption |].
  exists text, (print w1 (request_line (GET (lit "/links")))).
  split; [|split].
  - rewrite server_GET_links, load_print, Hload. cbn [fst snd]. now rewrite Htext.
  - apply (JSON_round_trip _ 0); [|assumption].
    eapply load_well_formed; eassumption.
  - rewrite table_print. apply table_load. exists w1. eapply load_again; eassumption.
Qed.

(** X21.  A link created from the page is shown.  With the server reached
    and the store healthy, submitting a destination that is not empty with
    a code that reads as free (or with no code: the generated one) ends
    with the message [URL successfully shortened!] in class [success], the
    form reset, the link in the table, and the list showing exactly the
    entries of the table after the create, one item each, in the order of
    the table.  (The item the listener puts on top of the list is replaced
    with the rest when the refreshed list arrives.) *)
Theorem created_link_shown (rng : nat -> byte) (origin : text) (s : browser)
    (o : props) (u c : text) :
  online s = true -> pending s = [] ->
  holds (site s) o -> u <> [] ->
  truthy (get_property o (final_code rng (Some c))) = false ->
  exists s',
    submit rng origin (Some u) (Some c) s = Some s'
    /\ message_text s' = lit "URL successfully shortened!"
    /\ message_classes s' = [lit "success"]
    /\ form_resets s' = S (form_resets s)
    /\ table (site s') = Some (define_property o (final_code rng (Some c)) (VStr u))
    /\ shortened_urls s'
       = map (entry_item origin) (define_property o (final_code rng (Some c)) (VStr u))
    /\ fetch_errors s' = fetch_errors s.
Proof.
  intros Honline Hpending (Ht & Hs & Hw) Hu Hfree.
  destruct (form_body_text (Some u) (Some c)) as (sent & Hsent & Hparse).
  assert (Hset : settles rng [(lit "url", VStr u); (lit "shortCode", VStr c)]
                   (final_code rng (Some c)))
    by (now apply (final_code_settles rng _ (Some c))).
  destruct (create_fresh rng (site s) o
              [(lit "url", VStr u); (lit "shortCode", VStr c)]
              sent u (final_code rng (Some c))
              Ht Hw Hs Hparse eq_refl Hu Hset Hfree)
    as (w' & Hexec & _ & _ & Htable & _).
  assert (Hs' := string_valued_define o (final_code rng (Some c)) u Hs).
  destruct (list_after_create rng w' _ Htable Hs') as (text & w'' & Hlist & Htext & Ht'').
  exists (set_shortened_urls
            (map (entry_item origin) (define_property o (final_code rng (Some c)) (VStr u)))
            (set_site w''
               (set_pending []
                  (reset
                     (prepend (Li_link (origin ++ lit "/" ++ final_code rng (Some c))
                                 (origin ++ lit "/" ++ final_code rng (Some c))
                                 (lit "_blank"))
                        (set_message_classes [lit "success"]
                           (set_message_text (lit "URL successfully shortened!")
                              (set_pending (pending s ++ [FetchShortenedUrl])
                                 (set_site w'
                                    (set_message_classes []
                                       (set_message_text [] s))))))))))).
  split; [|repeat split; assumption].
  unfold submit.
  rewrite (on_submit_created rng origin s (Some u) (Some c) sent _ w' Honline Hsent Hexec).
  cbn [pending reset prepend set_form_resets set_shortened_urls
       set_message_classes set_message_text set_pending set_site].
  rewrite Hpending. cbn [app settle run_task].
  unfold fetchShortenedUrl, bind_script.
  unfold fetch at 1.
  cbn [online site reset prepend set_form_resets set_shortened_urls
       set_message_classes set_message_text set_pending set_site].
  rewrite Honline, Hlist.
  unfold json, evaluate, parse. cbn [body]. rewrite Htext.
  unfold dom, Object_entries, unit_script. rewrite (append_links_strings origin _ _ Hs').
  reflexivity.
Qed.

Lemma created_link_shown_witness :
  let s := mkBrowser (lit "Error: URL is required.") [lit "error"] [] 0 [] [] true
             (store (File (jlit "{'abc':'http://example.com/a'}"))) in
  let o := [(lit "abc", VStr (lit "http://example.com/a"))] in
  let origin := lit "http://localhost:3002" in
  exists s',
    submit example_rng origin (Some (lit "http://example.com/x")) (Some (lit "7")) s
    = Some s'
    /\ message_text s' = lit "URL successfully shortened!"
    /\ message_classes s' = [lit "success"]
    /\ form_resets s' = 1%nat
    /\ table (site s')
       = Some [(lit "7", VStr (lit "http://example.com/x"));
               (lit "abc", VStr (lit "http://example.com/a"))]
    /\ shortened_urls s'
       = map (entry_item origin)
           [(lit "7", VStr (lit "http://example.com/x"));
            (lit "abc", VStr (lit "http://example.com/a"))]
    /\ fetch_errors s' = [].
Proof.
  cbv zeta.
  apply (created_link_shown example_rng (lit "http://localhost:3002")
           (mkBrowser (lit "Error: URL is required.") [lit "error"] [] 0 [] [] true
              (store (File (jlit "{'abc':'http://example.com/a'}"))))
           [(lit "abc", VStr (lit "http://example.com/a"))]
           (lit "http://example.com/x") (lit "7")).
  - reflexivity.
  - reflexivity.
  - repeat split.
  - discriminate.
  - reflexivity.
Defined.

(** X22.  A refusal of the server is shown with its message.  When the
    server answers the create request of the page with one of its three
    refusals (400 URL is required, 400 short code already exists, 500
    server error), the page shows [Error: ] followed by the message of
    the server, in class [error]; the list and the form are left as they
    were, and no refresh of the list is started. *)
Theorem refusal_shown (rng : nat -> byte) (origin : text) (s : browser)
    (url shortCode : option text) (sent m : text) (r : response) (w' : world) :
  online s = true -> pending s = [] ->
  JSON_stringify (form_body url shortCode) 0 = Some sent ->
  exec (server rng (POST_shorten sent)) (site s) = (Returned r, w') ->
  In (r, m) refusals ->
  exists s',
    submit rng origin url shortCode s = Some s'
    /\ message_text s' = lit "Error: " ++ m
    /\ message_classes s' = [lit "error"]
    /\ shortened_urls s' = shortened_urls s
    /\ form_resets s' = form_resets s
    /\ fetch_errors s' = fetch_errors s
    /\ site s' = w'.
Proof.
  intros Honline Hpending Hsent Hexec Hin.
  assert (Hrun : on_submit rng origin url shortCode s
                 = (Returned tt,
                    set_message_classes [lit "error"]
                      (set_message_text (lit "Error: " ++ m)
                         (set_site w' (set_message_classes [] (set_message_text [] s)))))).
  { destruct Hin as [E|[E|[E|[]]]]; injection E as <- <-.
    - apply (on_submit_refused rng origin s url shortCode sent _ _
               [(lit "success", VBool false); (lit "message", VStr (lit "URL is required."))]
               w' Honline Hsent Hexec);
        [reflexivity | vm_compute; reflexivity | reflexivity | discriminate].
    - apply (on_submit_refused rng origin s url shortCode sent _ _
               [(lit "success", VBool false);
                (lit "message",
                 VStr (lit "Short code already exists. Please choose another."))]
               w' Honline Hsent Hexec);
        [reflexivity | vm_compute; reflexivity | reflexivity | discriminate].
    - apply (on_submit_refused rng origin s url shortCode sent _ _
               [(lit "success", VBool false); (lit "message", VStr (lit "Server error."))]
               w' Honline Hsent Hexec);
        [reflexivity | vm_compute; reflexivity | reflexivity | discriminate]. }
  eexists. unfold submit. rewrite Hrun.
  cbn [pending set_message_classes set_message_text set_site]. rewrite Hpending.
  cbn [settle]. split; [reflexivity|]. repeat split.
Qed.

Lemma refusal_shown_witness :
  let s := mkBrowser [] [] [Li_link (lit "http://localhost:3002/abc")
                              (lit "http://localhost:3002/abc") (lit "_blank")]
             1 [] [] true (store (File (jlit "{'abc':'http://example.com/a'}"))) in
  let sent := jlit "{'url':'http://example.com/b','shortCode':'abc'}" in
  exists s',
    submit example_rng (lit "http://localhost:3002")
      (Some (lit "http://example.com/b")) (Some (lit "abc")) s = Some s'
    /\ message_text s'
       = lit "Error: " ++ lit "Short code already exists. Please choose another."
    /\ message_classes s' = [lit "error"]
    /\ shortened_urls s' = shortened_urls s
    /\ form_resets s' = form_resets s
    /\ fetch_errors s' = fetch_errors s
    /\ site s' = print (site s) (request_line (POST_shorten sent)).
Proof.
  cbv zeta.
  apply (refusal_shown example_rng (lit "http://localhost:3002") _ _ _
           (jlit "{'url':'http://example.com/b','shortCode':'abc'}") _ code_exists).
  - reflexivity.
  - reflexivity.
  - reflexivity.
  - reflexivity.
  - right. left. reflexivity.
Defined.


(** ** Where a redirect can lead *)

Lemma string_valued_own (o : props) (k : text) (v : value) :
  string_valued o = true -> own_property o k = Some v -> exists s, v = VStr s.
Proof.
  intros Hs E. induction o as [|[k' v'] o IH]; [discriminate E|].
  cbn [string_valued forallb snd] in Hs. apply andb_true_iff in Hs as [H1 H2].
  cbn [own_property] in E. destruct (text_eqb k' k).
  - injection E as <-. destruct v'; try discriminate H1. eauto.
  - now apply IH.
Qed.

(** X23.  A redirect leads only where the table says.  For a path that is
    not one of the server's own and whose code is no member name of
    [Object.prototype], and a record that fails to load or loads as a
    table of strings, a [GET] is always answered: with the generic 404,
    or with the 301 whose [Location] is the string the table holds for
    the path without its first character; that string is not empty and
    can stand in a header. *)
Theorem redirect_only_to_stored (rng : nat -> byte) (w : world) (addr : text) :
  reserved_path addr = false ->
  is_inherited (tl addr) = false ->
  table_or_failure w ->
  exists r w',
    exec (server rng (GET addr)) w = (Returned r, w')
    /\ (r = not_found
        \/ exists o u,
             table w = Some o
             /\ own_property o (tl addr) = Some (VStr u)
             /\ u <> [] /\ forallb valid_header_char u = true
             /\ r = moved u).
Proof.
  intros Hres Hinh Hstore. rewrite server_GET by assumption.
  unfold redirect, table, table_or_failure in *.
  rewrite exec_try_catch, exec_bind, load_print.
  destruct (exec loadLinks w) as [[links|e|] w1]; cbn [fst snd] in *; cbv zeta;
    [|do 2 eexists; split; [reflexivity | now left] | contradiction].
  destruct links as [| | | | |o]; try contradiction.
  cbn [js_get bind exec]. unfold get_property.
  destruct (own_property o (tl addr)) as [v|] eqn:Hown.
  - destruct (string_valued_own o _ v Hstore Hown) as [[|c u] ->];
      cbn [ToBoolean is_empty negb known bind exec header_value].
    + do 2 eexists. split; [reflexivity | now left].
    + destruct (forallb valid_header_char (c :: u)) eqn:Hvalid; cbn [bind exec].
      * do 2 eexists. split; [reflexivity|]. right. exists o, (c :: u).
        split; [reflexivity|]. split; [exact Hown|]. split; [discriminate|].
        split; [assumption | reflexivity].
      * do 2 eexists. split; [reflexivity | now left].
  - rewrite Hinh. cbn [ToBoolean known bind exec].
    do 2 eexists. split; [reflexivity | now left].
Qed.

Lemma redirect_only_to_stored_witness :
  let w := store (File (jlit "{'abc':'http://example.com/a'}")) in
  exists r w',
    exec (server example_rng (GET (lit "/abc"))) w = (Returned r, w')
    /\ (r = not_found
        \/ exists o u,
             table w = Some o
             /\ own_property o (tl (lit "/abc")) = Some (VStr u)
             /\ u <> [] /\ forallb valid_header_char u = true
             /\ r = moved u).
Proof.
  cbv zeta.
  apply (redirect_only_to_stored example_rng
           (store (File (jlit "{'abc':'http://example.com/a'}"))) (lit "/abc"));
    reflexivity.
Defined.


(** ** Links that are stored stay *)

Lemma exec_write_fault {A : Type} (p : prog A) :
  forall w, write_fault (snd (exec p w)) = write_fault w.
Proof.
  induction p as [a|e| |l k IH|q k IH|q k IH|q data k IH]; intros w; cbn [exec snd];
    try reflexivity.
  - now rewrite IH.
  - apply IH.
  - rewrite IH. unfold open_trunc. destruct q; [|reflexivity].
    destruct (write_fault w) eqn:E; cbn [snd set_links_json write_fault]; exact E.
  - rewrite IH. now destruct q.
Qed.

Lemma table_same (w w' : world) :
  links_json w' = links_json w -> write_fault w' = write_fault w ->
  table w' = table w.
Proof.
  intros Hl Hw. unfold table. rewrite !exec_loadLinks. unfold load, create_record.
  rewrite Hl, Hw.
  destruct (links_json w) as [|c|[|x data]]; try reflexivity.
  - now destruct (write_fault w).
  - destruct (String.eqb c "ENOENT"); [|reflexivity]. now destruct (write_fault w).
  - now destruct (JSON_parse (x :: data)).
Qed.

Lemma table_found (w : world) (o : props) (code : text) (v : value) :
  table w = Some o -> own_property o code = Some v ->
  exists data, links_json w = File data /\ exec loadLinks w = (Returned (VObj o), w).
Proof.
  unfold table. rewrite exec_loadLinks. unfold load, create_record. intros Ht Hown.
  destruct (links_json w) as [|c|[|x data]].
  - destruct (write_fault w); cbn [fst] in Ht; [discriminate Ht|].
    injection Ht as <-. discriminate Hown.
  - destruct (String.eqb c "ENOENT"); [destruct (write_fault w)|];
      cbn [fst] in Ht; try discriminate Ht.
    injection Ht as <-. discriminate Hown.
  - cbn [fst] in Ht. injection Ht as <-. discriminate Hown.
  - destruct (JSON_parse (x :: data)) as [[]|]; cbn [fst] in Ht; try discriminate Ht.
    injection Ht as <-. eauto.
Qed.

Lemma exec_saveLinks_any (links : value) (w : world) :
  exec (saveLinks links) w =
  match JSON_stringify links 2 with
  | None => (Unknown, w)
  | Some t =>
      match write_fault w with
      | Some c => (Thrown (SystemError c), w)
      | None => (Returned tt, set_links_json w (File t))
      end
  end.
Proof.
  unfold saveLinks, stringify. rewrite exec_bind.
  destruct (JSON_stringify links 2); cbn [known exec]; [|reflexivity].
  apply exec_writeFile.
Qed.

Lemma exec_json_response (code : N) (v : value) (w : world) :
  snd (exec (json_response code v) w) = w.
Proof.
  unfold json_response, stringify. now destruct (JSON_stringify v 0).
Qed.

Lemma js_set_cases (o : props) (key : text) (x : jsval) :
  js_set (VObj o) key x = Unmodelled
  \/ js_set (VObj o) key x = Ret (VObj o)
  \/ exists v, x = Json v /\ js_set (VObj o) key x = Ret (VObj (define_property o key v)).
Proof.
  destruct x as [|v|]; cbn [js_set]; auto.
  unfold define_property. destruct (has_own o key); [right; right; eauto|].
  destruct (text_eqb key (lit "__proto__")); [|right; right; eauto].
  destruct v; auto.
Qed.

Lemma value_of_cases (x : jsval) :
  value_of x = Unmodelled \/ exists v, value_of x = Ret v.
Proof.
  destruct x; cbn [value_of]; eauto.
Qed.

Section Permanence.

Variable rng : nat -> byte.
Variables code u : text.

Hypothesis Hdestination : u <> [].

Lemma stored_print (w : world) (l : log) : stored code u w -> stored code u (print w l).
Proof.
  intros (o & Ht & Hown). exists o. now rewrite table_print.
Qed.

Lemma stored_found (w : world) :
  stored code u w ->
  exists o data,
    links_json w = File data
    /\ exec loadLinks w = (Returned (VObj o), w)
    /\ own_property o code = Some (VStr u)
    /\ well_formed (VObj o) = true.
Proof.
  intros (o & Ht & Hown).
  destruct (table_found w o code _ Ht Hown) as (data & Hfile & Hload).
  exists o, data. repeat split; try assumption.
  eapply load_well_formed; eassumption.
Qed.

Lemma stored_saved (w : world) (o : props) (t : text) :
  well_formed (VObj o) = true ->
  JSON_stringify (VObj o) 2 = Some t ->
  own_property o code = Some (VStr u) ->
  stored code u (set_links_json w (File t)).
Proof.
  intros Hwf Ht Hown. exists o. split; [|assumption].
  unfold table. rewrite exec_loadLinks. unfold load. cbn [links_json set_links_json].
  destruct (stringify_nonempty _ _ _ Ht) as (c & r & ->).
  now rewrite (JSON_round_trip _ _ _ Hwf Ht).
Qed.


(** [shorten] keeps the link, whatever the body of the request. *)
Lemma shorten_keeps (w : world) (body : text) :
  stored code u w ->
  fst (exec (shorten rng body) w) <> Unknown ->
  stored code u (snd (exec (shorten rng body) w)).
Proof.
  intros Hstored.
  destruct (stored_found w Hstored) as (o & data & Hfile & Hload & Hown & Hwf).
  assert (Htruthy : ToBoolean (get_property o code) = Some true).
  { unfold get_property. rewrite Hown. destruct u; [congruence | reflexivity]. }
  unfold shorten. rewrite exec_try_catch, exec_bind, Hload. cbv iota.
  match goal with
  | |- context [exec ?p w] =>
      assert (Hinner : fst (exec p w) <> Unknown -> stored code u (snd (exec p w)));
        [|revert Hinner; generalize (exec p w)]
  end.
  { unfold parse. destruct (JSON_parse body) as [parsed|] eqn:Hbody; cbn [bind exec];
      [|intros _; exact Hstored].
    assert (Hparsed := JSON_parse_well_formed _ _ Hbody).
    assert (Hurl : exists url shortCode,
               destructure parsed = Throw TypeError
               \/ (destructure parsed = Ret (url, shortCode)
                   /\ jsval_well_formed url = true)).
    { destruct parsed as [| | | | |b]; cbn [destructure];
        try (exists Undefined, Undefined; right; split; reflexivity).
      - exists Undefined, Undefined. left. reflexivity.
      - exists (get_property b (lit "url")), (get_property b (lit "shortCode")).
        right. split; [reflexivity|]. now apply get_property_well_formed. }
    destruct Hurl as (url & shortCode & [Hd | [Hd Hurl]]); rewrite Hd; cbn [bind exec];
      [intros _; exact Hstored|].
    destruct (ToBoolean url) as [[|]|]; cbn [known bind exec negb];
      [|intros _; rewrite exec_json_response; exact Hstored
       |intros H; now contradiction H].
    destruct (ToBoolean shortCode) as [custom|]; cbn [known bind exec];
      [|intros H; now contradiction H].
    destruct (ToPropertyKey_cases
                (if custom then shortCode
                 else Json (VStr (toString_hex (randomBytes rng 4)))))
      as [Hk | [Hk | [key Hk]]]; rewrite Hk; cbn [bind exec];
      [intros H; now contradiction H | intros _; exact Hstored |].
    cbn [js_get bind].
    destruct (ToBoolean (get_property o key)) as [[|]|] eqn:Htaken; cbn [known bind exec];
      [intros _; rewrite exec_json_response; exact Hstored
      | |intros H; now contradiction H].
    assert (Hkey : text_eqb key code = false).
    { destruct (text_eqb key code) eqn:E; [|reflexivity].
      apply text_eqb_eq in E. subst key. congruence. }
    assert (Hsaved : forall o',
               well_formed (VObj o') = true ->
               own_property o' code = Some (VStr u) ->
               fst (exec (saveLinks (VObj o') ;;
                          code0 <- value_of
                                     (if custom then shortCode
                                      else Json (VStr (toString_hex (randomBytes rng 4)))) ;;
                          json_response 201
                            (VObj [(lit "success", VBool true); (lit "shortCode", code0)]))
                     w) <> Unknown ->
               stored code u
                 (snd (exec (saveLinks (VObj o') ;;
                             code0 <- value_of
                                        (if custom then shortCode
                                         else Json (VStr (toString_hex (randomBytes rng 4)))) ;;
                             json_response 201
                               (VObj [(lit "success", VBool true); (lit "shortCode", code0)]))
                        w))).
    { intros o' Hwf' Hown'. rewrite exec_bind, exec_saveLinks_any.
      destruct (JSON_stringify (VObj o') 2) as [t|] eqn:Ht;
        [|intros H; now contradiction H].
      destruct (write_fault w); [intros _; exact Hstored|].
      rewrite exec_bind.
      destruct (value_of_cases
                  (if custom then shortCode
                   else Json (VStr (toString_hex (randomBytes rng 4)))))
        as [Hv | [v Hv]]; rewrite Hv; cbn [exec];
        [intros H; now contradiction H|].
      intros _. rewrite exec_json_response. now apply (stored_saved _ o'). }
    destruct (js_set_cases o key url) as [Hset | [Hset | (v & -> & Hset)]];
      rewrite Hset; cbn [bind exec].
    - intros H. now contradiction H.
    - now apply Hsaved.
    - apply Hsaved.
      + now apply well_formed_define.
      + now rewrite own_define_property, Hkey. }
  intros [[r|e|] w1] Hinner; cbn [fst snd] in *.
  - intros _. apply Hinner. discriminate.
  - intros _. cbn [exec]. rewrite exec_json_response. apply stored_print.
    apply Hinner. discriminate.
  - intros H. now contradiction H.
Qed.

End Permanence.

Lemma request_keeps (rng : nat -> byte) (code u : text) (req : request) (w : world) :
  u <> [] -> stored code u w ->
  fst (exec (server rng req) w) <> Unknown ->
  stored code u (snd (exec (server rng req) w)).
Proof.
  intros Hu Hstored.
  destruct (String.eqb (method req) "POST" && text_eqb (url req) (lit "/shorten")) eqn:E.
  - unfold server. cbn [exec]. rewrite E.
    apply shorten_keeps; [assumption | now apply stored_print].
  - intros _. destruct Hstored as (o & Ht & Hown).
    destruct (table_found w o code _ Ht Hown) as (data & Hfile & _).
    exists o. split; [|assumption]. rewrite <- Ht. apply table_same.
    + rewrite Hfile. apply leaves_server; [|assumption].
      intros [E1 E2]. rewrite E1, E2 in E. discriminate E.
    + apply exec_write_fault.
Qed.

(** X25.  Links that are stored stay.  Once the table maps a code to a
    destination that is not empty, it maps the code to that destination
    after any sequence of requests served one after another, whatever
    their methods, paths and bodies and whatever bytes the generator
    delivers to each: no request overwrites or removes a link.  The
    requests are those the model follows to their end: none that makes
    the handler interpret a number or use an array as a code. *)
Theorem stored_links_stay (code u : text) (requests : list ((nat -> byte) * request)) :
  forall w,
    u <> [] -> stored code u w ->
    Forall (fun r => r <> Unknown) (fst (serve_in_turn requests w)) ->
    stored code u (snd (serve_in_turn requests w)).
Proof.
  induction requests as [|[rng req] requests IH]; intros w Hu Hstored Hall;
    cbn [serve_in_turn fst snd] in *.
  - assumption.
  - inversion Hall as [|? ? Hreq Hrest]; subst.
    apply IH; [assumption | now apply request_keeps | assumption].
Qed.

Lemma stored_links_stay_witness :
  let w := store (File (jlit "{'abc':'http://example.com/a'}")) in
  let other (n : nat) : byte := match n with O => x12 | _ => x34 end in
  let requests :=
    [(example_rng, POST_shorten (jlit "{'url':'http://example.com/b','shortCode':'abc'}"));
     (example_rng,
      POST_shorten (jlit "{'url':{'abc':'http://example.com/c'},'shortCode':{'abc':true}}"));
     (example_rng,
      POST_shorten (jlit "{'url':'http://example.com/x','shortCode':{'toString':'abc'}}"));
     (example_rng, mkRequest "DELETE" (lit "/abc") []);
     (example_rng,
      POST_shorten (jlit "{'url':'http://example.com/d','shortCode':'__proto__'}"));
     (example_rng, GET (lit "/links"));
     (example_rng, POST_shorten (jlit "{'url':'http://example.com/e'}"));
     (other, POST_shorten (jlit "{'url':'http://example.com/f'}"))] in
  stored (lit "abc") (lit "http://example.com/a") (snd (serve_in_turn requests w)).
Proof.
  cbv zeta.
  apply stored_links_stay.
  - discriminate.
  - eexists. split; reflexivity.
  - vm_compute. repeat constructor; discriminate.
Defined.


(** ** Generated codes, again *)

Lemma hex_not_inherited (k : text) :
  forallb is_hex_digit k = true -> is_inherited k = false.
Proof.
  intros Hhex. unfold is_inherited.
  destruct (existsb (text_eqb k) object_prototype_names) eqn:E; [|reflexivity].
  apply existsb_exists in E as (name & Hin & Heq).
  apply text_eqb_eq in Heq. subst name. exfalso.
  unfold object_prototype_names in Hin. cbn [map In] in Hin.
  repeat (destruct Hin as [Hin|Hin];
          [rewrite <- Hin in Hhex; vm_compute in Hhex; discriminate Hhex|]).
  exact Hin.
Qed.

Lemma hex_not_reserved (k : text) :
  forallb is_hex_digit k = true -> k <> [] -> reserved_path (47 :: k) = false.
Proof.
  intros Hhex Hne. unfold reserved_path.
  repeat match goal with
         | |- context [text_eqb (47 :: k) ?p] =>
             let E := fresh "E" in
             destruct (text_eqb (47 :: k) p) eqn:E;
               [apply text_eqb_eq in E; injection E as E;
                first [ congruence
                      | rewrite E in Hhex; vm_compute in Hhex; discriminate Hhex ]|]
         end.
  reflexivity.
Qed.

(** X26.  A generated code can always be used.  When the request names no
    code, or the empty one, the code drawn from the generator is no member
    of [Object.prototype] and none of the server's own paths: if it is not
    in the table, the request is answered 201 with the eight digits, and a
    [GET] for them is answered 301 with the destination, provided only
    that the destination is not empty and can stand in a header. *)
Theorem generated_link_resolves (rng rng' : nat -> byte) (w : world) (o : props)
    (body u : text) (c : option text) :
  holds w o -> create_request body u c ->
  c = None \/ c = Some [] ->
  u <> [] -> forallb valid_header_char u = true ->
  own_property o (toString_hex (randomBytes rng 4)) = None ->
  exists w' w'',
    exec (server rng (POST_shorten body)) w
      = (Returned (created (toString_hex (randomBytes rng 4))), w')
    /\ exec (server rng' (GET (47 :: toString_hex (randomBytes rng 4)))) w'
       = (Returned (moved u), w'')
    /\ links_json w'' = links_json w'.
Proof.
  intros (Ht & Hs & Hw) (b & Hbody & Hurl & Hsc) Hc Hu Hvalid Hfresh.
  assert (Hhex := toString_hex_digits (randomBytes rng 4)).
  assert (Hlen := toString_hex_length (randomBytes rng 4)).
  rewrite randomBytes_length in Hlen.
  assert (Hne : toString_hex (randomBytes rng 4) <> [])
    by (intros E; rewrite E in Hlen; discriminate Hlen).
  assert (Hcode : final_code rng c = toString_hex (randomBytes rng 4))
    by (destruct Hc as [-> | ->]; reflexivity).
  assert (Hset := final_code_settles rng b c Hsc). rewrite Hcode in Hset.
  assert (Hfree : truthy (get_property o (toString_hex (randomBytes rng 4))) = false)
    by (unfold truthy, get_property; now rewrite Hfresh, (hex_not_inherited _ Hhex)).
  destruct (create_fresh rng w o b body u _ Ht Hw Hs Hbody Hurl Hu Hset Hfree)
    as (w' & Hexec & _ & _ & Htable & _).
  destruct (resolve_found rng' w' _ (toString_hex (randomBytes rng 4)) u Htable)
    as (w'' & Hget & Hsame); try assumption.
  { now rewrite own_define_property, text_eqb_refl. }
  { now apply hex_not_reserved. }
  exists w', w''. auto.
Qed.

Lemma generated_link_resolves_witness :
  let w := store (File (jlit "{'abc':'http://example.com/a'}")) in
  let body := jlit "{'url':'http://example.com/new','shortCode':''}" in
  exists w' w'',
    exec (server example_rng (POST_shorten body)) w
      = (Returned (created (toString_hex (randomBytes example_rng 4))), w')
    /\ exec (server example_rng (GET (47 :: toString_hex (randomBytes example_rng 4)))) w'
       = (Returned (moved (lit "http://example.com/new")), w'')
    /\ links_json w'' = links_json w'.
Proof.
  cbv zeta.
  apply (generated_link_resolves example_rng example_rng
           (store (File (jlit "{'abc':'http://example.com/a'}")))
           [(lit "abc", VStr (lit "http://example.com/a"))]
           (jlit "{'url':'http://example.com/new','shortCode':''}")
           (lit "http://example.com/new") (Some [])).
  - repeat split.
  - exists [(lit "url", VStr (lit "http://example.com/new")); (lit "shortCode", VStr [])].
    repeat split; vm_compute; reflexivity.
  - right. reflexivity.
  - discriminate.
  - reflexivity.
  - reflexivity.
Defined.

Lemma hex_digit_inj (d1 d2 : N) :
  d1 < 16 -> d2 < 16 -> hex_digit d1 = hex_digit d2 -> d1 = d2.
Proof.
  unfold hex_digit. intros H1 H2.
  destruct (N.ltb_spec d1 10), (N.ltb_spec d2 10); lia.
Qed.

(** X27.  The hexadecimal spelling loses nothing: two buffers with the
    same spelling are the same buffer, so two generated codes are equal
    only when the generator has delivered the same bytes. *)
Theorem toString_hex_injective (buffer1 buffer2 : list byte) :
  toString_hex buffer1 = toString_hex buffer2 -> buffer1 = buffer2.
Proof.
  unfold toString_hex. revert buffer2.
  induction buffer1 as [|b1 buffer1 IH]; intros [|b2 buffer2] H;
    cbn [flat_map app] in H; try discriminate H; [reflexivity|].
  injection H as Hhigh Hlow Hrest.
  assert (B1 := Byte.to_N_bounded b1). assert (B2 := Byte.to_N_bounded b2).
  apply hex_digit_inj in Hhigh;
    [|apply N.Div0.div_lt_upper_bound; lia | apply N.Div0.div_lt_upper_bound; lia].
  apply hex_digit_inj in Hlow; [|apply N.mod_lt; discriminate | apply N.mod_lt; discriminate].
  assert (E : Byte.to_N b1 = Byte.to_N b2).
  { rewrite (N.div_mod (Byte.to_N b1) 16), (N.div_mod (Byte.to_N b2) 16) by discriminate.
    now rewrite Hhigh, Hlow. }
  f_equal; [|now apply IH].
  assert (E1 := Byte.of_to_N b1). rewrite E, Byte.of_to_N in E1. now injection E1.
Qed.

Lemma toString_hex_injective_witness :
  randomBytes example_rng 4 = [x00; xab; x0f; xff].
Proof.
  apply (toString_hex_injective (randomBytes example_rng 4) [x00; xab; x0f; xff]).
  reflexivity.
Defined.


(** ** The answers of [POST /shorten] *)

Lemma all_some_Forall {A B : Type} (f : A -> option B) (l : list A) :
  Forall (fun x => exists t, f x = Some t) l -> exists ts, all_some (map f l) = Some ts.
Proof.
  intros H. induction H as [|x l Hx _ IH]; cbn [map all_some].
  - eauto.
  - destruct Hx as [t Hx]. destruct IH as [ts IH]. rewrite Hx, IH.
    eexists. reflexivity.
Qed.

(** [JSON.stringify] gives a text for every value without numbers. *)
Lemma number_free_serialize (v : value) :
  number_free v = true -> forall gap indent, exists t, serialize gap indent v = Some t.
Proof.
  induction v as [| b | l | s | items IH | members IH] using value_nested_ind;
    intros Hv gap indent; cbn [serialize number_free] in *;
    try discriminate Hv; try (eexists; reflexivity).
  - destruct b; eexists; reflexivity.
  - destruct (all_some_Forall (serialize gap (indent + gap)) items) as [ts Hts].
    + rewrite forallb_forall in Hv. rewrite Forall_forall in IH |- *.
      intros x Hx. apply IH; auto.
    + rewrite Hts. eexists. reflexivity.
  - destruct (all_some_Forall
                (fun p => option_map (member_text gap (fst p))
                            (serialize gap (indent + gap) (snd p))) members)
      as [ts Hts].
    + rewrite forallb_forall in Hv. rewrite Forall_forall in IH |- *.
      intros p Hp. destruct (IH p Hp (Hv p Hp) gap (indent + gap)%nat) as [t Ht].
      rewrite Ht. eexists. reflexivity.
    + rewrite Hts. eexists. reflexivity.
Qed.

Lemma number_free_answer (code : N) (v : value) (w : world) :
  number_free v = true ->
  exists r, exec (json_response code v) w = (Returned r, w).
Proof.
  intros Hv. unfold json_response, stringify, JSON_stringify.
  destruct (number_free_serialize v Hv (Nat.min 0 10) 0) as [t Ht].
  rewrite Ht. eexists. reflexivity.
Qed.

Lemma get_property_number_free (o : props) (k : text) :
  number_free (VObj o) = true -> jsval_number_free (get_property o k) = true.
Proof.
  cbn [number_free]. rewrite forallb_forall. intros Hall. unfold get_property.
  destruct (own_property o k) as [v|] eqn:E; [|now destruct (is_inherited k)].
  cbn [jsval_number_free].
  induction o as [|[k' v'] o IH]; [discriminate E|].
  cbn [own_property] in E. destruct (text_eqb k' k).
  - injection E as <-. apply (Hall (k', v')). now left.
  - apply IH; [|assumption]. intros p Hp. apply Hall. now right.
Qed.

Lemma number_free_ToBoolean (x : jsval) :
  jsval_number_free x = true -> exists b, ToBoolean x = Some b.
Proof.
  destruct x as [|[]|]; cbn [jsval_number_free number_free ToBoolean]; intros H;
    try discriminate H; eauto.
Qed.

Lemma number_free_define (o : props) (k : text) (v : value) :
  number_free (VObj o) = true -> number_free v = true ->
  number_free (VObj (define_property o k v)) = true.
Proof.
  cbn [number_free]. rewrite !forallb_forall, <- !Forall_forall. intros Ho Hv.
  now apply (Forall_define_property (fun x => number_free x = true)).
Qed.

(** On the bodies and records it follows, [shorten] comes to an answer. *)
Lemma shorten_followed (rng : nat -> byte) (body : text) (w : world) :
  followed_body body = true -> followed_record w = true ->
  fst (exec (shorten rng body) w) <> Unknown.
Proof.
  unfold followed_body, followed_record. intros Hbody Hrec.
  assert (Hanswer : forall code v w0,
             number_free v = true -> fst (exec (json_response code v) w0) <> Unknown).
  { intros code v w0 Hv. destruct (number_free_answer code v w0 Hv) as [r ->].
    discriminate. }
  unfold shorten. rewrite exec_try_catch, exec_bind.
  destruct (exec loadLinks w) as [[links|e|] w1]; cbn [fst] in Hrec;
    try discriminate Hrec; cbv iota;
    [|cbn [exec]; now apply Hanswer].
  match goal with
  | |- context [exec ?p w1] =>
      assert (Hinner : fst (exec p w1) <> Unknown); [|revert Hinner; generalize (exec p w1)]
  end.
  2: { intros [[r|e|] w2] Hinner; cbn [fst] in *;
         [discriminate | cbn [exec]; now apply Hanswer | contradiction]. }
  unfold parse. destruct (JSON_parse body) as [parsed|]; cbn [bind exec];
    [|discriminate].
  apply andb_true_iff in Hbody as [Hparsed Hshape].
  assert (Hfields : destructure parsed = Throw TypeError
                    \/ exists url shortCode,
                         destructure parsed = Ret (url, shortCode)
                         /\ jsval_number_free url = true
                         /\ jsval_number_free shortCode = true
                         /\ (forall name, url <> Inherited name)
                         /\ (forall name, shortCode <> Inherited name)
                         /\ (forall items, shortCode <> Json (VArr items))).
  { destruct parsed as [| | | | |b]; cbn [destructure]; auto;
      try (right; exists Undefined, Undefined; repeat split; discriminate).
    right. exists (get_property b (lit "url")), (get_property b (lit "shortCode")).
    split; [reflexivity|].
    split; [now apply get_property_number_free|].
    split; [now apply get_property_number_free|].
    unfold get_property.
    change (is_inherited (lit "url")) with false.
    change (is_inherited (lit "shortCode")) with false.
    repeat split.
    - intros name. destruct (own_property b (lit "url")); discriminate.
    - intros name. destruct (own_property b (lit "shortCode")); discriminate.
    - intros items. destruct (own_property b (lit "shortCode")) as [[]|];
        discriminate. }
  destruct Hfields as [-> | (url & shortCode & -> & Hurl & Hcode & Hu & Hc & Harr)];
    cbn [bind exec]; [discriminate|].
  destruct (number_free_ToBoolean url Hurl) as [has_url Hhas]. rewrite Hhas.
  cbn [known bind]. destruct has_url; cbn [negb];
    [|apply Hanswer; reflexivity].
  destruct (number_free_ToBoolean shortCode Hcode) as [custom Hcustom]. rewrite Hcustom.
  cbn [known bind].
  assert (Hfinal : exists v,
             (if custom then shortCode
              else Json (VStr (toString_hex (randomBytes rng 4)))) = Json v
             /\ number_free v = true
             /\ (forall items, v <> VArr items)).
  { destruct custom.
    - destruct shortCode as [|v|name]; [discriminate Hcustom | | now contradiction (Hc name)].
      exists v. repeat split; [assumption|]. intros items ->. now contradiction (Harr items).
    - eexists. repeat split. discriminate. }
  destruct Hfinal as (code & -> & Hcodev & Hnotarr).
  assert (Hkey : ToPropertyKey (Json code) = Throw TypeError
                 \/ exists key, ToPropertyKey (Json code) = Ret key).
  { destruct code as [|[|]| | | |o]; cbn [ToPropertyKey]; eauto.
    - discriminate Hcodev.
    - now contradiction (Hnotarr items).
    - destruct (has_own o (lit "toString")); eauto. }
  destruct Hkey as [-> | [key ->]]; cbn [bind exec]; [discriminate|].
  destruct links as [| | | | |o]; try discriminate Hrec; cbn [js_get bind exec];
    [discriminate|].
  destruct (number_free_ToBoolean _ (get_property_number_free o key Hrec))
    as [taken Htaken].
  rewrite Htaken. cbn [known bind]. destruct taken; [apply Hanswer; reflexivity|].
  destruct url as [|v|name]; [discriminate Hhas | | now contradiction (Hu name)].
  cbn [jsval_number_free] in Hurl.
  assert (Hset : js_set (VObj o) key (Json v) = Ret (VObj (define_property o key v))).
  { unfold js_set, define_property. destruct (has_own o key) eqn:Hown; [reflexivity|].
    destruct (text_eqb key (lit "__proto__")) eqn:Hp; [|reflexivity].
    apply text_eqb_eq in Hp. subst key.
    unfold get_property, has_own in Htaken, Hown.
    destruct (own_property o (lit "__proto__")); discriminate. }
  rewrite Hset. cbn [bind]. rewrite exec_bind, exec_saveLinks_any.
  destruct (number_free_serialize _ (number_free_define o key v Hrec Hurl) (Nat.min 2 10) 0)
    as [t Ht].
  unfold JSON_stringify. rewrite Ht.
  destruct (write_fault w1); [discriminate|].
  cbn [value_of bind]. apply Hanswer. cbn [number_free forallb snd]. now rewrite Hcodev.
Qed.

(** X24.  [POST /shorten] always answers, and what it answers is JSON.
    For every body that does not parse or parses to a value without
    numbers whose [shortCode] is not an array, and every record that fails
    to load or loads as [null] or as an object without numbers, the
    request is answered under the content type [application/json] with an
    object whose [success] is [true] with status 201, together with the
    [shortCode], and [false] with status 400 or 500, together with a
    [message] that is not empty. *)
Theorem create_answers_are_json (rng : nat -> byte) (body : text) (w : world) :
  followed_body body = true -> followed_record w = true ->
  exists r w',
    exec (server rng (POST_shorten body)) w = (Returned r, w')
    /\ shorten_answer r.
Proof.
  intros Hbody Hrec. rewrite server_POST_shorten.
  assert (Hrec' : followed_record (print w (request_line (POST_shorten body))) = true)
    by (unfold followed_record in *; now rewrite load_print).
  assert (Hfollowed := shorten_followed rng body _ Hbody Hrec').
  assert (Hcaught : forall e,
             fst (exec (shorten rng body) (print w (request_line (POST_shorten body))))
             <> Thrown e).
  { intros e. unfold shorten. apply try_catch_answers.
    intros e0 w0. eexists. eexists. reflexivity. }
  destruct (exec (shorten rng body) (print w (request_line (POST_shorten body))))
    as [[r|e|] w'] eqn:Hexec; cbn [fst] in *.
  - exists r, w'. split; [reflexivity|].
    apply (writes_returns sound_text shorten_answer _ (shorten_answers rng body) _ _ _ Hexec).
  - now contradiction (Hcaught e).
  - contradiction.
Qed.

Lemma create_answers_are_json_witness :
  exists r w',
    exec (server example_rng
            (POST_shorten
               (jlit "{'url':['http://example.com/'],'shortCode':{'toString':'abc'}}")))
      (store Missing)
    = (Returned r, w')
    /\ shorten_answer r.
Proof.
  apply (create_answers_are_json example_rng
           (jlit "{'url':['http://example.com/'],'shortCode':{'toString':'abc'}}")
           (store Missing)); reflexivity.
Defined.
